(** * MASA-CCTDI: the adaptive interview state machine, its files and its
      simulation driver

    A shallow embedding of [cctdi_agents.py], [cctdi_system.py] and the
    single-user part of [auto_simu_concurrent.py]: the response
    normaliser, the model call adapter, the diagnostic and scoring
    agents, the session orchestrator, the shared score ledger, the
    transcript and report files of a session, the persona file names and
    the simulation runner, followed by the properties proved about them.

    Conventions of the embedding.
    - A Python [str] is a list of Unicode code points ([text]); [len] is
      [length].  Literals of the source are written with [utf8].
    - The language model and [json.loads] are external: a run is taken
      relative to a [client] that answers the n-th completion request and
      a decoder [json_loads].  Prompts are not modelled, a client indexed
      by the request number covers every behaviour of the service.
    - Python exceptions are the [Raise] outcome of the monad [M]; the
      state reached before the exception is kept, as in Python.
    - An [int] is unbounded.  A [float] is a binary double, kept as the
      rational it denotes; the sum, the quotient and the rounding of
      [_complete_assessment] round to the nearest double as the
      interpreter does.
    - Timestamps and console output are left out.
    - The session orchestrator is embedded twice.  Section [Run] has the
      session without its transcript and report files: its state, its
      responses and the ledger.  Module [Recorded] has the same methods
      with the writes of [ConversationCSVManager] and of
      [_save_assessment_report] on a disk that maps a session id to the
      transcript and to the report of that id.  A transcript is the list
      of its rows, a row the record of its cells without the timestamp,
      a total and an average the numbers that the session computes.
      The writes are guarded by [except Exception] in the source and are
      taken to succeed here.  One statement of these methods is not
      guarded:
      [save_dimension_score] cleans the reasoning while it formats the
      cell, so a score whose reasoning is neither a string nor empty
      raises [AttributeError] out of [process_user_response].  [Recorded]
      has this exception and the session of section [Run] does not; the
      two agree on every call that returns. *)

From Stdlib Require Import QArith Qround Qabs.
From stdpp Require Import base option list gmap strings pretty.
From Stdlib Require Import Lia.

Local Open Scope N_scope.

(** ** Text *)

Definition char := N.
Definition text := list char.

(** Decoder for the literals of this file, which are UTF-8 in the source. *)
Fixpoint utf8_decode (bs : list N) : text :=
  match bs with
  | [] => []
  | b0 :: r0 =>
    if b0 <? 128 then b0 :: utf8_decode r0
    else if b0 <? 224 then
      match r0 with
      | b1 :: r1 => ((b0 - 192) * 64 + (b1 - 128)) :: utf8_decode r1
      | _ => []
      end
    else if b0 <? 240 then
      match r0 with
      | b1 :: b2 :: r2 =>
        ((b0 - 224) * 4096 + (b1 - 128) * 64 + (b2 - 128)) :: utf8_decode r2
      | _ => []
      end
    else
      match r0 with
      | b1 :: b2 :: b3 :: r3 =>
        ((b0 - 240) * 262144 + (b1 - 128) * 4096 + (b2 - 128) * 64 + (b3 - 128))
          :: utf8_decode r3
      | _ => []
      end
  end.

Definition utf8 (s : string) : text :=
  utf8_decode (map Ascii.N_of_ascii (String.list_ascii_of_string s)).

(** JSON texts are written with an apostrophe where the text has a double
    quote: [json_text "{'a': 1}"] is the text [{"a": 1}]. *)
Definition json_text (s : string) : text :=
  map (fun c => if c =? 39 then 34 else c) (utf8 s).

Definition backtick : char := 96.
Definition newline : char := 10.

(** [str.isspace] for one character; [str.strip()] and the [\s] of [re] on
    [str] patterns both use this set. *)
Definition isspace (c : char) : bool :=
  ((9 <=? c) && (c <=? 13)) || ((28 <=? c) && (c <=? 32))
  || (c =? 133) || (c =? 160) || (c =? 5760)
  || ((8192 <=? c) && (c <=? 8202))
  || (c =? 8232) || (c =? 8233) || (c =? 8239) || (c =? 8287) || (c =? 12288).

Definition is_backtick (c : char) : bool := c =? backtick.

Fixpoint lstrip_with (p : char -> bool) (s : text) : text :=
  match s with
  | [] => []
  | c :: r => if p c then lstrip_with p r else s
  end.

Definition rstrip_with (p : char -> bool) (s : text) : text :=
  reverse (lstrip_with p (reverse s)).

(** [s.strip()] with [p = isspace], [s.strip('`')] with [p = is_backtick]. *)
Definition strip_with (p : char -> bool) (s : text) : text :=
  rstrip_with p (lstrip_with p s).

(** [Some r] when [s = p ++ r]. *)
Fixpoint drop_prefix (p s : text) : option text :=
  match p, s with
  | [], _ => Some s
  | a :: p', b :: s' => if a =? b then drop_prefix p' s' else None
  | _ :: _, [] => None
  end.

(** [needle in s] for two strings. *)
Fixpoint contains (needle s : text) : bool :=
  match drop_prefix needle s with
  | Some _ => true
  | None => match s with
            | [] => false
            | _ :: r => contains needle r
            end
  end.

(** ** Response normaliser: [BaseAgent._clean_json_response] *)

Definition fence : text := [backtick; backtick; backtick].

(** [re.sub(r'^```(?:json)?\s*\n?', '', s)].  Without [re.MULTILINE] the
    anchor holds at offset 0 only, so there is at most one substitution.
    Every later part of the pattern can match the empty string, hence the
    greedy choices stand: the tag [json] is taken when present, [\s*]
    takes every following blank, and [\n?] is left with nothing. *)
Definition sub_leading_fence (s : text) : text :=
  match drop_prefix fence s with
  | None => s
  | Some r =>
    lstrip_with isspace
      (match drop_prefix (utf8 "json") r with Some r' => r' | None => r end)
  end.

(** The pattern [```\s*$] at the head of [s]: since [\s*] is greedy and
    the newline is a blank, [$] succeeds exactly when blanks run to the
    end of the text. *)
Definition fence_to_end (s : text) : bool :=
  match drop_prefix fence s with
  | Some r => forallb isspace r
  | None => false
  end.

(** The pattern [\n?```\s*$] at the head of [s]. *)
Definition trailing_fence_at (s : text) : bool :=
  fence_to_end s
  || match s with
     | c :: r => (c =? newline) && fence_to_end r
     | [] => false
     end.

(** [re.sub(r'\n?```\s*$', '', s)]: the leftmost offset where the pattern
    matches; the match reaches the end of the text, so nothing is left to
    scan after it. *)
Fixpoint sub_trailing_fence (s : text) : text :=
  if trailing_fence_at s then []
  else match s with
       | [] => []
       | c :: r => c :: sub_trailing_fence r
       end.

Definition normalize (response : text) : text :=
  match response with
  | [] => response
  | _ =>
    let cleaned := sub_leading_fence (strip_with isspace response) in
    let cleaned := sub_trailing_fence cleaned in
    strip_with isspace (strip_with is_backtick cleaned)
  end.

(** The completion of a request may be [None] (a null [content]); then
    [not response] holds as it does for the empty string. *)
Definition _clean_json_response (response : option text) : option text :=
  normalize <$> response.

Local Close Scope N_scope.

(** ** Python values

    What [json.loads] returns.  A [float] is a binary double, kept as the
    rational it denotes, or one of the three special values that
    [json.loads] accepts ([Infinity], [-Infinity], [NaN]).  An object is
    the list of its items; the first item with a key is the one read. *)

Inductive pyfloat :=
| FFinite (q : Q)
| FInf
| FNegInf
| FNaN.

#[local] Unset Elimination Schemes.
Inductive json :=
| JNull
| JBool (b : bool)
| JInt (z : Z)
| JFloat (f : pyfloat)
| JStr (s : text)
| JArr (l : list json)
| JObj (o : list (text * json)).
#[local] Set Elimination Schemes.

(** The float literals of the source, as the doubles they denote. *)
Definition float_1_0 : pyfloat := FFinite 1.
Definition float_0_5 : pyfloat := FFinite (1 # 2).
Definition float_0_9 : pyfloat :=
  FFinite (8106479329266893 # 9007199254740992).
Definition float_0_3 : pyfloat :=
  FFinite (5404319552844595 # 18014398509481984).

Inductive exn :=
| JSONDecodeError
| TypeError
| ValueError
| AttributeError
| KeyError
| IndexError
| OverflowError
| RecursionError.

(** What a Python call does: it returns, it raises, or it leaves the
    embedding ([Beyond]).  No definition of this file produces the last
    one: it is there for a decoder [json_loads] that does, and it
    propagates as an exception does. *)
Inductive outcome (A : Type) :=
| Ret (a : A)
| Raise (e : exn)
| Beyond.
Arguments Ret {A} a.
Arguments Raise {A} e.
Arguments Beyond {A}.

(** A [dict] with [int] keys, in insertion order: [d.get(k)] and
    [d[k] = v], which keeps the place of a key that is present. *)
Fixpoint dict_get {V} (k : nat) (d : list (nat * V)) : option V :=
  match d with
  | [] => None
  | (k', v) :: d' => if decide (k' = k) then Some v else dict_get k d'
  end.

Fixpoint dict_set {V} (k : nat) (v : V) (d : list (nat * V)) : list (nat * V) :=
  match d with
  | [] => [(k, v)]
  | (k', v') :: d' =>
    if decide (k' = k) then (k, v) :: d' else (k', v') :: dict_set k v d'
  end.

(** [dict.get(key)] on the items of an object. *)
Fixpoint obj_get (key : text) (o : list (text * json)) : option json :=
  match o with
  | [] => None
  | (k, v) :: o' => if decide (k = key) then Some v else obj_get key o'
  end.

Definition is_str (s : text) (v : json) : bool :=
  match v with
  | JStr s' => bool_decide (s' = s)
  | _ => false
  end.

(** [field in result] for a string [field]: key membership for a dict,
    element membership for a list, substring for a string, and a
    [TypeError] for a value that is not a container. *)
Definition py_in (field : text) (v : json) : outcome bool :=
  match v with
  | JObj o => Ret (bool_decide (is_Some (obj_get field o)))
  | JArr l => Ret (existsb (is_str field) l)
  | JStr s => Ret (contains field s)
  | _ => Raise TypeError
  end.

(** [all(field in result for field in required_fields)]: the generator
    stops at the first absent field. *)
Fixpoint all_in (required_fields : list text) (v : json) : outcome bool :=
  match required_fields with
  | [] => Ret true
  | field :: rest =>
    match py_in field v with
    | Ret true => all_in rest v
    | other => other
    end
  end.

(** [bool(v)]. *)
Definition truthy (v : json) : bool :=
  match v with
  | JNull => false
  | JBool b => b
  | JInt z => negb (z =? 0)%Z
  | JFloat (FFinite q) => negb (Qeq_bool q 0)
  | JFloat _ => true
  | JStr s => negb (bool_decide (s = []))
  | JArr l => match l with [] => false | _ => true end
  | JObj o => match o with [] => false | _ => true end
  end.

(** [v < n] and [v > n] for an [int] literal [n]; comparing an [int] with
    a [float] is exact in Python, and a [bool] is an [int]. *)
Definition py_lt_int (v : json) (n : Z) : outcome bool :=
  match v with
  | JInt z => Ret (z <? n)%Z
  | JBool b => Ret (Z.b2z b <? n)%Z
  | JFloat (FFinite q) => Ret (negb (Qle_bool (inject_Z n) q))
  | JFloat FNegInf => Ret true
  | JFloat _ => Ret false
  | _ => Raise TypeError
  end.

Definition py_gt_int (v : json) (n : Z) : outcome bool :=
  match v with
  | JInt z => Ret (n <? z)%Z
  | JBool b => Ret (n <? Z.b2z b)%Z
  | JFloat (FFinite q) => Ret (negb (Qle_bool q (inject_Z n)))
  | JFloat FInf => Ret true
  | JFloat _ => Ret false
  | _ => Raise TypeError
  end.

(** An [int] converts to a [float] unless it rounds to 2^1024. *)
Definition int_fits_float (z : Z) : bool :=
  (Z.abs z <? 2 ^ 1024 - 2 ^ 970)%Z.

(** ** Numbers

    What [sum], [/], [round] and [>=] compute with in
    [_complete_assessment]: an [int] or a [float]. *)

Inductive number :=
| PyInt (z : Z)
| PyFloat (f : pyfloat).

(** The nearest integer, ties to the even one. *)
Definition round_half_even (q : Q) : Z :=
  let f := Qfloor q in
  match Qcompare (q - inject_Z f) (1 # 2) with
  | Lt => f
  | Gt => (f + 1)%Z
  | Eq => if Z.even f then f else (f + 1)%Z
  end.

(** The binary exponent of a positive rational: [binade a] is the [e]
    with 2^e <= a < 2^(e+1). *)
Definition binade (a : Q) : Z :=
  let e := (Z.log2 (Qnum a) - Z.log2 (Zpos (Qden a)))%Z in
  if Qle_bool (2 ^ e) a then e else (e - 1)%Z.

(** The double nearest to a rational, ties to the even significand:
    53 bits from 2^-1022 on, the multiples of 2^-1074 below, and an
    infinity from 2^1024 - 2^970 on.  The two zeros are not told apart. *)
Definition round_double (q : Q) : pyfloat :=
  if Qeq_bool q 0 then FFinite 0
  else
    let a := Qabs q in
    let ulp := (2 ^ (Z.max (binade a) (-1022) - 52))%Q in
    let r := (inject_Z (round_half_even (a / ulp)) * ulp)%Q in
    if Qle_bool (2 ^ 1024) r then (if Qle_bool 0 q then FInf else FNegInf)
    else FFinite (Qred (if Qle_bool 0 q then r else - r)).

(** [x + y] on two [float]s. *)
Definition float_add (x y : pyfloat) : pyfloat :=
  match x, y with
  | FNaN, _ | _, FNaN => FNaN
  | FInf, FNegInf | FNegInf, FInf => FNaN
  | FInf, _ | _, FInf => FInf
  | FNegInf, _ | _, FNegInf => FNegInf
  | FFinite a, FFinite b => round_double (a + b)
  end.

(** [float(z)], as [float.__add__] and [float.__radd__] convert an [int]
    operand. *)
Definition float_of_int (z : Z) : outcome pyfloat :=
  if int_fits_float z then Ret (round_double (inject_Z z))
  else Raise OverflowError.

(** [a + b]: exact on two [int]s, else the sum of the two [float]s. *)
Definition number_add (a b : number) : outcome number :=
  match a, b with
  | PyInt x, PyInt y => Ret (PyInt (x + y))
  | PyInt x, PyFloat g =>
    match float_of_int x with
    | Ret f => Ret (PyFloat (float_add f g))
    | Raise e => Raise e
    | Beyond => Beyond
    end
  | PyFloat f, PyInt y =>
    match float_of_int y with
    | Ret g => Ret (PyFloat (float_add f g))
    | Raise e => Raise e
    | Beyond => Beyond
    end
  | PyFloat f, PyFloat g => Ret (PyFloat (float_add f g))
  end.

(** [total / 7]: the quotient of two [int]s is rounded once and raises
    when it is too large for a [float]; a [float] is divided by 7.0. *)
Definition over_7 (total : number) : outcome pyfloat :=
  match total with
  | PyInt z =>
    match round_double (inject_Z z / 7) with
    | FFinite q => Ret (FFinite q)
    | _ => Raise OverflowError
    end
  | PyFloat (FFinite q) => Ret (round_double (q / 7))
  | PyFloat f => Ret f
  end.

(** [round(x, 1)]: the double nearest to the decimal with one place that
    is nearest to [x], ties to the even last digit. *)
Definition round_1 (x : pyfloat) : pyfloat :=
  match x with
  | FFinite q => round_double (inject_Z (round_half_even (q * 10)) / 10)
  | other => other
  end.

(** [x >= n] for an [int] literal [n]: the comparison of a [float] with
    an [int] is exact, and every comparison with NaN is false. *)
Definition float_ge_int (x : pyfloat) (n : Z) : bool :=
  match x with
  | FFinite q => Qle_bool (inject_Z n) q
  | FInf => true
  | FNegInf | FNaN => false
  end.

(** [f"{v:.2f}"]: only whether it raises matters here. *)
Definition py_format_2f (v : json) : outcome unit :=
  match v with
  | JInt z => if int_fits_float z then Ret tt else Raise OverflowError
  | JBool _ | JFloat _ => Ret tt
  | JStr _ => Raise ValueError
  | _ => Raise TypeError
  end.

(** ** The state monad of a run *)

Definition M (S A : Type) : Type := S -> outcome A * S.

Definition ret {S A} (a : A) : M S A := fun s => (Ret a, s).
Definition raise {S A} (e : exn) : M S A := fun s => (Raise e, s).
Definition beyond {S A} : M S A := fun s => (Beyond, s).
Definition bind {S A B} (m : M S A) (k : A -> M S B) : M S B :=
  fun s =>
    match m s with
    | (Ret a, s') => k a s'
    | (Raise e, s') => (Raise e, s')
    | (Beyond, s') => (Beyond, s')
    end.
Definition get {S} : M S S := fun s => (Ret s, s).
Definition modify {S} (f : S -> S) : M S unit := fun s => (Ret tt, f s).
Definition lift_outcome {S A} (o : outcome A) : M S A := fun s => (o, s).

(** [d[key]] and friends on a value that may be [None]. *)
Definition require {S A} (e : exn) (o : option A) : M S A :=
  match o with
  | Some a => ret a
  | None => raise e
  end.

Declare Scope run_scope.
Delimit Scope run_scope with run.
Notation "x <- m ;; k" := (bind m (fun x => k))
  (at level 100, m at next level, right associativity) : run_scope.
Notation "m ;;; k" := (bind m (fun _ => k))
  (at level 100, right associativity) : run_scope.
Local Open Scope run_scope.

(** ** The world outside a session *)

Record error := { error_type : text; error_str : text }.

(** What one [chat.completions.create] does: it yields the [content] of the
    first choice (possibly [None]) or raises inside the [try]. *)
Inductive completion :=
| Content (c : option text)
| Failure (e : error).

(** A line of [data/user_scores.csv]: what [writeheader] and [writerow]
    append. *)
Inductive ledger_line :=
| Header
| Row (id name : text) (dims : list json) (total : number).

Record world := {
  requests : nat;                      (* completion requests issued *)
  sleeps : list nat;                   (* arguments of [time.sleep] *)
  ledger : option (list ledger_line)   (* the score file, [None]: absent *)
}.

Definition count_request (w : world) : world :=
  {| requests := S (requests w); sleeps := sleeps w; ledger := ledger w |}.
Definition sleep (seconds : nat) (w : world) : world :=
  {| requests := requests w; sleeps := sleeps w ++ [seconds];
     ledger := ledger w |}.
Definition set_ledger (l : option (list ledger_line)) (w : world) : world :=
  {| requests := requests w; sleeps := sleeps w; ledger := l |}.

Definition decimal (n : nat) : text := utf8 (pretty (N.of_nat n)).

(** [str(last_error)]. *)
Definition str_error (last_error : option error) : text :=
  match last_error with
  | None => utf8 "None"
  | Some e => error_str e
  end.

Definition error_msg (max_retries : nat) (last_error : option error) : text :=
  utf8 "调用LLM时发生错误（" ++ decimal max_retries
    ++ utf8 "次重试后失败）: " ++ str_error last_error.

(** ** Session data *)

(** [interaction_modes]: 鼓励, 正常, 追问. *)
Inductive mode := Encourage | Normal | Probe.

(** The three values of [system_state["status"]]. *)
Inductive status := Initialized | Running | Completed.

(** [overall_level]: 优秀, 良好, 一般, 较差, 极差. *)
Inductive level := Excellent | Good | Average | Poor | VeryPoor.

(** An entry of the catalogue, without the texts that only go into
    prompts ([questions], [description]). *)
Record dimension_info := {
  dimension_id : nat;
  dimension_name : text
}.

Record guidance := {
  g_dimension_id : nat;
  g_dimension_name : text;
  g_guidance : option text
}.

Record interaction := {
  i_interaction_count : nat;
  i_mode : mode;
  i_question : option text;
  i_dimension : text
}.

Record user_response := {
  content : text;
  interaction_id : nat
}.

(** The dict returned by [analyze_interaction_sufficiency].  The forced
    results have no [analyzed_interactions], only the fallback has
    [raw_analysis]. *)
Record diagnostic_result := {
  sufficient : json;
  reason : json;
  recommendation : json;
  confidence : json;
  analyzed_interactions : option nat;
  raw_analysis : option (option text)
}.

(** The dict returned by [score_dimension], with the keys that the
    program reads; only the fallback has [raw_result]. *)
Record scoring_result := {
  score : json;
  sr_level : json;
  reasoning : json;
  sr_confidence : json;
  dimension : text;
  sr_dimension_id : nat;
  interactions_analyzed : nat;
  raw_result : option (option text)
}.

Record final_report := {
  total_score : number;
  average_score : pyfloat;
  overall_level : level;
  fr_dimension_scores : list (nat * scoring_result);
  final_dimension_result : text * json * json
}.

Record director_agent := {
  d_current_dimension : nat;
  dimension_progress : gmap nat json
}.

Record navigator_agent := {
  current_mode : mode;
  interaction_history : list interaction;
  n_current_dimension : option dimension_info;
  dimension_guidance : option guidance
}.

Record system_state := {
  st_status : status;
  current_dimension : option nat;
  interactions : list interaction;
  user_responses : list user_response;
  dimension_scores : list (nat * scoring_result)
}.

Record work_state := {
  ws_dimension_info : option dimension_info;
  ws_guidance : option guidance;
  interaction_count : nat;
  diagnostic_results : list diagnostic_result;
  ready_for_scoring : bool
}.

(** A [CCTDIAssessmentSystem]. *)
Record system := {
  director : director_agent;
  navigator : navigator_agent;
  user_id : option text;
  user_name : option text;
  state : system_state;
  current_work_state : work_state
}.

(** A session object together with the world it runs in. *)
Record machine := {
  self : system;
  outside : world
}.

(** What [process_user_response] returns. *)
Inductive response :=
| RError (msg : text)
| RContinue (next_question : option text) (interaction_mode : mode)
    (count : nat) (dim : text)
| RDimensionCompleted (previous : text * json * json) (new_name : text)
    (new_guidance first_question : option text) (progress : nat)
| RCompleted (report : final_report).

(** *** Field updates *)

Definition with_director (f : director_agent -> director_agent) (s : system) :=
  {| director := f (director s); navigator := navigator s;
     user_id := user_id s; user_name := user_name s; state := state s;
     current_work_state := current_work_state s |}.
Definition with_navigator (f : navigator_agent -> navigator_agent) (s : system) :=
  {| director := director s; navigator := f (navigator s);
     user_id := user_id s; user_name := user_name s; state := state s;
     current_work_state := current_work_state s |}.
Definition with_state (f : system_state -> system_state) (s : system) :=
  {| director := director s; navigator := navigator s;
     user_id := user_id s; user_name := user_name s; state := f (state s);
     current_work_state := current_work_state s |}.
Definition with_work (f : work_state -> work_state) (s : system) :=
  {| director := director s; navigator := navigator s;
     user_id := user_id s; user_name := user_name s; state := state s;
     current_work_state := f (current_work_state s) |}.

Definition set_status (v : status) (t : system_state) :=
  {| st_status := v; current_dimension := current_dimension t;
     interactions := interactions t; user_responses := user_responses t;
     dimension_scores := dimension_scores t |}.
Definition set_current_dimension (v : option nat) (t : system_state) :=
  {| st_status := st_status t; current_dimension := v;
     interactions := interactions t; user_responses := user_responses t;
     dimension_scores := dimension_scores t |}.
Definition set_interactions (v : list interaction) (t : system_state) :=
  {| st_status := st_status t; current_dimension := current_dimension t;
     interactions := v; user_responses := user_responses t;
     dimension_scores := dimension_scores t |}.
Definition set_user_responses (v : list user_response) (t : system_state) :=
  {| st_status := st_status t; current_dimension := current_dimension t;
     interactions := interactions t; user_responses := v;
     dimension_scores := dimension_scores t |}.
Definition set_dimension_scores (v : list (nat * scoring_result))
    (t : system_state) :=
  {| st_status := st_status t; current_dimension := current_dimension t;
     interactions := interactions t; user_responses := user_responses t;
     dimension_scores := v |}.

Definition set_ws_dimension_info (v : option dimension_info) (t : work_state) :=
  {| ws_dimension_info := v; ws_guidance := ws_guidance t;
     interaction_count := interaction_count t;
     diagnostic_results := diagnostic_results t;
     ready_for_scoring := ready_for_scoring t |}.
Definition set_ws_guidance (v : option guidance) (t : work_state) :=
  {| ws_dimension_info := ws_dimension_info t; ws_guidance := v;
     interaction_count := interaction_count t;
     diagnostic_results := diagnostic_results t;
     ready_for_scoring := ready_for_scoring t |}.
Definition set_interaction_count (v : nat) (t : work_state) :=
  {| ws_dimension_info := ws_dimension_info t; ws_guidance := ws_guidance t;
     interaction_count := v;
     diagnostic_results := diagnostic_results t;
     ready_for_scoring := ready_for_scoring t |}.
Definition set_diagnostic_results (v : list diagnostic_result) (t : work_state) :=
  {| ws_dimension_info := ws_dimension_info t; ws_guidance := ws_guidance t;
     interaction_count := interaction_count t;
     diagnostic_results := v;
     ready_for_scoring := ready_for_scoring t |}.

Definition in_world {A} (m : M world A) : M machine A :=
  fun x =>
    let (o, w) := m (outside x) in
    (o, {| self := self x; outside := w |}).
Definition update (f : system -> system) : M machine unit :=
  modify (fun x => {| self := f (self x); outside := outside x |}).
Definition read {A} (f : system -> A) : M machine A :=
  fun x => (Ret (f (self x)), x).
Definition this : M machine system := fun x => (Ret (self x), x).

(** ** The agents and the session orchestrator *)

Section Run.

(** The completion service: the answer to the n-th request. *)
Variable client : nat -> completion.
(** [json.loads] on a string; [Raise JSONDecodeError] is the failure
    that the agents catch. *)
Variable json_loads : text -> outcome json.

(** [json.loads(cleaned)]: a [None] argument is a [TypeError]. *)
Definition loads (cleaned : option text) : outcome json :=
  match cleaned with
  | None => Raise TypeError
  | Some t => json_loads t
  end.

(** *** [BaseAgent._call_llm]

    [for attempt in range(max_retries)], with [remaining] iterations
    left; [attempt = max_retries - remaining]. *)
Fixpoint call_attempts (max_retries remaining : nat)
    (last_error : option error) : M world (option text) :=
  match remaining with
  | 0 => ret (Some (error_msg max_retries last_error))
  | S k => fun w =>
    let attempt := max_retries - remaining in
    match client (requests w) with
    | Content c => (Ret c, count_request w)
    | Failure e =>
      let w1 := count_request w in
      let w2 := if attempt <? max_retries - 1
                then sleep (2 ^ attempt) w1 else w1 in
      call_attempts max_retries k (Some e) w2
    end
  end.

Definition _call_llm (max_retries : nat) : M world (option text) :=
  call_attempts max_retries max_retries None.

(** *** [ScenarioDirectorAgent] *)

Definition cctdi_dimensions (d : nat) : option text :=
  match d with
  | 1 => Some (utf8 "寻找真理")
  | 2 => Some (utf8 "开放思想")
  | 3 => Some (utf8 "分析能力")
  | 4 => Some (utf8 "系统化能力")
  | 5 => Some (utf8 "批判性思维自信")
  | 6 => Some (utf8 "求知欲")
  | 7 => Some (utf8 "认知成熟度")
  | _ => None
  end.

Definition _get_current_dimension_info : M machine dimension_info :=
  d <- read (fun s => d_current_dimension (director s));;
  name <- require KeyError (cctdi_dimensions d);;
  ret {| dimension_id := d; dimension_name := name |}.

Definition director_start_assessment : M machine (nat * dimension_info) :=
  update (with_director (fun _ =>
    {| d_current_dimension := 1; dimension_progress := ∅ |}));;;
  info <- _get_current_dimension_info;;
  ret (1, info).

Definition generate_dimension_guidance : M machine guidance :=
  d <- read (fun s => d_current_dimension (director s));;
  name <- require KeyError (cctdi_dimensions d);;
  g <- in_world (_call_llm 3);;
  ret {| g_dimension_id := d; g_dimension_name := name; g_guidance := g |}.

Inductive advance_result :=
| Advanced (current : nat) (info : dimension_info)
| AllCompleted.

Definition advance_to_next_dimension (current_score : json)
    : M machine advance_result :=
  update (with_director (fun d =>
    {| d_current_dimension := d_current_dimension d;
       dimension_progress :=
         <[d_current_dimension d := current_score]> (dimension_progress d) |}));;;
  d <- read (fun s => d_current_dimension (director s));;
  if d <? 7 then
    update (with_director (fun a =>
      {| d_current_dimension := d_current_dimension a + 1;
         dimension_progress := dimension_progress a |}));;;
    info <- _get_current_dimension_info;;
    ret (Advanced (d + 1) info)
  else ret AllCompleted.

(** *** [AdaptiveNavigatorAgent] *)

Definition set_dimension_context (info : dimension_info) (g : guidance)
    : M machine unit :=
  update (with_navigator (fun n =>
    {| current_mode := current_mode n;
       interaction_history := interaction_history n;
       n_current_dimension := Some info;
       dimension_guidance := Some g |})).

Definition hedges : list text :=
  [utf8 "不知道"; utf8 "不确定"; utf8 "不会"; utf8 "难"].

Definition select_interaction_mode (responses : list user_response)
    (count : nat) : mode :=
  if count =? 0 then Normal
  else match last responses with
       | Some r =>
         let last_response := content r in
         if (length last_response <? 20)
            || existsb (fun word => contains word last_response) hedges
         then Encourage
         else if 100 <? length last_response then Probe
         else Normal
       | None => Normal
       end.

Definition generate_question (responses : list user_response) (count : nat)
    : M machine interaction :=
  update (with_navigator (fun n =>
    {| current_mode := select_interaction_mode responses count;
       interaction_history := interaction_history n;
       n_current_dimension := n_current_dimension n;
       dimension_guidance := dimension_guidance n |}));;;
  n <- read navigator;;
  info <- require AttributeError (n_current_dimension n);;
  _ <- require AttributeError (dimension_guidance n);;
  question <- in_world (_call_llm 3);;
  let interaction_data :=
    {| i_interaction_count := count; i_mode := current_mode n;
       i_question := question; i_dimension := dimension_name info |} in
  update (with_navigator (fun n =>
    {| current_mode := current_mode n;
       interaction_history := interaction_history n ++ [interaction_data];
       n_current_dimension := n_current_dimension n;
       dimension_guidance := dimension_guidance n |}));;;
  ret interaction_data.

(** *** [DiagnosticAgent.analyze_interaction_sufficiency] *)

Definition forced_score : diagnostic_result :=
  {| sufficient := JBool true;
     reason := JStr (utf8 "已达到最大交互轮次(5轮)，必须进行评分");
     recommendation := JStr (utf8 "score");
     confidence := JFloat float_1_0;
     analyzed_interactions := None; raw_analysis := None |}.

Definition forced_continue : diagnostic_result :=
  {| sufficient := JBool false;
     reason := JStr (utf8 "交互轮次不足，需要至少3轮交互");
     recommendation := JStr (utf8 "continue");
     confidence := JFloat float_0_9;
     analyzed_interactions := None; raw_analysis := None |}.

Definition diagnostic_fallback (n : nat) (analysis_result : option text)
    : diagnostic_result :=
  {| sufficient := JBool (5 <=? n);
     reason := JStr (utf8 "JSON解析失败，使用默认判断逻辑");
     recommendation :=
       JStr (if 5 <=? n then utf8 "score" else utf8 "continue");
     confidence := JFloat float_0_5;
     analyzed_interactions := Some n;
     raw_analysis := Some analysis_result |}.

Definition diagnostic_fields : list text :=
  [utf8 "sufficient"; utf8 "reason"; utf8 "recommendation";
   utf8 "confidence"].

(** The body of [try:] for a decoded value: storing [timestamp] into
    anything but a dict is a [TypeError]; [None] stands for a missing
    required field.  The fields read below are present when the check
    has passed. *)
Definition diagnostic_of (n : nat) (result : json)
    : outcome (option diagnostic_result) :=
  match result with
  | JObj o =>
    match all_in diagnostic_fields result with
    | Ret true =>
      Ret (Some {| sufficient := default JNull (obj_get (utf8 "sufficient") o);
                   reason := default JNull (obj_get (utf8 "reason") o);
                   recommendation :=
                     default JNull (obj_get (utf8 "recommendation") o);
                   confidence := default JNull (obj_get (utf8 "confidence") o);
                   analyzed_interactions := Some n;
                   raw_analysis := None |})
    | Ret false => Ret None
    | Raise e => Raise e
    | Beyond => Beyond
    end
  | _ => Raise TypeError
  end.

(** [for attempt in range(2)] with [remaining] iterations left;
    [analysis_result] is the text of the last attempt. *)
Fixpoint diagnostic_attempts (remaining n : nat)
    (analysis_result : option text) : M world diagnostic_result :=
  match remaining with
  | 0 => ret (diagnostic_fallback n analysis_result)
  | S k =>
    analysis_result <- _call_llm 2;;
    let cleaned_result := _clean_json_response analysis_result in
    match loads cleaned_result with
    | Ret result =>
      r <- lift_outcome (diagnostic_of n result);;
      match r with
      | Some d => ret d
      | None => diagnostic_attempts k n analysis_result
      end
    | Raise JSONDecodeError => diagnostic_attempts k n analysis_result
    | Raise e => raise e
    | Beyond => beyond
    end
  end.

Definition analyze_interaction_sufficiency (info : dimension_info)
    (guidance_info : option guidance) (interactions : list interaction)
    (responses : list user_response) : M world diagnostic_result :=
  if 5 <=? length interactions then ret forced_score
  else if length interactions <? 3 then ret forced_continue
  else
    _ <- require AttributeError guidance_info;;
    diagnostic_attempts 2 (length interactions) None.

(** *** [ScoringAgent.score_dimension] *)

Definition scoring_fields : list text :=
  [utf8 "score"; utf8 "level"; utf8 "reasoning"; utf8 "confidence"].

(** [if score < 10: score = 10 elif score > 60: score = 60]. *)
Definition clamp_score (v : json) : outcome json :=
  match py_lt_int v 10 with
  | Ret true => Ret (JInt 10)
  | Ret false =>
    match py_gt_int v 60 with
    | Ret true => Ret (JInt 60)
    | Ret false => Ret v
    | Raise e => Raise e
    | Beyond => Beyond
    end
  | Raise e => Raise e
  | Beyond => Beyond
  end.

(** The body of [try:] for a decoded value; [None] stands for
    [continue].  A list or a string that passes the membership test has
    no [get]. *)
Definition scoring_of (info : dimension_info) (n : nat) (result : json)
    : outcome (option scoring_result) :=
  match all_in scoring_fields result with
  | Ret true =>
    match result with
    | JObj o =>
      match clamp_score (default (JInt 35) (obj_get (utf8 "score") o)) with
      | Ret v =>
        Ret (Some {| score := v;
                     sr_level := default JNull (obj_get (utf8 "level") o);
                     reasoning := default JNull (obj_get (utf8 "reasoning") o);
                     sr_confidence :=
                       default JNull (obj_get (utf8 "confidence") o);
                     dimension := dimension_name info;
                     sr_dimension_id := dimension_id info;
                     interactions_analyzed := n;
                     raw_result := None |})
      | Raise e => Raise e
      | Beyond => Beyond
      end
    | _ => Raise AttributeError
    end
  | Ret false => Ret None
  | Raise e => Raise e
  | Beyond => Beyond
  end.

Definition scoring_fallback (info : dimension_info) (n : nat)
    (raw : option text) : scoring_result :=
  {| score := JInt 43;
     sr_level := JStr (utf8 "一般");
     reasoning := JStr (utf8 "JSON解析失败，基于交互轮次(" ++ decimal n
                          ++ utf8 ")给出默认评分");
     sr_confidence := JFloat float_0_3;
     dimension := dimension_name info;
     sr_dimension_id := dimension_id info;
     interactions_analyzed := n;
     raw_result := Some raw |}.

(** [for attempt in range(2)] with [remaining] iterations left; [raw]
    is the text of the last attempt, the source's [scoring_result]. *)
Fixpoint scoring_attempts (remaining : nat) (info : dimension_info)
    (n : nat) (raw : option text) : M world scoring_result :=
  match remaining with
  | 0 => ret (scoring_fallback info n raw)
  | S k =>
    raw <- _call_llm 2;;
    let cleaned_result := _clean_json_response raw in
    match loads cleaned_result with
    | Ret result =>
      r <- lift_outcome (scoring_of info n result);;
      match r with
      | Some s => ret s
      | None => scoring_attempts k info n raw
      end
    | Raise JSONDecodeError => scoring_attempts k info n raw
    | Raise e => raise e
    | Beyond => beyond
    end
  end.

Definition score_dimension (info : dimension_info)
    (guidance_info : option guidance) (interactions : list interaction)
    (responses : list user_response) (diagnostic_analysis : diagnostic_result)
    : M world scoring_result :=
  _ <- require AttributeError guidance_info;;
  scoring_attempts 2 info (length interactions) None.


(** *** [CCTDIAssessmentSystem] *)

(** [not x] for [user_id] and [user_name]. *)
Definition falsy (x : option text) : bool :=
  match x with
  | None | Some [] => true
  | Some (_ :: _) => false
  end.

(** The region under [_USER_SCORES_LOCK]: [os.path.exists], then
    [open(score_file, 'a')], the header when the file was absent, and
    the row. *)
Definition append_row (row : ledger_line) (l : option (list ledger_line))
    : option (list ledger_line) :=
  let file_exists := bool_decide (is_Some l) in
  Some (default [] l ++ (if file_exists then [] else [Header]) ++ [row]).

(** [dimension_scores.get(dim_id, {}).get("score", 0)]. *)
Definition score_of (scores : list (nat * scoring_result)) (dim_id : nat)
    : json :=
  match dict_get dim_id scores with
  | Some r => score r
  | None => JInt 0
  end.

Definition dim_scores (scores : list (nat * scoring_result)) : list json :=
  map (score_of scores) (seq 1 7).

Definition _save_user_score_summary (total : number) : M machine unit :=
  s <- this;;
  if falsy (user_id s) || falsy (user_name s) then ret tt
  else
    let row_data :=
      Row (default [] (user_id s)) (default [] (user_name s))
        (dim_scores (dimension_scores (state s))) total in
    in_world (modify (fun w => set_ledger (append_row row_data (ledger w)) w)).

(** [sum(result["score"] for result in ...values())]: from the start
    value 0, in the order of the dict, one [+] for each score.  A score
    that is a [float] is added as a [float] and every later sum is a
    [float]; a [bool] counts as an [int]; any other value raises.  (This
    is the sum of CPython up to 3.11.  From 3.12 on [sum] carries a
    correction term through its [float] additions, which can change the
    last binary digit of a sum whose partial sums are inexact.) *)
Definition py_add (acc : outcome number) (v : json) : outcome number :=
  match acc with
  | Ret a =>
    match v with
    | JInt z => number_add a (PyInt z)
    | JBool b => number_add a (PyInt (Z.b2z b))
    | JFloat f => number_add a (PyFloat f)
    | _ => Raise TypeError
    end
  | other => other
  end.

Definition sum_scores (scores : list (nat * scoring_result))
    : outcome number :=
  foldl py_add (Ret (PyInt 0)) (map (fun kv => score kv.2) scores).

(** The [if]/[elif] chain on an [int] total. *)
Definition banding (total : Z) : level :=
  if (350 <=? total)%Z then Excellent
  else if (280 <=? total)%Z then Good
  else if (210 <=? total)%Z then Average
  else if (140 <=? total)%Z then Poor
  else VeryPoor.

(** The same chain on a total of either kind; a NaN total fails every
    test and ends in the last branch. *)
Definition overall_level_of (total : number) : level :=
  match total with
  | PyInt z => banding z
  | PyFloat x =>
    if float_ge_int x 350 then Excellent
    else if float_ge_int x 280 then Good
    else if float_ge_int x 210 then Average
    else if float_ge_int x 140 then Poor
    else VeryPoor
  end.

Definition report_of (scores : list (nat * scoring_result)) (total : number)
    (average : pyfloat) (final : scoring_result) : final_report :=
  {| total_score := total;
     average_score := round_1 average;
     overall_level := overall_level_of total;
     fr_dimension_scores := scores;
     final_dimension_result :=
       (dimension final, score final, sr_level final) |}.

Definition _complete_assessment (final_score_result : scoring_result)
    : M machine response :=
  update (with_state (set_status Completed));;;
  scores <- read (fun s => dimension_scores (state s));;
  total <- lift_outcome (sum_scores scores);;
  average <- lift_outcome (over_7 total);;
  let final_report := report_of scores total average final_score_result in
  _save_user_score_summary total;;;
  ret (RCompleted final_report).

Definition _advance_to_next_dimension (current : nat) (info : dimension_info)
    (previous_score_result : scoring_result) : M machine response :=
  update (with_state (set_current_dimension (Some current)));;;
  update (with_work (fun _ =>
    {| ws_dimension_info := Some info; ws_guidance := None;
       interaction_count := 0; diagnostic_results := [];
       ready_for_scoring := false |}));;;
  update (with_state (set_interactions []));;;
  update (with_state (set_user_responses []));;;
  g <- generate_dimension_guidance;;
  update (with_work (set_ws_guidance (Some g)));;;
  set_dimension_context info g;;;
  first_question <- generate_question [] 0;;
  update (with_state (fun t =>
    set_interactions (interactions t ++ [first_question]) t));;;
  update (with_work (set_interaction_count 1));;;
  ret (RDimensionCompleted
         (dimension previous_score_result, score previous_score_result,
          sr_level previous_score_result)
         (g_dimension_name g) (g_guidance g) (i_question first_question)
         current).

Definition _score_current_dimension (diagnostic : diagnostic_result)
    : M machine response :=
  s <- this;;
  info <- require TypeError (ws_dimension_info (current_work_state s));;
  scoring <- in_world
    (score_dimension info (ws_guidance (current_work_state s))
       (interactions (state s)) (user_responses (state s)) diagnostic);;
  update (with_state (fun t =>
    set_dimension_scores
      (dict_set (dimension_id info) scoring (dimension_scores t)) t));;;
  adv <- advance_to_next_dimension (score scoring);;
  match adv with
  | AllCompleted => _complete_assessment scoring
  | Advanced current new_info =>
    _advance_to_next_dimension current new_info scoring
  end.

Definition new_system (uid uname : option text) : system :=
  {| director := {| d_current_dimension := 1; dimension_progress := ∅ |};
     navigator := {| current_mode := Normal; interaction_history := [];
                     n_current_dimension := None;
                     dimension_guidance := None |};
     user_id := uid; user_name := uname;
     state := {| st_status := Initialized; current_dimension := None;
                 interactions := []; user_responses := [];
                 dimension_scores := [] |};
     current_work_state :=
       {| ws_dimension_info := None; ws_guidance := None;
          interaction_count := 0; diagnostic_results := [];
          ready_for_scoring := false |} |}.

(** Returns the first question. *)
Definition start_assessment : M machine (option text) :=
  r <- director_start_assessment;;
  let (current, info) := r : nat * dimension_info in
  update (with_state (set_status Running));;;
  update (with_state (set_current_dimension (Some current)));;;
  g <- generate_dimension_guidance;;
  update (with_work (set_ws_dimension_info (Some info)));;;
  update (with_work (set_ws_guidance (Some g)));;;
  set_dimension_context info g;;;
  first_question <- generate_question [] 0;;
  update (with_state (fun t =>
    set_interactions (interactions t ++ [first_question]) t));;;
  update (with_work (set_interaction_count 1));;;
  ret (i_question first_question).

Definition status_eqb (a b : status) : bool :=
  match a, b with
  | Initialized, Initialized | Running, Running | Completed, Completed => true
  | _, _ => false
  end.

Definition process_user_response (user_input : text) : M machine response :=
  s <- this;;
  if negb (status_eqb (st_status (state s)) Running)
  then ret (RError (utf8 "评估未开始或已结束"))
  else
    let recorded :=
      {| content := user_input;
         interaction_id := length (user_responses (state s)) |} in
    update (with_state (fun t =>
      set_user_responses (user_responses t ++ [recorded]) t));;;
    s <- this;;
    _ <- require IndexError (last (interactions (state s)));;
    info <- require TypeError (ws_dimension_info (current_work_state s));;
    let continue_dimension : M machine response :=
      s <- this;;
      next_question <- generate_question (user_responses (state s))
                         (interaction_count (current_work_state s));;
      update (with_state (fun t =>
        set_interactions (interactions t ++ [next_question]) t));;;
      update (with_work (fun t =>
        set_interaction_count (interaction_count t + 1) t));;;
      s <- this;;
      ret (RContinue (i_question next_question) (i_mode next_question)
             (interaction_count (current_work_state s))
             (dimension_name info)) in
    if 3 <=? length (user_responses (state s)) then
      diagnostic <- in_world
        (analyze_interaction_sufficiency info
           (ws_guidance (current_work_state s))
           (interactions (state s)) (user_responses (state s)));;
      update (with_work (fun t =>
        set_diagnostic_results (diagnostic_results t ++ [diagnostic]) t));;;
      lift_outcome (py_format_2f (confidence diagnostic));;;
      if truthy (sufficient diagnostic)
         && is_str (utf8 "score") (recommendation diagnostic)
      then _score_current_dimension diagnostic
      else continue_dimension
    else continue_dimension.

(** A fabricated diagnostic result. *)
Definition force_score_current_dimension : M machine response :=
  s <- this;;
  if length (user_responses (state s)) =? 0
  then ret (RError (utf8 "没有用户回应，无法评分"))
  else _score_current_dimension
         {| sufficient := JBool true; reason := JStr (utf8 "强制评分");
            recommendation := JStr (utf8 "score");
            confidence := JFloat float_0_5;
            analyzed_interactions := None; raw_analysis := None |}.

(** The loop of a driver ([VirtualAssessmentSimulator.run], the command
    line): one response for each question.  The result is the session
    after the last answer, [None] when a call did not return: the
    drivers answer no further question of that session. *)
Fixpoint feed (answers : list text) (x : machine) : option machine :=
  match answers with
  | [] => Some x
  | answer :: rest =>
    match process_user_response answer x with
    | (Ret _, x') => feed rest x'
    | (_, _) => None
    end
  end.

(** A fresh session after [start_assessment]. *)
Definition started (uid uname : option text) (w : world) : machine :=
  snd (start_assessment {| self := new_system uid uname; outside := w |}).

End Run.

Local Open Scope N_scope.

(** ** Transcript text: [ConversationCSVManager._clean_content] *)

Definition space : char := 32.
Definition carriage_return : char := 13.

(** [s.replace(a, b)] for strings [a] and [b] of one character. *)
Definition replace_char (a b : char) (s : text) : text :=
  map (fun c => if c =? a then b else c) s.

Definition cons_word (w : text) (ws : list text) : list text :=
  match w with
  | [] => ws
  | _ :: _ => w :: ws
  end.

(** The characters before the first blank of [s], and the words after
    it. *)
Fixpoint split_blank (s : text) : text * list text :=
  match s with
  | [] => ([], [])
  | c :: r =>
    let (w, ws) := split_blank r in
    if isspace c then ([], cons_word w ws) else (c :: w, ws)
  end.

(** [s.split()]: the maximal runs of characters that are not blank. *)
Definition py_split (s : text) : list text :=
  let (w, ws) := split_blank s in cons_word w ws.

(** [sep.join(words)]. *)
Fixpoint join (sep : text) (words : list text) : text :=
  match words with
  | [] => []
  | [w] => w
  | w :: rest => w ++ sep ++ join sep rest
  end.

Definition clean_text (s : text) : text :=
  let cleaned := replace_char carriage_return space
                   (replace_char newline space s) in
  join [space] (py_split cleaned).

Local Close Scope N_scope.

(** The argument is whatever the caller has: a question may be [None],
    the reasoning of a scoring result is any JSON value.  A value that is
    not a string has no [replace]. *)
Definition _clean_content (content : json) : outcome text :=
  if negb (truthy content) then Ret []
  else match content with
       | JStr s => Ret (clean_text s)
       | _ => Raise AttributeError
       end.

(** A word of [split]: not empty, no blank. *)
Definition word (w : text) : Prop :=
  w <> [] /\ Forall (fun c => isspace c = false) w.

Local Open Scope N_scope.

(** ** Persona files: [auto_simu_concurrent.py] *)

Definition slash : char := 47.
Definition dot : char := 46.
Definition fullwidth_colon : char := 65306.

(** [s.rfind(c)] for a string [c] of one character: the last index of
    [c], -1 when there is none. *)
Fixpoint rfind (c : char) (s : text) : Z :=
  match s with
  | [] => (-1)%Z
  | a :: r =>
    if (rfind c r =? -1)%Z then (if a =? c then 0%Z else (-1)%Z)
    else (rfind c r + 1)%Z
  end.

(** [os.path.basename] of [posixpath]: [p[p.rfind('/') + 1:]]. *)
Definition basename (p : text) : text :=
  drop (Z.to_nat (rfind slash p + 1)) p.

(** [os.path.splitext] of [posixpath]: the extension starts at the last
    dot, when that dot comes after the last slash and after a character
    of the file name that is not a dot. *)
Definition splitext (p : text) : text * text :=
  let sepIndex := rfind slash p in
  let dotIndex := rfind dot p in
  if (sepIndex <? dotIndex)%Z then
    let name := drop (Z.to_nat (sepIndex + 1)) (take (Z.to_nat dotIndex) p) in
    if forallb (fun c => c =? dot) name then (p, [])
    else (take (Z.to_nat dotIndex) p, drop (Z.to_nat dotIndex) p)
  else (p, []).

(** [s.split(sep)] for a separator of one character: one part more than
    there are separators. *)
Fixpoint split_on (sep : char) (s : text) : list text :=
  match s with
  | [] => [[]]
  | c :: r =>
    if c =? sep then [] :: split_on sep r
    else match split_on sep r with
         | w :: ws => (c :: w) :: ws
         | [] => [[c]]
         end
  end.

Local Close Scope N_scope.

(** *** [VirtualUser._extract_name] *)

Definition labelled (line : text) : bool :=
  contains (utf8 "姓名") line || contains (utf8 "名字") line.

(** [for line in lines]: the first line with a label and a full-width
    colon decides; [name_part.split()[0]] needs a word. *)
Fixpoint name_of_lines (lines : list text) : outcome text :=
  match lines with
  | [] => Ret (utf8 "虚拟用户")
  | line :: rest =>
    if labelled line then
      match split_on fullwidth_colon line with
      | _ :: part :: _ =>
        let name_part := strip_with isspace part in
        match py_split name_part with
        | name :: _ => Ret name
        | [] => Raise IndexError
        end
      | _ => name_of_lines rest
      end
    else name_of_lines rest
  end.

Definition _extract_name (persona_content : text) : outcome text :=
  name_of_lines (split_on newline persona_content).

(** *** [SimulationRunner._extract_user_info] *)

Section Names.

(** [str.isdigit] for one character. *)
Variable isdigit : char -> bool.

(** The loop over [name_without_ext]: the digits before the first
    character that is not one, and the text from that character on. *)
Fixpoint split_digits (s : text) : text * text :=
  match s with
  | [] => ([], [])
  | c :: r =>
    if isdigit c then
      let (user_id, user_name) := split_digits r in (c :: user_id, user_name)
    else ([], s)
  end.

Definition _extract_user_info (persona_file_path : text) : text * text :=
  let filename := basename persona_file_path in
  let name_without_ext := (splitext filename).1 in
  let (user_id, user_name) := split_digits name_without_ext in
  (if bool_decide (user_id = []) then utf8 "0" else user_id,
   if bool_decide (user_name = []) then utf8 "未知用户" else user_name).

(** The session that [SimulationRunner.__init__] creates. *)
Definition runner_system (persona_file_path : text) : system :=
  let (user_id, user_name) := _extract_user_info persona_file_path in
  new_system (Some user_id) (Some user_name).

End Names.

(** *** [CCTDIAssessmentSystem._generate_session_id]

    [now] is the text of [datetime.now().strftime('%Y%m%d_%H%M%S')]. *)
Definition _generate_session_id (now : text) (s : system) : text :=
  if negb (falsy (user_id s)) && negb (falsy (user_name s))
  then default [] (user_id s) ++ default [] (user_name s)
  else utf8 "cctdi_session_" ++ now.

(** ** Predicates of the statements *)

(** No character that [p] holds of at either end. *)
Definition ends_ok (p : char -> bool) (s : text) : Prop :=
  (forall c, head s = Some c -> p c = false)
  /\ (forall c, last s = Some c -> p c = false).

(** A decoded attempt that the agents discard: the text is not JSON, or
    it is an object without one of the required fields. *)
Definition structural_failure (fields : list text) (decoded : outcome json)
    : bool :=
  match decoded with
  | Raise JSONDecodeError => true
  | Ret (JObj o) =>
    match all_in fields (JObj o) with
    | Ret false => true
    | _ => false
    end
  | _ => false
  end.

(** The waits of the attempts that fail when [remaining] attempts are left
    out of [max_retries]: 2^i after attempt i, none after the last. *)
Definition backoff (max_retries remaining : nat) : list nat :=
  map (fun i => 2 ^ i) (seq (max_retries - remaining) (remaining - 1)).

(** What the clamp lets through. *)
Definition accepted (v : json) : Prop :=
  match v with
  | JInt z => (10 <= z <= 60)%Z
  | JFloat (FFinite q) => (10 <= q <= 60)%Q
  | JFloat FNaN => True
  | _ => False
  end.

Definition scores_ok (scores : list (nat * scoring_result)) : Prop :=
  Forall (fun kv => accepted (score kv.2)
                    /\ 3 <= interactions_analyzed kv.2 <= 5) scores.

(** The scores of a report, in the order in which [sum] adds them. *)
Definition scores_of (report : final_report) : list json :=
  map (fun kv => score kv.2) (fr_dimension_scores report).


(** A session in dimension [d] with a question pending. *)
Record running_inv (s : system) (d : nat) : Prop := {
  inv_status : st_status (state s) = Running;
  inv_director : d_current_dimension (director s) = d;
  inv_range : 1 <= d <= 7;
  inv_info : exists info,
    ws_dimension_info (current_work_state s) = Some info
    /\ dimension_id info = d;
  inv_guidance : is_Some (ws_guidance (current_work_state s));
  inv_nav_dim : is_Some (n_current_dimension (navigator s));
  inv_nav_guidance : is_Some (dimension_guidance (navigator s));
  inv_pending :
    length (interactions (state s)) = length (user_responses (state s)) + 1;
  inv_cap : length (interactions (state s)) <= 5;
  inv_keys : map fst (dimension_scores (state s)) = seq 1 (d - 1);
  inv_scores : scores_ok (dimension_scores (state s))
}.

(** The sessions that a driver can be in between two answers. *)
Inductive alive (x : machine) : Prop :=
| alive_running d : running_inv (self x) d -> alive x
| alive_completed :
    st_status (state (self x)) = Completed ->
    scores_ok (dimension_scores (state (self x))) -> alive x.

(** What a call leaves behind in the scores: nothing, or the result of
    the current dimension, which counts the questions asked so far. *)
Definition scored (x x' : machine) (d : nat) : Prop :=
  dimension_scores (state (self x')) = dimension_scores (state (self x))
  \/ exists r,
       dimension_scores (state (self x'))
       = dimension_scores (state (self x)) ++ [(d, r)]
       /\ accepted (score r)
       /\ 3 <= interactions_analyzed r <= 5
       /\ interactions_analyzed r = length (interactions (state (self x))).

(** The ledger after the summary of a session has been saved. *)
Definition ledger_after (s : system) (total : number)
    (l : option (list ledger_line)) : option (list ledger_line) :=
  if falsy (user_id s) || falsy (user_name s) then l
  else append_row
         (Row (default [] (user_id s)) (default [] (user_name s))
            (dim_scores (dimension_scores (state s))) total) l.

(** The call from [x] to [x'] has completed the session with [report]. *)
Definition completed_with (x x' : machine) (report : final_report) : Prop :=
  st_status (state (self x')) = Completed
  /\ map fst (dimension_scores (state (self x'))) = seq 1 7
  /\ scores_ok (dimension_scores (state (self x')))
  /\ exists final average,
       sum_scores (dimension_scores (state (self x')))
       = Ret (total_score report)
       /\ over_7 (total_score report) = Ret average
       /\ report = report_of (dimension_scores (state (self x')))
                     (total_score report) average final
       /\ ledger (outside x')
          = ledger_after (self x') (total_score report) (ledger (outside x)).

(** ** The files of a session

    [ConversationCSVManager] keeps the transcript of a session in
    [data/conversations/<session id>_对话.csv]; the report of a completed
    session goes to [data/assessments/<session id>_证据_思维.json].  Both
    directories are shared by all sessions and are keyed here by the
    session id.  A row is kept by its columns, without the time stamp;
    the cells that the source formats from several values keep those
    values.  Faults of the file system are left out: the source catches
    them around each write and goes on. *)

(** 角色: 系统, 用户. *)
Inductive role := SystemRole | UserRole.

(** 交互模式: the mode of a question, 评分, 总结. *)
Inductive cell_mode :=
| Asked (m : mode)
| ScoringMode
| SummaryMode.

(** 状态: 进行中, 已完成. *)
Inductive row_status := InProgress | Finished.

(** 内容: a cleaned text, the score line, the summary line. *)
Inductive cell :=
| Cleaned (t : text)
| ScoreCell (score level : json) (reasoning : text)
| SummaryCell (total : number) (average : pyfloat) (overall : level)
    (count : nat).

Record csv_row := {
  c_session_id : text;
  c_dimension_id : option nat;      (* [None]: "-" *)
  c_dimension_name : text;
  c_round : option nat;             (* [None]: "-" *)
  c_role : role;
  c_mode : cell_mode;
  c_content : cell;
  c_status : row_status
}.

Inductive csv_line :=
| CsvHeader
| CsvRow (r : csv_row).

Record files := {
  conversations : gmap text (list csv_line);
  assessments : gmap text final_report
}.

(** A session, the id given to it at construction, and the files. *)
Record desk := {
  on : machine;
  session_id : text;
  disk : files
}.

Definition on_session {A} (m : M machine A) : M desk A :=
  fun k =>
    let (o, x) := m (on k) in
    (o, {| on := x; session_id := session_id k; disk := disk k |}).

Definition with_conversations
    (f : gmap text (list csv_line) -> gmap text (list csv_line)) (k : desk)
    : desk :=
  {| on := on k; session_id := session_id k;
     disk := {| conversations := f (conversations (disk k));
                assessments := assessments (disk k) |} |}.

(** [open(self.csv_file, 'w')] and [writeheader()]. *)
Definition _initialize_csv : M desk unit :=
  modify (fun k => with_conversations <[session_id k := [CsvHeader]]> k).

(** [open(self.csv_file, 'a')] and [writerow(row_data)]. *)
Definition _append_row (row_data : csv_row) : M desk unit :=
  modify (fun k =>
    with_conversations
      (fun c => <[session_id k :=
                    default [] (c !! session_id k) ++ [CsvRow row_data]]> c) k).

Definition py_optional (t : option text) : json :=
  match t with
  | Some s => JStr s
  | None => JNull
  end.

Definition save_question (dimension_id : nat) (dimension_name : text)
    (round_num : nat) (question : option text) (m : mode) : M desk unit :=
  k <- get;;
  content <- lift_outcome (_clean_content (py_optional question));;
  _append_row
    {| c_session_id := session_id k; c_dimension_id := Some dimension_id;
       c_dimension_name := dimension_name; c_round := Some round_num;
       c_role := SystemRole; c_mode := Asked m;
       c_content := Cleaned content; c_status := InProgress |}.

Definition save_user_response (dimension_id : nat) (dimension_name : text)
    (round_num : nat) (response : text) (m : mode) : M desk unit :=
  k <- get;;
  content <- lift_outcome (_clean_content (JStr response));;
  _append_row
    {| c_session_id := session_id k; c_dimension_id := Some dimension_id;
       c_dimension_name := dimension_name; c_round := Some round_num;
       c_role := UserRole; c_mode := Asked m;
       c_content := Cleaned content; c_status := InProgress |}.

(** The reasoning is cleaned while the cell is formatted, before the
    guarded write. *)
Definition save_dimension_score (dimension_id : nat) (dimension_name : text)
    (score level reasoning : json) : M desk unit :=
  k <- get;;
  cleaned <- lift_outcome (_clean_content reasoning);;
  _append_row
    {| c_session_id := session_id k; c_dimension_id := Some dimension_id;
       c_dimension_name := dimension_name; c_round := None;
       c_role := SystemRole; c_mode := ScoringMode;
       c_content := ScoreCell score level cleaned; c_status := Finished |}.

Definition save_final_summary (total_score : number)
    (average_score : pyfloat)
    (overall_level : level) (dimension_count : nat) : M desk unit :=
  k <- get;;
  _append_row
    {| c_session_id := session_id k; c_dimension_id := None;
       c_dimension_name := utf8 "评估完成"; c_round := None;
       c_role := SystemRole; c_mode := SummaryMode;
       c_content := SummaryCell total_score average_score overall_level
                      dimension_count;
       c_status := Finished |}.

(** [open(filename, 'w')] and [json.dump(report, f, ...)]. *)
Definition _save_assessment_report (report : final_report) : M desk unit :=
  modify (fun k =>
    {| on := on k; session_id := session_id k;
       disk := {| conversations := conversations (disk k);
                  assessments :=
                    <[session_id k := report]> (assessments (disk k)) |} |}).

(** [CCTDIAssessmentSystem.__init__]: the session id is fixed, and the
    transcript is created with its header. *)
Definition new_desk (uid uname : option text) (now : text) (w : world)
    (d : files) : desk :=
  let s := new_system uid uname in
  snd (_initialize_csv
         {| on := {| self := s; outside := w |};
            session_id := _generate_session_id now s; disk := d |}).







(** *** The orchestrator with its files

    The methods of [CCTDIAssessmentSystem] once more, with the writes
    to the transcript and to the report in their places. *)

Module Recorded.
Section Run.

Variable client : nat -> completion.
Variable json_loads : text -> outcome json.

Definition _complete_assessment (final_score_result : scoring_result)
    : M desk response :=
  on_session (update (with_state (set_status Completed)));;;
  scores <- on_session (read (fun s => dimension_scores (state s)));;
  total <- lift_outcome (sum_scores scores);;
  average_score <- lift_outcome (over_7 total);;
  let final_report :=
    report_of scores total average_score final_score_result in
  _save_assessment_report final_report;;;
  save_final_summary total average_score (overall_level_of total) 7;;;
  on_session (_save_user_score_summary total);;;
  ret (RCompleted final_report).

Definition _advance_to_next_dimension (current : nat) (info : dimension_info)
    (previous_score_result : scoring_result) : M desk response :=
  on_session (update (with_state (set_current_dimension (Some current))));;;
  on_session (update (with_work (fun _ =>
    {| ws_dimension_info := Some info; ws_guidance := None;
       interaction_count := 0; diagnostic_results := [];
       ready_for_scoring := false |})));;;
  on_session (update (with_state (set_interactions [])));;;
  on_session (update (with_state (set_user_responses [])));;;
  g <- on_session (generate_dimension_guidance client);;
  on_session (update (with_work (set_ws_guidance (Some g))));;;
  on_session (set_dimension_context info g);;;
  first_question <- on_session (generate_question client [] 0);;
  on_session (update (with_state (fun t =>
    set_interactions (interactions t ++ [first_question]) t)));;;
  on_session (update (with_work (set_interaction_count 1)));;;
  save_question (dimension_id info) (g_dimension_name g) 1
    (i_question first_question) (i_mode first_question);;;
  ret (RDimensionCompleted
         (dimension previous_score_result, score previous_score_result,
          sr_level previous_score_result)
         (g_dimension_name g) (g_guidance g) (i_question first_question)
         current).

Definition _score_current_dimension (diagnostic : diagnostic_result)
    : M desk response :=
  s <- on_session this;;
  info <- require TypeError (ws_dimension_info (current_work_state s));;
  scoring <- on_session (in_world
    (score_dimension client json_loads info
       (ws_guidance (current_work_state s))
       (interactions (state s)) (user_responses (state s)) diagnostic));;
  on_session (update (with_state (fun t =>
    set_dimension_scores
      (dict_set (dimension_id info) scoring (dimension_scores t)) t)));;;
  save_dimension_score (dimension_id info) (dimension_name info)
    (score scoring) (sr_level scoring) (reasoning scoring);;;
  adv <- on_session (advance_to_next_dimension (score scoring));;
  match adv with
  | AllCompleted => _complete_assessment scoring
  | Advanced current new_info =>
    _advance_to_next_dimension current new_info scoring
  end.

(** Returns the first question. *)
Definition start_assessment : M desk (option text) :=
  r <- on_session director_start_assessment;;
  let (current, info) := r : nat * dimension_info in
  on_session (update (with_state (set_status Running)));;;
  on_session (update (with_state (set_current_dimension (Some current))));;;
  g <- on_session (generate_dimension_guidance client);;
  on_session (update (with_work (set_ws_dimension_info (Some info))));;;
  on_session (update (with_work (set_ws_guidance (Some g))));;;
  on_session (set_dimension_context info g);;;
  first_question <- on_session (generate_question client [] 0);;
  on_session (update (with_state (fun t =>
    set_interactions (interactions t ++ [first_question]) t)));;;
  on_session (update (with_work (set_interaction_count 1)));;;
  save_question (dimension_id info) (g_dimension_name g) 1
    (i_question first_question) (i_mode first_question);;;
  ret (i_question first_question).

(** The dimension info is read again for each write in the source; no
    statement in between changes it. *)
Definition process_user_response (user_input : text) : M desk response :=
  s <- on_session this;;
  if negb (status_eqb (st_status (state s)) Running)
  then ret (RError (utf8 "评估未开始或已结束"))
  else
    let recorded :=
      {| content := user_input;
         interaction_id := length (user_responses (state s)) |} in
    on_session (update (with_state (fun t =>
      set_user_responses (user_responses t ++ [recorded]) t)));;;
    s <- on_session this;;
    last_interaction <- require IndexError (last (interactions (state s)));;
    info <- require TypeError (ws_dimension_info (current_work_state s));;
    save_user_response (dimension_id info) (dimension_name info)
      (length (user_responses (state s))) user_input
      (i_mode last_interaction);;;
    let continue_dimension : M desk response :=
      s <- on_session this;;
      next_question <- on_session
        (generate_question client (user_responses (state s))
           (interaction_count (current_work_state s)));;
      on_session (update (with_state (fun t =>
        set_interactions (interactions t ++ [next_question]) t)));;;
      on_session (update (with_work (fun t =>
        set_interaction_count (interaction_count t + 1) t)));;;
      s <- on_session this;;
      save_question (dimension_id info) (dimension_name info)
        (interaction_count (current_work_state s))
        (i_question next_question) (i_mode next_question);;;
      ret (RContinue (i_question next_question) (i_mode next_question)
             (interaction_count (current_work_state s))
             (dimension_name info)) in
    if 3 <=? length (user_responses (state s)) then
      diagnostic <- on_session (in_world
        (analyze_interaction_sufficiency client json_loads info
           (ws_guidance (current_work_state s))
           (interactions (state s)) (user_responses (state s))));;
      on_session (update (with_work (fun t =>
        set_diagnostic_results (diagnostic_results t ++ [diagnostic]) t)));;;
      lift_outcome (py_format_2f (confidence diagnostic));;;
      if truthy (sufficient diagnostic)
         && is_str (utf8 "score") (recommendation diagnostic)
      then _score_current_dimension diagnostic
      else continue_dimension
    else continue_dimension.

(** A fabricated diagnostic result; the status is not looked at. *)
Definition force_score_current_dimension : M desk response :=
  s <- on_session this;;
  if length (user_responses (state s)) =? 0
  then ret (RError (utf8 "没有用户回应，无法评分"))
  else _score_current_dimension
         {| sufficient := JBool true; reason := JStr (utf8 "强制评分");
            recommendation := JStr (utf8 "score");
            confidence := JFloat float_0_5;
            analyzed_interactions := None; raw_analysis := None |}.

(** One response for each question, as [feed]. *)
Fixpoint feed (answers : list text) (k : desk) : option desk :=
  match answers with
  | [] => Some k
  | answer :: rest =>
    match process_user_response answer k with
    | (Ret _, k') => feed rest k'
    | (_, _) => None
    end
  end.

(** A fresh session after [start_assessment]. *)
Definition started (uid uname : option text) (now : text) (w : world)
    (d : files) : desk :=
  snd (start_assessment (new_desk uid uname now w d)).

End Run.
End Recorded.

(** The rows of a transcript. *)
Definition question_row (id : text) (d : nat) (name : text) (round_num : nat)
    (question : option text) (m : mode) : csv_row :=
  {| c_session_id := id; c_dimension_id := Some d; c_dimension_name := name;
     c_round := Some round_num; c_role := SystemRole; c_mode := Asked m;
     c_content := Cleaned (clean_text (default [] question));
     c_status := InProgress |}.

Definition response_row (id : text) (d : nat) (name : text) (round_num : nat)
    (response : text) (m : mode) : csv_row :=
  {| c_session_id := id; c_dimension_id := Some d; c_dimension_name := name;
     c_round := Some round_num; c_role := UserRole; c_mode := Asked m;
     c_content := Cleaned (clean_text response); c_status := InProgress |}.

Definition score_row (id : text) (d : nat) (name : text)
    (score level : json) (reasoning : text) : csv_row :=
  {| c_session_id := id; c_dimension_id := Some d; c_dimension_name := name;
     c_round := None; c_role := SystemRole; c_mode := ScoringMode;
     c_content := ScoreCell score level reasoning; c_status := Finished |}.

Definition summary_row (id : text) (total : number) (average : pyfloat)
    : csv_row :=
  {| c_session_id := id; c_dimension_id := None;
     c_dimension_name := utf8 "评估完成"; c_round := None;
     c_role := SystemRole; c_mode := SummaryMode;
     c_content := SummaryCell total average (overall_level_of total) 7;
     c_status := Finished |}.

(** The transcript of [k] has grown by [rows] in [k']; no other
    transcript has changed. *)
Definition appended (k k' : desk) (rows : list csv_row) : Prop :=
  session_id k' = session_id k
  /\ conversations (disk k')
     = <[session_id k :=
           default [] (conversations (disk k) !! session_id k)
           ++ map CsvRow rows]> (conversations (disk k)).

(** [m'] does what [m] does to the session, unless it stops with an
    [AttributeError]. *)
Definition refines {A} (m' : M desk A) (m : M machine A) : Prop :=
  forall k,
    m (on k) = (fst (m' k), on (snd (m' k)))
    \/ fst (m' k) = Raise AttributeError.

(** A statement that only writes files. *)
Definition silent (c : M desk unit) : Prop :=
  forall k,
    on (snd (c k)) = on k
    /\ (fst (c k) = Ret tt \/ fst (c k) = Raise AttributeError).

(** What a row records. *)
Inductive entry :=
| Question (d n : nat)
| Response (d n : nat)
| Score (d : nat)
| Summary
| Other.

Definition entry_of (r : csv_row) : entry :=
  match c_role r, c_mode r, c_dimension_id r, c_round r with
  | SystemRole, Asked _, Some d, Some n => Question d n
  | UserRole, Asked _, Some d, Some n => Response d n
  | SystemRole, ScoringMode, Some d, None => Score d
  | SystemRole, SummaryMode, None, None => Summary
  | _, _, _, _ => Other
  end.

(** The rounds 1 to [n] of dimension [d]. *)
Definition rounds_of (d n : nat) : list entry :=
  flat_map (fun r => [Question d r; Response d r]) (seq 1 n).

(** The dimensions that have a score: their rounds, as many as the
    result counts, and the score. *)
Definition scored_part (scores : list (nat * scoring_result)) : list entry :=
  flat_map (fun kv => rounds_of kv.1 (interactions_analyzed kv.2)
                      ++ [Score kv.1]) scores.

Definition rounds_total (scores : list (nat * scoring_result)) : nat :=
  sum_list (map (fun kv => interactions_analyzed kv.2) scores).

(** The transcript of the session of [k]: the header and [rows]. *)
Definition transcript (k : desk) (rows : list csv_row) : Prop :=
  conversations (disk k) !! session_id k = Some (CsvHeader :: map CsvRow rows)
  /\ Forall (fun r => c_session_id r = session_id k) rows.

(** A recorded session in dimension [d] with a question pending. *)
Record recorded_inv (k : desk) (d : nat) : Prop := {
  ri_running : running_inv (self (on k)) d;
  ri_current : current_dimension (state (self (on k))) = Some d;
  ri_count :
    interaction_count (current_work_state (self (on k)))
    = length (interactions (state (self (on k))));
  ri_info : exists name g,
    cctdi_dimensions d = Some name
    /\ ws_dimension_info (current_work_state (self (on k)))
       = Some {| dimension_id := d; dimension_name := name |}
    /\ n_current_dimension (navigator (self (on k)))
       = Some {| dimension_id := d; dimension_name := name |}
    /\ ws_guidance (current_work_state (self (on k))) = Some g
    /\ dimension_guidance (navigator (self (on k))) = Some g
    /\ g_dimension_id g = d /\ g_dimension_name g = name;
  ri_progress : forall j,
    dimension_progress (director (self (on k))) !! j
    = score <$> dict_get j (dimension_scores (state (self (on k))));
  ri_history : exists earlier,
    interaction_history (navigator (self (on k)))
    = earlier ++ interactions (state (self (on k)))
    /\ length earlier = rounds_total (dimension_scores (state (self (on k))));
  ri_mode :
    i_mode <$> last (interactions (state (self (on k))))
    = Some (current_mode (navigator (self (on k))));
  ri_file : exists rows,
    transcript k rows
    /\ map entry_of rows
       = scored_part (dimension_scores (state (self (on k))))
         ++ rounds_of d (length (user_responses (state (self (on k)))))
         ++ [Question d (length (user_responses (state (self (on k)))) + 1)]
}.

(** A recorded session that is completed. *)
Record recorded_done (k : desk) : Prop := {
  rd_status : st_status (state (self (on k))) = Completed;
  rd_keys : map fst (dimension_scores (state (self (on k)))) = seq 1 7;
  rd_scores : scores_ok (dimension_scores (state (self (on k))));
  rd_current : current_dimension (state (self (on k))) = Some 7;
  rd_director : d_current_dimension (director (self (on k))) = 7;
  rd_info : exists name,
    cctdi_dimensions 7 = Some name
    /\ ws_dimension_info (current_work_state (self (on k)))
       = Some {| dimension_id := 7; dimension_name := name |};
  rd_progress : forall j,
    dimension_progress (director (self (on k))) !! j
    = score <$> dict_get j (dimension_scores (state (self (on k))));
  rd_history :
    length (interaction_history (navigator (self (on k))))
    = rounds_total (dimension_scores (state (self (on k))));
  rd_file : exists rows,
    transcript k rows
    /\ map entry_of rows
       = scored_part (dimension_scores (state (self (on k)))) ++ [Summary];
  rd_report : exists total average final,
    sum_scores (dimension_scores (state (self (on k)))) = Ret total
    /\ over_7 total = Ret average
    /\ assessments (disk k) !! session_id k
       = Some (report_of (dimension_scores (state (self (on k)))) total
                 average final)
}.

(** The recorded sessions that a driver can be in between two answers. *)
Inductive recorded_alive (k : desk) : Prop :=
| recorded_running d : recorded_inv k d -> recorded_alive k
| recorded_completed : recorded_done k -> recorded_alive k.

(** What a call of [process_user_response] on a recorded session in
    dimension [d] with [rows] in its transcript leaves behind; [arow] is
    the row of the response. *)
Definition step_post (k k' : desk) (d : nat) (name : text)
    (rows : list csv_row) (answer : text) (arow : csv_row)
    (o : outcome response) : Prop :=
  let r := length (user_responses (state (self (on k)))) in
  match o with
  | Ret (RContinue q qm c dim) =>
    recorded_inv k' d
    /\ c = r + 2 /\ dim = name
    /\ ledger (outside (on k')) = ledger (outside (on k))
    /\ assessments (disk k') = assessments (disk k)
    /\ dimension_scores (state (self (on k')))
       = dimension_scores (state (self (on k)))
    /\ length (user_responses (state (self (on k')))) = r + 1
    /\ user_responses (state (self (on k')))
       = user_responses (state (self (on k)))
         ++ [{| content := answer; interaction_id := r |}]
    /\ qm = select_interaction_mode (user_responses (state (self (on k'))))
              (r + 1)
    /\ transcript k'
         (rows ++ [arow; question_row (session_id k) d name c q qm])
  | Ret (RDimensionCompleted prev name' g q p) =>
    recorded_inv k' (d + 1)
    /\ p = d + 1 /\ cctdi_dimensions (d + 1) = Some name'
    /\ ledger (outside (on k')) = ledger (outside (on k))
    /\ assessments (disk k') = assessments (disk k)
    /\ exists sr cleaned,
         dimension_scores (state (self (on k')))
         = dimension_scores (state (self (on k))) ++ [(d, sr)]
         /\ accepted (score sr)
         /\ interactions_analyzed sr = r + 1 /\ 3 <= r + 1 <= 5
         /\ prev = (dimension sr, score sr, sr_level sr)
         /\ _clean_content (reasoning sr) = Ret cleaned
         /\ transcript k'
              (rows ++ [arow;
                        score_row (session_id k) d name (score sr)
                          (sr_level sr) cleaned;
                        question_row (session_id k) (d + 1) name' 1 q Normal])
  | Ret (RCompleted report) =>
    d = 7 /\ recorded_done k'
    /\ completed_with (on k) (on k') report
    /\ assessments (disk k')
       = <[session_id k := report]> (assessments (disk k))
    /\ exists sr cleaned average,
         dimension_scores (state (self (on k')))
         = dimension_scores (state (self (on k))) ++ [(d, sr)]
         /\ accepted (score sr)
         /\ interactions_analyzed sr = r + 1 /\ 3 <= r + 1 <= 5
         /\ _clean_content (reasoning sr) = Ret cleaned
         /\ over_7 (total_score report) = Ret average
         /\ transcript k'
              (rows ++ [arow;
                        score_row (session_id k) d name (score sr)
                          (sr_level sr) cleaned;
                        summary_row (session_id k) (total_score report)
                          average])
  | Ret (RError _) => False
  | _ => True
  end.

(** [m] keeps the session id and leaves the files of the other session
    ids as they are. *)
Definition keeps_other_files {A} (m : M desk A) : Prop :=
  forall k,
    session_id (snd (m k)) = session_id k
    /\ forall j, j <> session_id k ->
         conversations (disk (snd (m k))) !! j = conversations (disk k) !! j
         /\ assessments (disk (snd (m k))) !! j = assessments (disk k) !! j.

(** *** [SimulationRunner.run]

    The run of one virtual user in quiet mode, as the batch runner starts
    it.  [generate_response] is the virtual user: its answer to a
    question of a dimension in a round, given the earlier rounds of that
    dimension.  It asks its own model client and returns a text whatever
    that client does.  [fuel] bounds the iterations of the [while] loop;
    [None] is a loop that has not ended within that bound. *)

Inductive run_error :=
| ResultError (msg : text)      (* [result['error']] *)
| Caught (e : exn)              (* [str(e)] of the exception caught *)
| UnknownError.                 (* 未知错误 *)

Inductive run_result :=
| RunSuccess (user_id user_name : text) (total_score : number)
    (average_score : pyfloat) (overall_level : level)
| RunFailure (user_id user_name : text) (error : run_error).

Section Runner.

Variable client : nat -> completion.
Variable json_loads : text -> outcome json.
Variable generate_response :
  option text -> text -> nat -> list (option text * text) -> text.
Variable isdigit : char -> bool.

(** The statements of the loop body up to the call of the session. *)
Definition run_round (current_question : option text) (round_num : nat)
    (current_dimension_history : list (option text * text))
    : M desk (text * response) :=
  s <- on_session this;;
  info <- require TypeError (ws_dimension_info (current_work_state s));;
  let answer :=
    generate_response current_question (dimension_name info) round_num
      current_dimension_history in
  result <- Recorded.process_user_response client json_loads answer;;
  ret (answer, result).

Fixpoint run_loop (user_id user_name : text) (fuel : nat)
    (current_question : option text) (round_num : nat)
    (current_dimension_history : list (option text * text)) (k : desk)
    : option (outcome run_result * desk) :=
  match fuel with
  | 0 => None
  | S fuel =>
    if negb (status_eqb (st_status (state (self (on k)))) Running)
    then Some (Ret (RunFailure user_id user_name UnknownError), k)
    else
      match run_round current_question round_num current_dimension_history k
      with
      | (Ret (answer, RContinue next_question _ _ _), k') =>
        run_loop user_id user_name fuel next_question (round_num + 1)
          (current_dimension_history ++ [(current_question, answer)]) k'
      | (Ret (_, RDimensionCompleted _ _ _ first_question _), k') =>
        run_loop user_id user_name fuel first_question 1 [] k'
      | (Ret (_, RCompleted report), k') =>
        Some (Ret (RunSuccess user_id user_name (total_score report)
                     (average_score report) (overall_level report)), k')
      | (Ret (_, RError msg), k') =>
        Some (Ret (RunFailure user_id user_name (ResultError msg)), k')
      | (Raise e, k') =>
        Some (Ret (RunFailure user_id user_name (Caught e)), k')
      | (Beyond, k') => Some (Beyond, k')
      end
  end.

(** [start_assessment] is called outside the [try]. *)
Definition run (user_id user_name : text) (fuel : nat) (k : desk)
    : option (outcome run_result * desk) :=
  match Recorded.start_assessment client k with
  | (Ret first_question, k') =>
    run_loop user_id user_name fuel first_question 1 [] k'
  | (Raise e, k') => Some (Raise e, k')
  | (Beyond, k') => Some (Beyond, k')
  end.

(** [SimulationRunner(persona_file_path, quiet=True).run()]: the
    constructor takes the identity from the file name and creates the
    session; [generate_response] is the virtual user that it has
    loaded. *)
Definition run_simulation (persona_file_path now : text) (w : world)
    (d : files) (fuel : nat) : option (outcome run_result * desk) :=
  let (user_id, user_name) := _extract_user_info isdigit persona_file_path in
  run user_id user_name fuel
    (new_desk (Some user_id) (Some user_name) now w d).

End Runner.

(** The iterations that a session in dimension [d] can still take. *)
Definition rounds_left (k : desk) (d : nat) : nat :=
  5 * (7 - d) + (5 - length (interactions (state (self (on k))))).

(** [m] issues at most [n] completion requests; [req] reads the request
    counter of the state. *)
Definition spends {S A} (req : S -> nat) (n : nat) (m : M S A) : Prop :=
  forall s, req s <= req (snd (m s)) <= req s + n.

(** The request counters of a session and of a recorded session. *)
Definition machine_requests (x : machine) : nat := requests (outside x).
Definition desk_requests (k : desk) : nat := requests (outside (on k)).

(** ** Concurrent writers of the ledger

    [ConcurrentBatchSimulationRunner] runs sessions on a thread pool; the
    only state they share is the score file, written by
    [_save_user_score_summary].  A writer is that method run by one
    thread; the steps are its statements, the lock is
    [_USER_SCORES_LOCK]. *)

Module Ledger.

Inductive pc :=
| AtGuard                      (* [if not self.user_id or ...: return] *)
| AtAcquire                    (* [with _USER_SCORES_LOCK:] *)
| AtExists                     (* [file_exists = os.path.exists(...)] *)
| AtOpen (file_exists : bool)  (* [open(score_file, 'a')] *)
| AtHeader (file_exists : bool)(* [if not file_exists: writeheader()] *)
| AtRow                        (* [writer.writerow(row_data)] *)
| AtRelease                    (* leaving the [with] blocks *)
| Done.

(** The thread of a session that completes: its identity, the scores
    that go into [row_data], and where it stands. *)
Record writer := {
  w_user_id : option text;
  w_user_name : option text;
  w_dims : list json;
  w_total : number;
  w_pc : pc
}.

Definition row_data (w : writer) : ledger_line :=
  Row (default [] (w_user_id w)) (default [] (w_user_name w))
    (w_dims w) (w_total w).

Record shared := {
  lock : option nat;                   (* the thread holding the lock *)
  file : option (list ledger_line)
}.

Record config := {
  threads : list writer;
  mem : shared
}.

Definition at_pc (p : pc) (w : writer) : writer :=
  {| w_user_id := w_user_id w; w_user_name := w_user_name w;
     w_dims := w_dims w; w_total := w_total w; w_pc := p |}.

Definition has_identity (w : writer) : bool :=
  negb (falsy (w_user_id w) || falsy (w_user_name w)).

(** One statement of thread [i]; [None] when the thread cannot move. *)
Definition thread_step (i : nat) (w : writer) (m : shared)
    : option (writer * shared) :=
  match w_pc w with
  | AtGuard =>
    Some (at_pc (if has_identity w then AtAcquire else Done) w, m)
  | AtAcquire =>
    match lock m with
    | None => Some (at_pc AtExists w, {| lock := Some i; file := file m |})
    | Some _ => None
    end
  | AtExists =>
    Some (at_pc (AtOpen (bool_decide (is_Some (file m)))) w, m)
  | AtOpen file_exists =>
    Some (at_pc (AtHeader file_exists) w,
          {| lock := lock m; file := Some (default [] (file m)) |})
  | AtHeader file_exists =>
    Some (at_pc AtRow w,
          if file_exists then m
          else {| lock := lock m;
                  file := Some (default [] (file m) ++ [Header]) |})
  | AtRow =>
    Some (at_pc AtRelease w,
          {| lock := lock m;
             file := Some (default [] (file m) ++ [row_data w]) |})
  | AtRelease =>
    Some (at_pc Done w, {| lock := None; file := file m |})
  | Done => None
  end.

(** Thread [i] takes its next step. *)
Definition step_thread (i : nat) (c : config) : option config :=
  w ← threads c !! i;
  r ← thread_step i w (mem c);
  Some {| threads := <[i := r.1]> (threads c); mem := r.2 |}.

Inductive step : config -> config -> Prop :=
| step_of i c c' : step_thread i c = Some c' -> step c c'.

(** The writers of a batch before any of them has run, the file absent. *)
Definition initial (ws : list writer) : config :=
  {| threads := map (at_pc AtGuard) ws;
     mem := {| lock := None; file := None |} |}.

Inductive reachable (ws : list writer) : config -> Prop :=
| reach_initial : reachable ws (initial ws)
| reach_step c c' : reachable ws c -> step c c' -> reachable ws c'.

(** A schedule: the threads that move, in order. *)
Fixpoint run (schedule : list nat) (c : config) : option config :=
  match schedule with
  | [] => Some c
  | i :: rest => c' ← step_thread i c; run rest c'
  end.

Definition critical (p : pc) : bool :=
  match p with
  | AtExists | AtOpen _ | AtHeader _ | AtRow | AtRelease => true
  | _ => false
  end.

Definition finished (c : config) : Prop :=
  Forall (fun w => w_pc w = Done) (threads c).

(** The rows owed by a batch: one for each writer with an identity. *)
Definition rows_of (ws : list writer) : list ledger_line :=
  map row_data (filter (fun w => has_identity w = true) ws).

(** The writer of a session that completes with [total]. *)
Definition writer_of (s : system) (total : number) : writer :=
  {| w_user_id := user_id s; w_user_name := user_name s;
     w_dims := dim_scores (dimension_scores (state s)); w_total := total;
     w_pc := AtGuard |}.

Definition is_header (l : ledger_line) : bool :=
  match l with Header => true | Row _ _ _ _ => false end.

Definition headers (lines : list ledger_line) : nat :=
  length (filter (fun l => is_header l = true) lines).

(** *** The invariant of the writers *)

(** A writer whose row is in the file. *)
Definition wrote (w : writer) : bool :=
  has_identity w
  && match w_pc w with AtRelease | Done => true | _ => false end.

Definition written (ths : list writer) : list ledger_line :=
  map row_data (filter (fun w => wrote w = true) ths).

(** The file while no writer is between [open] and the row: absent with
    nothing written, or the header and the rows written so far. *)
Definition settled (f : option (list ledger_line))
    (rows : list ledger_line) : Prop :=
  (f = None /\ rows = [])
  \/ exists l, f = Some (Header :: l) /\ l ≡ₚ rows.

Definition headed (f : option (list ledger_line))
    (rows : list ledger_line) : Prop :=
  exists l, f = Some (Header :: l) /\ l ≡ₚ rows.

(** Where the thread that holds the lock stands. *)
Definition holder_pc (c : config) : option pc :=
  i ← lock (mem c); w ← threads c !! i; Some (w_pc w).

Definition file_inv (p : option pc) (f : option (list ledger_line))
    (rows : list ledger_line) : Prop :=
  match p with
  | Some (AtOpen file_exists) =>
    file_exists = bool_decide (is_Some f) /\ settled f rows
  | Some (AtHeader true) | Some AtRow => headed f rows
  | Some (AtHeader false) => f = Some [] /\ rows = []
  | _ => settled f rows
  end.

Record inv (ws : list writer) (c : config) : Prop := {
  inv_threads :
    Forall2 (fun t w => t = at_pc (w_pc t) w) (threads c) ws;
  inv_mutex : forall i w,
    threads c !! i = Some w -> critical (w_pc w) = true ->
    lock (mem c) = Some i;
  inv_holder : forall i,
    lock (mem c) = Some i ->
    exists w, threads c !! i = Some w /\ critical (w_pc w) = true;
  inv_identity : forall i w,
    threads c !! i = Some w -> w_pc w <> AtGuard -> w_pc w <> Done ->
    has_identity w = true;
  inv_file : file_inv (holder_pc c) (file (mem c)) (written (threads c))
}.

(** Steps left to a writer. *)
Definition steps_left (w : writer) : nat :=
  match w_pc w with
  | AtGuard => if has_identity w then 7 else 1
  | AtAcquire => 6
  | AtExists => 5
  | AtOpen _ => 4
  | AtHeader _ => 3
  | AtRow => 2
  | AtRelease => 1
  | Done => 0
  end.

End Ledger.

(** ** Sessions and their writers

    A session that a driver has run to completion with calls of
    [process_user_response]: the service and the decoder it talks to, its
    subject, the world it started in, the answers before the last one,
    the last answer, the machine before and after the call with that
    answer, and the report that the call returned. *)

Record session_run := {
  sr_client : nat -> completion;
  sr_json_loads : text -> outcome json;
  sr_user_id : option text;
  sr_user_name : option text;
  sr_world : world;
  sr_answers : list text;
  sr_answer : text;
  sr_before : machine;
  sr_after : machine;
  sr_report : final_report
}.

Definition ran_to_completion (r : session_run) : Prop :=
  feed (sr_client r) (sr_json_loads r) (sr_answers r)
    (started (sr_client r) (sr_user_id r) (sr_user_name r) (sr_world r))
  = Some (sr_before r)
  /\ process_user_response (sr_client r) (sr_json_loads r) (sr_answer r)
       (sr_before r)
     = (Ret (RCompleted (sr_report r)), sr_after r).

(** The thread in which the run saves its summary. *)
Definition writer_of_run (r : session_run) : Ledger.writer :=
  Ledger.writer_of (self (sr_after r)) (total_score (sr_report r)).

(** The session was created with a user id and a user name, neither of
    them empty. *)
Definition identified (r : session_run) : bool :=
  negb (falsy (sr_user_id r) || falsy (sr_user_name r)).

(** The row of a run: the identity that the session was created with,
    the seven scores of its report and the total of its report. *)
Definition row_of_run (r : session_run) : ledger_line :=
  Row (default [] (sr_user_id r)) (default [] (sr_user_name r))
    (dim_scores (fr_dimension_scores (sr_report r)))
    (total_score (sr_report r)).

(** The rows owed to a batch of runs: one for each identified run. *)
Definition rows_owed (runs : list session_run) : list ledger_line :=
  map row_of_run (filter (fun r => identified r = true) runs).

(** What a run does to the score file.  It writes nothing before the
    completing call.  That call leaves the file as the writer of the run
    leaves it when it runs alone: with the row of the run appended, or
    untouched when the run is not identified.  The session is then
    completed and rejects every later answer, unchanged, so that it
    writes nothing more. *)
Definition writes_once (r : session_run) : Prop :=
  ledger (outside (sr_before r)) = ledger (sr_world r)
  /\ ledger (outside (sr_after r))
     = (if identified r
        then append_row (row_of_run r) (ledger (sr_world r))
        else ledger (sr_world r))
  /\ (exists schedule c,
        Ledger.run schedule
          {| Ledger.threads := [writer_of_run r];
             Ledger.mem := {| Ledger.lock := None;
                              Ledger.file := ledger (sr_world r) |} |}
        = Some c
        /\ Ledger.finished c
        /\ Ledger.mem c
           = {| Ledger.lock := None;
                Ledger.file := ledger (outside (sr_after r)) |})
  /\ st_status (state (self (sr_after r))) = Completed
  /\ forall answer,
       process_user_response (sr_client r) (sr_json_loads r) answer
         (sr_after r)
       = (Ret (RError (utf8 "评估未开始或已结束")), sr_after r).

(** ** Environments of the examples *)

Module Demo.

Definition w0 : world := {| requests := 0; sleeps := []; ledger := None |}.

Definition outage : error :=
  {| error_type := utf8 "APIConnectionError";
     error_str := utf8 "Connection error." |}.

(** A service that is down: every request raises. *)
Definition down : nat -> completion := fun _ => Failure outage.

(** [json.loads] on the texts of a run against [down]: they are the
    failure sentinel, which is not JSON. *)
Definition not_json : text -> outcome json :=
  fun _ => Raise JSONDecodeError.

(** A judgment and a score in one object. *)
Definition verdict_text (points : string) : text :=
  json_text "{'sufficient': true, 'reason': 'r', 'recommendation': 'score', 'confidence': 0.5, 'score': "
    ++ json_text points ++ json_text ", 'level': 'good', 'reasoning': 'r'}".

Definition verdict (points : json) : json :=
  JObj [(utf8 "sufficient", JBool true); (utf8 "reason", JStr (utf8 "r"));
        (utf8 "recommendation", JStr (utf8 "score"));
        (utf8 "confidence", JFloat float_0_5); (utf8 "score", points);
        (utf8 "level", JStr (utf8 "good"));
        (utf8 "reasoning", JStr (utf8 "r"))].

(** [json.loads] on the texts of the examples. *)
Definition loads_verdicts : text -> outcome json :=
  fun t =>
    if decide (t = verdict_text "45") then Ret (verdict (JInt 45))
    else if decide (t = verdict_text "44") then Ret (verdict (JInt 44))
    else if decide (t = verdict_text "'45'")
         then Ret (verdict (JStr (utf8 "45")))
    else if decide (t = verdict_text "45.5")
         then Ret (verdict (JFloat (FFinite (91 # 2))))
    else Raise JSONDecodeError.

(** A service that answers every request of the first dimension (six
    requests: guidance, three questions, judgment, score) with one
    verdict and every later request with another. *)
Definition two_verdicts : nat -> completion :=
  fun n => Content (Some (if n <? 6 then verdict_text "45"
                          else verdict_text "44")).

(** The same with a fractional score in the first dimension. *)
Definition fractional_verdicts : nat -> completion :=
  fun n => Content (Some (if n <? 6 then verdict_text "45.5"
                          else verdict_text "44")).

(** A service whose verdict has a string for the score. *)
Definition quoted_score : nat -> completion :=
  fun _ => Content (Some (verdict_text "'45'")).

Definition answers (n : nat) : list text := repeat (utf8 "ok") n.

Definition rounds (n : nat) : list interaction :=
  repeat {| i_interaction_count := 0; i_mode := Normal;
            i_question := Some (utf8 "q"); i_dimension := utf8 "d" |} n.

Definition three_rounds : list interaction := rounds 3.

(** A fenced object, as models often answer. *)
Definition fenced : text :=
  json_text "```json" ++ [newline] ++ json_text "{'score': 45}"
    ++ [newline] ++ json_text "```".

Definition info1 : dimension_info :=
  {| dimension_id := 1; dimension_name := utf8 "寻找真理" |}.

Definition guidance1 : guidance :=
  {| g_dimension_id := 1; g_dimension_name := utf8 "寻找真理";
     g_guidance := Some (utf8 "g") |}.

(** The sessions of the examples: against the service that is down, one
    answer short of the first score and, for a subject without identity,
    one answer short of completion; against [two_verdicts], one answer
    short of completion. *)
Definition blank : machine :=
  {| self := new_system None None; outside := w0 |}.

Definition down_after_four : machine :=
  default blank
    (feed down not_json (answers 4)
       (started down (Some (utf8 "7")) (Some (utf8 "Li")) w0)).

Definition anonymous_before_last : machine :=
  default blank (feed down not_json (answers 34) (started down None None w0)).


Definition fractional_before_last : machine :=
  default blank
    (feed fractional_verdicts loads_verdicts (answers 20)
       (started fractional_verdicts (Some (utf8 "8")) (Some (utf8 "Wu")) w0)).

Definition no_report : final_report :=
  report_of [] (PyInt 0) (FFinite 0) (scoring_fallback info1 0 None).

Definition report_of_response (o : outcome response) : final_report :=
  match o with
  | Ret (RCompleted report) => report
  | _ => no_report
  end.

(** The run of a session from [w0] that is given [n] answers and then
    one more. *)
Definition run_of (client : nat -> completion)
    (json_loads : text -> outcome json) (uid uname : option text) (n : nat)
    : session_run :=
  let x := default blank
             (feed client json_loads (answers n)
                (started client uid uname w0)) in
  let r := process_user_response client json_loads (utf8 "ok") x in
  {| sr_client := client; sr_json_loads := json_loads;
     sr_user_id := uid; sr_user_name := uname; sr_world := w0;
     sr_answers := answers n; sr_answer := utf8 "ok";
     sr_before := x; sr_after := snd r;
     sr_report := report_of_response (fst r) |}.

(** Three sessions that complete, the second without identity, their
    writers and a schedule of these. *)
Definition runs : list session_run :=
  [ run_of down not_json (Some (utf8 "1")) (Some (utf8 "Zhang")) 34;
    run_of down not_json None None 34;
    run_of two_verdicts loads_verdicts (Some (utf8 "7")) (Some (utf8 "Li")) 20 ].

Definition writers : list Ledger.writer := map writer_of_run runs.

Definition schedule : list nat :=
  [0; 2; 2; 1; 2; 2; 2; 2; 2; 0; 0; 0; 0; 0; 0].

Definition after_schedule : Ledger.config :=
  default (Ledger.initial writers) (Ledger.run schedule (Ledger.initial writers)).

(** ASCII digits: [str.isdigit] on the characters of the examples. *)
Definition ascii_digit (c : char) : bool := ((48 <=? c) && (c <=? 57))%N.

(** A disk that already holds a transcript under the id [7Li]. *)
Definition used_disk : files :=
  {| conversations := {[ utf8 "7Li" := [CsvHeader; CsvHeader] ]};
     assessments := ∅ |}.

Definition now0 : text := utf8 "20250101_120000".

(** The recorded session of user [7], [Li] with the scorer of
    [two_verdicts], after [n] answers. *)
Definition recorded (n : nat) : desk :=
  let k0 := Recorded.started two_verdicts (Some (utf8 "7")) (Some (utf8 "Li"))
              now0 w0 used_disk in
  default k0 (Recorded.feed two_verdicts loads_verdicts (answers n) k0).

(** A decoder whose every object has a number for the reasoning. *)
Definition loads_numbered : text -> outcome json :=
  fun _ =>
    Ret (JObj [(utf8 "sufficient", JBool true); (utf8 "reason", JStr (utf8 "r"));
               (utf8 "recommendation", JStr (utf8 "score"));
               (utf8 "confidence", JFloat float_0_5); (utf8 "score", JInt 45);
               (utf8 "level", JStr (utf8 "good"));
               (utf8 "reasoning", JInt 7)]).

(** The session of [7], [Li] with that decoder, after two answers. *)
Definition numbered_before_score : desk :=
  let k0 := Recorded.started two_verdicts (Some (utf8 "7")) (Some (utf8 "Li"))
              now0 w0 used_disk in
  default k0 (Recorded.feed two_verdicts loads_numbered (answers 2) k0).

(** A virtual user that repeats the question, or says [ok]. *)
Definition echo (question : option text) (dimension : text) (round_num : nat)
    (history : list (option text * text)) : text :=
  default (utf8 "ok") question.

(** A service that answers the first four requests at once and then
    fails before each answer of the judgment and of the score, answers
    their first attempts with a text that is no JSON, and is down for the
    guidance and the question that follow. *)
Definition costly : nat -> completion :=
  fun n =>
    if n <? 4 then Content (Some (utf8 "q"))
    else match n - 4 with
         | 1 | 5 => Content (Some (utf8 "not json"))
         | 3 | 7 => Content (Some (verdict_text "45"))
         | _ => Failure outage
         end.

(** The session with that service after two answers. *)
Definition costly_before_score : desk :=
  let k0 := Recorded.started costly (Some (utf8 "7")) (Some (utf8 "Li"))
              (utf8 "20250101_120000") w0 {| conversations := ∅;
                                             assessments := ∅ |} in
  default k0 (Recorded.feed costly loads_verdicts (answers 2) k0).

End Demo.

(** * Properties *)

(** ** The response normaliser *)

Section Strip.
Variable p : char -> bool.
Lemma lstrip_head c s : head (lstrip_with p s) = Some c -> p c = false.
Proof.
  induction s as [|a s IH]; simpl; [discriminate|].
  destruct (p a) eqn:E; [exact IH|].
  simpl. intros [= <-]. exact E.
Qed.

Lemma lstrip_fix s : (forall c, head s = Some c -> p c = false) ->
  lstrip_with p s = s.
Proof.
  destruct s as [|a s]; simpl; [reflexivity|].
  intros H. rewrite (H a eq_refl). reflexivity.
Qed.

Lemma lstrip_last c s :
  last (lstrip_with p s) = Some c -> last s = Some c.
Proof.
  induction s as [|a s IH]; simpl; [discriminate|].
  destruct (p a); [|exact id].
  intros H. specialize (IH H). destruct s; [discriminate|exact IH].
Qed.

Lemma rstrip_last c s : last (rstrip_with p s) = Some c -> p c = false.
Proof.
  unfold rstrip_with. rewrite last_reverse. apply lstrip_head.
Qed.

Lemma rstrip_head c s :
  head (rstrip_with p s) = Some c -> head s = Some c.
Proof.
  unfold rstrip_with. rewrite head_reverse. intros H.
  apply lstrip_last in H. rewrite last_reverse in H. exact H.
Qed.

Lemma rstrip_fix s : (forall c, last s = Some c -> p c = false) ->
  rstrip_with p s = s.
Proof.
  intros H. unfold rstrip_with. rewrite lstrip_fix.
  - apply reverse_involutive.
  - intros c. rewrite head_reverse. apply H.
Qed.

Lemma strip_ends_ok s : ends_ok p (strip_with p s).
Proof.
  split; intros c H.
  - apply rstrip_head in H. eapply lstrip_head, H.
  - eapply rstrip_last, H.
Qed.

Lemma ends_ok_strip s : ends_ok p s -> strip_with p s = s.
Proof.
  intros [Hh Hl]. unfold strip_with.
  rewrite (lstrip_fix s Hh). apply rstrip_fix, Hl.
Qed.
End Strip.

Lemma drop_prefix_Some p s r : drop_prefix p s = Some r -> s = p ++ r.
Proof.
  revert s; induction p as [|a p IH]; intros [|b s]; simpl; try congruence.
  destruct (N.eqb_spec a b); [|discriminate].
  intros H. apply IH in H. subst. reflexivity.
Qed.

(** A text that matches [```\s*$] ends with a backtick or a blank. *)
Lemma fence_to_end_last s :
  fence_to_end s = true ->
  exists c, last s = Some c /\ (c = backtick \/ isspace c = true).
Proof.
  unfold fence_to_end. destruct (drop_prefix fence s) as [r|] eqn:E; [|discriminate].
  apply drop_prefix_Some in E. subst s. intros Hr.
  destruct (last r) as [c|] eqn:L.
  - exists c. split.
    + rewrite last_app, L. reflexivity.
    + right. apply last_Some in L as [l' ->].
      rewrite forallb_app in Hr. simpl in Hr.
      destruct (isspace c); [reflexivity|].
      rewrite andb_false_r in Hr. discriminate.
  - apply last_None in L. subst r. exists backtick. split; [reflexivity|now left].
Qed.

Lemma sub_trailing_fence_fix s :
  (forall c, last s = Some c -> c <> backtick /\ isspace c = false) ->
  sub_trailing_fence s = s.
Proof.
  induction s as [|a s IH]; intros H.
  - reflexivity.
  - cbn [sub_trailing_fence].
    assert (Hno : trailing_fence_at (a :: s) = false).
    { unfold trailing_fence_at.
      apply orb_false_iff; split.
      - destruct (fence_to_end (a :: s)) eqn:F; [|reflexivity].
        apply fence_to_end_last in F as (c & L & Hc).
        destruct (H c L) as [H1 H2]. destruct Hc; congruence.
      - destruct (N.eqb_spec a newline); [|reflexivity]. simpl.
        destruct (fence_to_end s) eqn:F; [|reflexivity].
        apply fence_to_end_last in F as (c & L & Hc).
        assert (L' : last (a :: s) = Some c).
        { destruct s; [discriminate|exact L]. }
        destruct (H c L') as [H1 H2]. destruct Hc; congruence. }
    rewrite Hno. f_equal. apply IH. intros c L. apply H.
    destruct s; [discriminate|exact L].
Qed.

Lemma sub_leading_fence_fix s :
  head s <> Some backtick -> sub_leading_fence s = s.
Proof.
  intros H. unfold sub_leading_fence.
  destruct (drop_prefix fence s) as [r|] eqn:E; [|reflexivity].
  apply drop_prefix_Some in E. subst s. now destruct H.
Qed.

(** [normalize] leaves alone a text that has no blank and no backtick at
    either end. *)
Lemma normalize_fix y :
  ends_ok isspace y -> head y <> Some backtick -> last y <> Some backtick ->
  normalize y = y.
Proof.
  intros Hs Hh Hl. destruct y as [|a y]; [reflexivity|].
  set (s := a :: y) in *. unfold normalize. fold s.
  rewrite (ends_ok_strip isspace s Hs).
  rewrite (sub_leading_fence_fix s Hh).
  rewrite sub_trailing_fence_fix.
  2:{ intros c L. split; [congruence|]. apply Hs, L. }
  rewrite (ends_ok_strip is_backtick s).
  - apply ends_ok_strip, Hs.
  - split; intros c E; unfold is_backtick;
      destruct (N.eqb_spec c backtick); congruence.
Qed.

Lemma normalize_ends_ok x : ends_ok isspace (normalize x).
Proof.
  destruct x as [|a x].
  - split; discriminate.
  - apply strip_ends_ok.
Qed.


(** ** The model call adapter *)

Section AdapterFacts.
Variable client : nat -> completion.

(** The adapter returns after at most [remaining] requests. *)
Lemma call_attempts_returns max_retries remaining last_error w :
  exists c w',
    call_attempts client max_retries remaining last_error w = (Ret c, w')
    /\ requests w <= requests w' <= requests w + remaining
    /\ ledger w' = ledger w
    /\ (0 < remaining -> requests w < requests w').
Proof.
  revert last_error w.
  induction remaining as [|k IH]; intros last_error w; simpl.
  - eexists _, w. split; [reflexivity|]. repeat split; lia.
  - destruct (client (requests w)) as [c|e].
    + eexists _, _. split; [reflexivity|]. simpl. repeat split; lia.
    + match goal with |- context [call_attempts _ _ _ _ ?w1] =>
        destruct (IH (Some e) w1) as (c & w' & -> & Hr & Hl & _);
        assert (Hq : requests w1 = S (requests w))
          by (destruct (_ <? _); reflexivity);
        assert (Hg : ledger w1 = ledger w)
          by (destruct (_ <? _); reflexivity)
      end.
      exists c, w'. split; [reflexivity|].
      rewrite Hq in Hr. rewrite Hl, Hg. repeat split; lia.
Qed.

Lemma _call_llm_returns max_retries w :
  exists c w',
    _call_llm client max_retries w = (Ret c, w')
    /\ requests w <= requests w' <= requests w + max_retries
    /\ ledger w' = ledger w
    /\ (0 < max_retries -> requests w < requests w').
Proof. apply call_attempts_returns. Qed.

Lemma call_attempts_exhausted (e : nat -> error) max_retries remaining
    last_error w :
  remaining <= max_retries ->
  (forall i, i < remaining -> client (requests w + i) = Failure (e i)) ->
  call_attempts client max_retries remaining last_error w
  = (Ret (Some (error_msg max_retries
                  (match remaining with
                   | 0 => last_error
                   | S k => Some (e k)
                   end))),
     {| requests := requests w + remaining;
        sleeps := sleeps w ++ backoff max_retries remaining;
        ledger := ledger w |}).
Proof.
  revert e last_error w.
  induction remaining as [|k IH]; intros e last_error w Hle Hfail.
  - simpl. unfold ret, backoff. simpl. rewrite Nat.add_0_r, app_nil_r.
    destruct w; reflexivity.
  - cbn [call_attempts].
    pose proof (Hfail 0 ltac:(lia)) as H0. rewrite Nat.add_0_r in H0.
    rewrite H0.
    rewrite (IH (fun i => e (S i))); [|lia|].
    + f_equal.
      * destruct k; reflexivity.
      * unfold backoff.
        destruct (Nat.ltb_spec (max_retries - S k) (max_retries - 1)) as [Hlt|Hge].
        -- cbn [requests sleeps ledger sleep count_request].
           f_equal; [lia|].
           rewrite <- app_assoc. f_equal.
           replace (S k - 1) with (S (k - 1)) by lia.
           replace (max_retries - k) with (S (max_retries - S k)) by lia.
           reflexivity.
        -- cbn [requests sleeps ledger sleep count_request].
           f_equal; [lia|].
           replace k with 0 by lia. simpl. reflexivity.
    + intros i Hi.
      replace (requests _ + i) with (requests w + S i).
      * apply Hfail. lia.
      * destruct (_ <? _); simpl; lia.
Qed.
End AdapterFacts.

(** ** The diagnostic and scoring agents *)

Section AgentFacts.
Variable client : nat -> completion.
Variable json_loads : text -> outcome json.

#[local] Abbreviation analyze :=
  (analyze_interaction_sufficiency client json_loads).

Lemma diagnostic_attempt_fails k n raw t w w1 :
  _call_llm client 2 w = (Ret t, w1) ->
  structural_failure diagnostic_fields
    (loads json_loads (_clean_json_response t)) = true ->
  diagnostic_attempts client json_loads (S k) n raw w
  = diagnostic_attempts client json_loads k n t w1.
Proof.
  intros Hc Hf. cbn [diagnostic_attempts]. unfold bind at 1. rewrite Hc.
  unfold structural_failure in Hf.
  destruct (loads json_loads (_clean_json_response t)) as [v|e|].
  - destruct v; try discriminate.
    unfold bind, lift_outcome, diagnostic_of.
    destruct (all_in diagnostic_fields (JObj o)) as [[|]| |]; try discriminate.
    reflexivity.
  - destruct e; try discriminate. reflexivity.
  - discriminate.
Qed.

Lemma analyze_fallback info g inter resp w t1 w1 t2 w2 :
  3 <= length inter < 5 ->
  _call_llm client 2 w = (Ret t1, w1) ->
  _call_llm client 2 w1 = (Ret t2, w2) ->
  structural_failure diagnostic_fields
    (loads json_loads (_clean_json_response t1)) = true ->
  structural_failure diagnostic_fields
    (loads json_loads (_clean_json_response t2)) = true ->
  analyze info (Some g) inter resp w
  = (Ret (diagnostic_fallback (length inter) t2), w2).
Proof.
  intros [H3 H5] Hc1 Hc2 Hf1 Hf2. unfold analyze_interaction_sufficiency.
  destruct (Nat.leb_spec 5 (length inter)); [lia|].
  destruct (Nat.ltb_spec (length inter) 3); [lia|].
  change (diagnostic_attempts client json_loads 2 (length inter) None w = (Ret (diagnostic_fallback (length inter) t2), w2)).
  rewrite (diagnostic_attempt_fails _ _ _ _ _ _ Hc1 Hf1).
  rewrite (diagnostic_attempt_fails _ _ _ _ _ _ Hc2 Hf2).
  reflexivity.
Qed.

Lemma diagnostic_attempts_monotone k n raw w :
  requests w <= requests (snd (diagnostic_attempts client json_loads k n raw w)).
Proof.
  revert raw w. induction k as [|k IH]; intros raw w; [simpl; lia|].
  cbn [diagnostic_attempts]. unfold bind at 1.
  destruct (_call_llm_returns client 2 w) as (c & w' & -> & [Hle _] & _).
  destruct (loads json_loads (_clean_json_response c)) as [v|e|].
  - unfold bind at 1, lift_outcome.
    destruct (diagnostic_of n v) as [[d|]| |]; try (simpl; exact Hle).
    etransitivity; [exact Hle|apply IH].
  - destruct e; try (simpl; exact Hle).
    etransitivity; [exact Hle|apply IH].
  - simpl; exact Hle.
Qed.

Lemma diagnostic_attempts_requests k n raw w :
  requests w < requests (snd (diagnostic_attempts client json_loads (S k) n raw w)).
Proof.
  cbn [diagnostic_attempts]. unfold bind at 1.
  destruct (_call_llm_returns client 2 w) as (c & w' & -> & _ & _ & Hlt).
  specialize (Hlt ltac:(lia)).
  destruct (loads json_loads (_clean_json_response c)) as [v|e|].
  - unfold bind at 1, lift_outcome.
    destruct (diagnostic_of n v) as [[d|]| |]; try (simpl; exact Hlt).
    eapply Nat.lt_le_trans; [exact Hlt|apply diagnostic_attempts_monotone].
  - destruct e; try (simpl; exact Hlt).
    eapply Nat.lt_le_trans; [exact Hlt|apply diagnostic_attempts_monotone].
  - simpl; exact Hlt.
Qed.

Lemma clamp_score_accepted v v' : clamp_score v = Ret v' -> accepted v'.
Proof.
  unfold clamp_score, py_lt_int, py_gt_int.
  destruct v as [|b|z|[q| | |]|s|l|o]; try discriminate.
  - destruct b; simpl; intros [= <-]; simpl; lia.
  - destruct (Z.ltb_spec z 10); [intros [= <-]; simpl; lia|].
    destruct (Z.ltb_spec 60 z); intros [= <-]; simpl; lia.
  - destruct (Qle_bool (inject_Z 10) q) eqn:E1; simpl;
      [|intros [= <-]; simpl; lia].
    destruct (Qle_bool q (inject_Z 60)) eqn:E2; simpl; intros [= <-]; simpl;
      [|lia].
    split; apply Qle_bool_iff; assumption.
  - intros [= <-]; simpl; lia.
  - intros [= <-]; simpl; lia.
  - intros [= <-]; exact I.
Qed.

Lemma clamp_score_int z :
  clamp_score (JInt z) = Ret (JInt (Z.max 10 (Z.min 60 z))).
Proof.
  unfold clamp_score. simpl.
  destruct (Z.ltb_spec z 10); [do 2 f_equal; lia|].
  destruct (Z.ltb_spec 60 z); do 2 f_equal; lia.
Qed.

Lemma scoring_attempts_accepted k info n raw w r w' :
  scoring_attempts client json_loads k info n raw w = (Ret r, w') ->
  accepted (score r) /\ interactions_analyzed r = n
  /\ sr_dimension_id r = dimension_id info.
Proof.
  revert raw w. induction k as [|k IH]; intros raw w.
  - simpl. intros [= <- _]. simpl. repeat split; lia.
  - cbn [scoring_attempts]. unfold bind at 1.
    destruct (_call_llm_returns client 2 w) as (c & w1 & -> & _).
    destruct (loads json_loads (_clean_json_response c)) as [v|e|].
    + unfold bind at 1, lift_outcome.
      destruct (scoring_of info n v) as [[s|]| |] eqn:E; try discriminate.
      * intros [= <- _]. unfold scoring_of in E.
        destruct (all_in scoring_fields v) as [[|]| |]; try discriminate.
        destruct v; try discriminate.
        destruct (clamp_score _) eqn:C; try discriminate.
        injection E as <-. simpl. apply clamp_score_accepted in C.
        repeat split; assumption.
      * apply IH.
    + destruct e; try discriminate. apply IH.
    + discriminate.
Qed.

Lemma score_dimension_accepted info g inter resp d w r w' :
  score_dimension client json_loads info g inter resp d w = (Ret r, w') ->
  accepted (score r) /\ interactions_analyzed r = length inter
  /\ sr_dimension_id r = dimension_id info.
Proof.
  unfold score_dimension. destruct g; [|discriminate].
  apply scoring_attempts_accepted.
Qed.

End AgentFacts.


(** ** Totals and averages *)

Arguments round_double : simpl never.
Arguments float_add : simpl never.
Arguments float_of_int : simpl never.
Arguments over_7 : simpl never.
Arguments round_1 : simpl never.










(** ** The session orchestrator *)

Arguments utf8 : simpl never.
Arguments decimal : simpl never.
Arguments error_msg : simpl never.
Arguments select_interaction_mode : simpl never.
Arguments _call_llm : simpl never.
Arguments analyze_interaction_sufficiency : simpl never.
Arguments score_dimension : simpl never.
Arguments py_format_2f : simpl never.
Arguments truthy : simpl never.
Arguments is_str : simpl never.
Arguments sum_scores : simpl never.
Arguments dict_set : simpl never.
Arguments overall_level_of : simpl never.
Arguments banding : simpl never.
Arguments dim_scores : simpl never.
Arguments append_row : simpl never.
Arguments Nat.leb : simpl never.
Arguments Nat.ltb : simpl never.
Arguments bind : simpl never.
Arguments generate_dimension_guidance : simpl never.
Arguments generate_question : simpl never.
Arguments advance_to_next_dimension : simpl never.
Arguments _complete_assessment : simpl never.
Arguments _advance_to_next_dimension : simpl never.
Arguments _score_current_dimension : simpl never.
Arguments _save_user_score_summary : simpl never.

Lemma bind_Ret {S A B} (m : M S A) (k : A -> M S B) x a x' :
  m x = (Ret a, x') -> bind m k x = k a x'.
Proof. unfold bind. intros ->. reflexivity. Qed.

Lemma bind_Raise {S A B} (m : M S A) (k : A -> M S B) x e x' :
  m x = (Raise e, x') -> bind m k x = (Raise e, x').
Proof. unfold bind. intros ->. reflexivity. Qed.

Lemma bind_Beyond {S A B} (m : M S A) (k : A -> M S B) x x' :
  m x = (Beyond, x') -> bind m k x = (Beyond, x').
Proof. unfold bind. intros ->. reflexivity. Qed.

(** One deterministic statement. *)
Ltac mstep := erewrite bind_Ret; [|reflexivity]; cbn.
(** A statement whose result is given by [H]. *)
Ltac mcall H := erewrite bind_Ret; [|apply H]; cbn.


Lemma process_rejected client json_loads (x : machine) (user_input : text) :
  st_status (state (self x)) <> Running ->
  process_user_response client json_loads user_input x
  = (Ret (RError (utf8 "评估未开始或已结束")), x).
Proof.
  intros H. unfold process_user_response, bind, this.
  destruct (st_status (state (self x))); try congruence; reflexivity.
Qed.

Section SessionFacts.
Variable client : nat -> completion.
Variable json_loads : text -> outcome json.

Lemma in_world_eq {A} (m : M world A) x o w :
  m (outside x) = (o, w) ->
  in_world m x = (o, {| self := self x; outside := w |}).
Proof. unfold in_world. intros ->. reflexivity. Qed.

Lemma generate_question_spec rs c x info g :
  n_current_dimension (navigator (self x)) = Some info ->
  dimension_guidance (navigator (self x)) = Some g ->
  exists i x',
    generate_question client rs c x = (Ret i, x')
    /\ director (self x') = director (self x)
    /\ state (self x') = state (self x)
    /\ current_work_state (self x') = current_work_state (self x)
    /\ user_id (self x') = user_id (self x)
    /\ user_name (self x') = user_name (self x)
    /\ n_current_dimension (navigator (self x')) = Some info
    /\ dimension_guidance (navigator (self x')) = Some g
    /\ ledger (outside x') = ledger (outside x)
    /\ i_mode i = select_interaction_mode rs c.
Proof.
  intros Hi Hg.
  destruct (_call_llm_returns client 3 (outside x)) as (q & w' & Hq & _ & Hl & _).
  unfold generate_question, bind, update, modify, read, require, in_world, ret.
  cbn. rewrite Hi, Hg. cbn. rewrite Hq. cbn.
  eexists _, _. split; [reflexivity|]. cbn. repeat split; assumption.
Qed.

Lemma dict_set_fresh {V} k (v : V) d :
  k ∉ map fst d -> dict_set k v d = d ++ [(k, v)].
Proof.
  induction d as [|[k' v'] d IH]; simpl; intros H; [reflexivity|].
  unfold dict_set; fold (@dict_set V).
  destruct (decide (k' = k)) as [->|Hne].
  - exfalso. apply H. left.
  - f_equal. apply IH. intros Hin. apply H. right. exact Hin.
Qed.

Lemma cctdi_dimensions_Some d :
  1 <= d <= 7 -> exists name, cctdi_dimensions d = Some name.
Proof.
  intros H. do 8 (destruct d as [|d]; [try lia; eexists; reflexivity|]). lia.
Qed.

Lemma generate_dimension_guidance_spec x :
  1 <= d_current_dimension (director (self x)) <= 7 ->
  exists g w',
    generate_dimension_guidance client x
    = (Ret g, {| self := self x; outside := w' |})
    /\ ledger w' = ledger (outside x).
Proof.
  intros H. destruct (cctdi_dimensions_Some _ H) as [name Hn].
  destruct (_call_llm_returns client 3 (outside x)) as (q & w' & Hq & _ & Hl & _).
  unfold generate_dimension_guidance, bind, read, require, in_world, ret.
  cbn. rewrite Hn. cbn. rewrite Hq. cbn.
  eexists _, _. split; [reflexivity|]. exact Hl.
Qed.

(** A new dimension starts with one question and no response. *)
Lemma _advance_to_next_dimension_spec x d info prev :
  st_status (state (self x)) = Running ->
  d_current_dimension (director (self x)) = d -> 1 <= d <= 7 ->
  dimension_id info = d ->
  map fst (dimension_scores (state (self x))) = seq 1 (d - 1) ->
  scores_ok (dimension_scores (state (self x))) ->
  exists r x',
    _advance_to_next_dimension client d info prev x = (Ret r, x')
    /\ (exists a b c e f, r = RDimensionCompleted a b c e f)
    /\ running_inv (self x') d
    /\ dimension_scores (state (self x')) = dimension_scores (state (self x))
    /\ user_id (self x') = user_id (self x)
    /\ user_name (self x') = user_name (self x)
    /\ ledger (outside x') = ledger (outside x).
Proof.
  intros Hst Hd Hr Hi Hk Hs.
  unfold _advance_to_next_dimension.
  do 4 mstep.
  match goal with |- context [bind (generate_dimension_guidance client) _ ?y] =>
    destruct (generate_dimension_guidance_spec y) as (g & w1 & Hg & Hl1);
      [cbn; lia|] end.
  mcall Hg. do 2 mstep.
  match goal with |- context [bind (generate_question client ?rs ?c) _ ?y] =>
    destruct (generate_question_spec rs c y info g) as
      (i & x1 & Hq & H1 & H2 & H3 & H4 & H5 & H6 & H7 & H8 & _);
      [reflexivity|reflexivity|] end.
  mcall Hq. do 2 mstep.
  cbn in Hl1, H1, H2, H3, H4, H5, H8.
  eexists _, _. split; [reflexivity|].
  split; [eauto 10|].
  cbn. split; [|rewrite H2; cbn; repeat split; congruence].
  split; cbn; rewrite ?H1, ?H2, ?H3, ?H6, ?H7; cbn;
    try assumption; try lia; eauto.
Qed.

Lemma _get_current_dimension_info_spec x name :
  cctdi_dimensions (d_current_dimension (director (self x))) = Some name ->
  _get_current_dimension_info x
  = (Ret {| dimension_id := d_current_dimension (director (self x));
            dimension_name := name |}, x).
Proof.
  intros H. unfold _get_current_dimension_info. mstep. rewrite H. reflexivity.
Qed.

Lemma advance_to_next_dimension_spec v x d :
  d_current_dimension (director (self x)) = d -> 1 <= d <= 7 ->
  exists r x',
    advance_to_next_dimension v x = (Ret r, x')
    /\ state (self x') = state (self x)
    /\ current_work_state (self x') = current_work_state (self x)
    /\ navigator (self x') = navigator (self x)
    /\ user_id (self x') = user_id (self x)
    /\ user_name (self x') = user_name (self x)
    /\ outside x' = outside x
    /\ (if d <? 7
        then d_current_dimension (director (self x')) = d + 1
             /\ exists info, r = Advanced (d + 1) info
                             /\ dimension_id info = d + 1
        else d_current_dimension (director (self x')) = d
             /\ r = AllCompleted).
Proof.
  intros Hd Hr. unfold advance_to_next_dimension.
  mstep. mstep. rewrite Hd.
  destruct (Nat.ltb_spec d 7) as [Hlt|Hge].
  - destruct (cctdi_dimensions_Some (d + 1) ltac:(lia)) as [name Hn].
    mstep.
    erewrite bind_Ret;
      [|apply _get_current_dimension_info_spec with (name := name);
        cbn; rewrite Hd; exact Hn].
    cbn. unfold ret. rewrite Hd.
    eexists _, _. split; [reflexivity|]. cbn. rewrite Hd.
    repeat split. eexists. split; reflexivity.
  - unfold ret. eexists _, _. split; [reflexivity|]. cbn.
    repeat split. exact Hd.
Qed.

Lemma _complete_assessment_eq final x :
  _complete_assessment final x
  = let s := with_state (set_status Completed) (self x) in
    match sum_scores (dimension_scores (state (self x))) with
    | Ret total =>
      match over_7 total with
      | Ret average =>
        (Ret (RCompleted (report_of (dimension_scores (state (self x)))
                            total average final)),
         {| self := s;
            outside := set_ledger
                         (ledger_after (self x) total (ledger (outside x)))
                         (outside x) |})
      | Raise e => (Raise e, {| self := s; outside := outside x |})
      | Beyond => (Beyond, {| self := s; outside := outside x |})
      end
    | Raise e => (Raise e, {| self := s; outside := outside x |})
    | Beyond => (Beyond, {| self := s; outside := outside x |})
    end.
Proof.
  unfold _complete_assessment. mstep. mstep.
  unfold bind at 1, lift_outcome.
  destruct (sum_scores (dimension_scores (state (self x)))) as [total|e|];
    try reflexivity.
  unfold bind at 1.
  destruct (over_7 total) as [average|e|]; try reflexivity.
  unfold _save_user_score_summary, ledger_after.
  unfold bind at 1. mstep. cbn.
  destruct (falsy (user_id (self x)) || falsy (user_name (self x))).
  - unfold ret, set_ledger. cbn. destruct x as [sx [? ? ?]]. reflexivity.
  - unfold in_world, modify, ret. cbn. reflexivity.
Qed.

Lemma scoring_attempts_ledger k info n raw w :
  ledger (snd (scoring_attempts client json_loads k info n raw w)) = ledger w.
Proof.
  revert raw w. induction k as [|k IH]; intros raw w; [reflexivity|].
  cbn [scoring_attempts]. unfold bind at 1.
  destruct (_call_llm_returns client 2 w) as (c & w1 & -> & _ & Hl & _).
  destruct (loads json_loads (_clean_json_response c)) as [v|e|].
  - unfold bind at 1, lift_outcome.
    destruct (scoring_of info n v) as [[r|]| |]; try exact Hl.
    rewrite IH. exact Hl.
  - destruct e; try exact Hl. rewrite IH. exact Hl.
  - exact Hl.
Qed.

Lemma score_dimension_ledger info g inter resp d w :
  ledger (snd (score_dimension client json_loads info g inter resp d w))
  = ledger w.
Proof.
  unfold score_dimension. destruct g; [|reflexivity].
  apply scoring_attempts_ledger.
Qed.

Lemma diagnostic_attempts_ledger k n raw w :
  ledger (snd (diagnostic_attempts client json_loads k n raw w)) = ledger w.
Proof.
  revert raw w. induction k as [|k IH]; intros raw w; [reflexivity|].
  cbn [diagnostic_attempts]. unfold bind at 1.
  destruct (_call_llm_returns client 2 w) as (c & w1 & -> & _ & Hl & _).
  destruct (loads json_loads (_clean_json_response c)) as [v|e|].
  - unfold bind at 1, lift_outcome.
    destruct (diagnostic_of n v) as [[r|]| |]; try exact Hl.
    rewrite IH. exact Hl.
  - destruct e; try exact Hl. rewrite IH. exact Hl.
  - exact Hl.
Qed.

Lemma analyze_ledger info g inter resp w :
  ledger (snd (analyze_interaction_sufficiency client json_loads info g
                 inter resp w)) = ledger w.
Proof.
  unfold analyze_interaction_sufficiency.
  destruct (5 <=? length inter); [reflexivity|].
  destruct (length inter <? 3); [reflexivity|].
  destruct g; [|reflexivity]. apply diagnostic_attempts_ledger.
Qed.

Lemma _score_current_dimension_spec diag x d info :
  st_status (state (self x)) = Running ->
  d_current_dimension (director (self x)) = d -> 1 <= d <= 7 ->
  ws_dimension_info (current_work_state (self x)) = Some info ->
  dimension_id info = d ->
  map fst (dimension_scores (state (self x))) = seq 1 (d - 1) ->
  scores_ok (dimension_scores (state (self x))) ->
  3 <= length (interactions (state (self x))) <= 5 ->
  exists o x',
    _score_current_dimension client json_loads diag x = (o, x')
    /\ scored x x' d
    /\ user_id (self x') = user_id (self x)
    /\ user_name (self x') = user_name (self x)
    /\ match o with
       | Ret (RDimensionCompleted _ _ _ _ _) =>
         running_inv (self x') (d + 1)
         /\ ledger (outside x') = ledger (outside x)
       | Ret (RCompleted report) =>
         d = 7 /\ completed_with x x' report
       | Ret _ => False
       | _ => True
       end.
Proof.
  intros Hst Hd Hr Hinfo Hid Hk Hs Hlen.
  unfold _score_current_dimension. mstep. rewrite Hinfo. mstep.
  pose proof (score_dimension_ledger info
    (ws_guidance (current_work_state (self x))) (interactions (state (self x)))
    (user_responses (state (self x))) diag (outside x)) as Hl.
  destruct (score_dimension client json_loads info _ _ _ diag (outside x))
    as [[r|e|] w1] eqn:Hsc; cbn in Hl.
  2:{ erewrite bind_Raise; [|apply in_world_eq, Hsc].
      eexists _, _. split; [reflexivity|]. repeat split. now left. }
  2:{ erewrite bind_Beyond; [|apply in_world_eq, Hsc].
      eexists _, _. split; [reflexivity|]. repeat split. now left. }
  erewrite bind_Ret; [|apply in_world_eq, Hsc]. cbn. mstep.
  apply score_dimension_accepted in Hsc as (Hacc & Hia & _).
  set (x2 := {| self := _; outside := w1 |}).
  assert (Hx2 : dimension_scores (state (self x2))
                = dimension_scores (state (self x)) ++ [(d, r)]).
  { cbn. rewrite dict_set_fresh; [rewrite Hid; reflexivity|].
    rewrite Hk, Hid. intros Hin. apply elem_of_seq in Hin. lia. }
  assert (Hst2 : st_status (state (self x2)) = Running) by exact Hst.
  assert (Hd2 : d_current_dimension (director (self x2)) = d) by exact Hd.
  assert (Hu2 : user_id (self x2) = user_id (self x)) by reflexivity.
  assert (Hn2 : user_name (self x2) = user_name (self x)) by reflexivity.
  assert (Ho2 : outside x2 = w1) by reflexivity.
  clearbody x2.
  assert (Hs2 : scores_ok (dimension_scores (state (self x2)))).
  { rewrite Hx2. apply Forall_app. split; [exact Hs|].
    constructor; [|constructor]. cbn. split; [exact Hacc|lia]. }
  assert (Hk2 : map fst (dimension_scores (state (self x2))) = seq 1 d).
  { rewrite Hx2, map_app, Hk. cbn.
    replace (seq 1 d) with (seq 1 (S (d - 1))) by (f_equal; lia).
    rewrite seq_S. do 2 f_equal. lia. }
  destruct (advance_to_next_dimension_spec (score r) x2 d Hd2 Hr)
    as (adv & x3 & Hadv & E1 & E2 & E3 & E4 & E5 & E6 & Hcase).
  mcall Hadv.
  assert (Hscored : forall x',
    dimension_scores (state (self x')) = dimension_scores (state (self x2)) ->
    scored x x' d).
  { intros x' E. right. exists r. rewrite E. repeat split; try assumption; lia. }
  destruct (Nat.ltb_spec d 7) as [Hlt|Hge].
  - destruct Hcase as (Hd3 & info' & -> & Hid').
    destruct (_advance_to_next_dimension_spec x3 (d + 1) info' r)
      as (resp & x4 & -> & (a & b & c & e & f & ->) & Hinv & F1 & F2 & F3 & F4);
      rewrite ?E1; try assumption; try lia.
    { replace (d + 1 - 1) with d by lia. exact Hk2. }
    eexists _, _. split; [reflexivity|].
    split; [apply Hscored; rewrite F1, E1; reflexivity|].
    rewrite F2, F3, F4, E4, E5, E6, Ho2.
    repeat (split; [assumption|]); assumption.
  - destruct Hcase as (Hd3 & ->). rewrite _complete_assessment_eq.
    rewrite E1. cbn.
    destruct (sum_scores _) as [total|e|] eqn:Hsum;
      [destruct (over_7 total) as [average|e|] eqn:Hdiv|..].
    + eexists _, _. split; [reflexivity|].
      split; [apply Hscored; cbn; rewrite E1; reflexivity|].
      cbn. rewrite E4, E5.
      split; [assumption|]. split; [assumption|].
      split; [lia|]. unfold completed_with, ledger_after. cbn.
      rewrite E1, E4, E5, E6, Ho2, Hl. cbn.
      split; [reflexivity|].
      split; [rewrite Hk2; replace d with 7 by lia; reflexivity|].
      split; [exact Hs2|].
      exists r, average. rewrite Hsum. repeat split. exact Hdiv.
    + eexists _, _. split; [reflexivity|].
      split; [apply Hscored; cbn; rewrite E1; reflexivity|].
      cbn. rewrite E4, E5. repeat split; assumption.
    + eexists _, _. split; [reflexivity|].
      split; [apply Hscored; cbn; rewrite E1; reflexivity|].
      cbn. rewrite E4, E5. repeat split; assumption.
    + eexists _, _. split; [reflexivity|].
      split; [apply Hscored; cbn; rewrite E1; reflexivity|].
      cbn. rewrite E4, E5. repeat split; assumption.
    + eexists _, _. split; [reflexivity|].
      split; [apply Hscored; cbn; rewrite E1; reflexivity|].
      cbn. rewrite E4, E5. repeat split; assumption.
Qed.

Lemma length_last_Some {A} (l : list A) :
  0 < length l -> exists a, last l = Some a.
Proof.
  intros H. destruct (last l) eqn:E; [eauto|].
  apply last_None in E. subst. simpl in H. lia.
Qed.

Lemma analyze_forced info g inter resp w :
  5 <= length inter ->
  analyze_interaction_sufficiency client json_loads info g inter resp w
  = (Ret forced_score, w).
Proof.
  intros H. unfold analyze_interaction_sufficiency.
  destruct (Nat.leb_spec 5 (length inter)); [reflexivity|lia].
Qed.

Lemma process_step x d answer :
  running_inv (self x) d ->
  exists o x',
    process_user_response client json_loads answer x = (o, x')
    /\ scored x x' d
    /\ length (interactions (state (self x)))
       = length (user_responses (state (self x))) + 1
    /\ user_id (self x') = user_id (self x)
    /\ user_name (self x') = user_name (self x)
    /\ match o with
       | Ret (RContinue _ _ _ _) =>
         running_inv (self x') d
         /\ ledger (outside x') = ledger (outside x)
       | Ret (RDimensionCompleted _ _ _ _ _) =>
         running_inv (self x') (d + 1)
         /\ ledger (outside x') = ledger (outside x)
       | Ret (RCompleted report) => d = 7 /\ completed_with x x' report
       | Ret (RError _) => False
       | _ => True
       end.
Proof.
  intros [Hst Hd Hr (info & Hinfo & Hid) [g Hg] [ninfo Hni] [ng Hng]
            Hpend Hcap Hk Hs].
  unfold process_user_response. mstep. rewrite Hst. cbn.
  mstep. mstep.
  destruct (length_last_Some (interactions (state (self x))) ltac:(lia))
    as [li Hli].
  rewrite Hli. mstep. rewrite Hinfo. mstep.
  rewrite length_app. cbn [length].
  (* the part that asks the next question *)
  assert (Hcontinue : forall (y : machine) (rs : user_response) c,
    length (interactions (state (self x))) < 5 ->
    director (self y) = director (self x) ->
    navigator (self y) = navigator (self x) ->
    user_id (self y) = user_id (self x) ->
    user_name (self y) = user_name (self x) ->
    ws_dimension_info (current_work_state (self y)) = Some info ->
    ws_guidance (current_work_state (self y)) = Some g ->
    state (self y)
    = set_user_responses (user_responses (state (self x)) ++ [rs])
        (state (self x)) ->
    ledger (outside y) = ledger (outside x) ->
    exists o x',
      (s <- this;;
       next_question <- generate_question client (user_responses (state s))
                          (interaction_count (current_work_state s));;
       update (with_state (fun t =>
         set_interactions (interactions t ++ [next_question]) t));;;
       update (with_work (fun t =>
         set_interaction_count (interaction_count t + 1) t));;;
       s <- this;;
       ret (RContinue (i_question next_question) (i_mode next_question)
              (interaction_count (current_work_state s)) c))%run y
      = (o, x')
      /\ scored x x' d
      /\ length (interactions (state (self x)))
         = length (user_responses (state (self x))) + 1
      /\ user_id (self x') = user_id (self x)
      /\ user_name (self x') = user_name (self x)
      /\ match o with
         | Ret (RContinue _ _ _ _) =>
           running_inv (self x') d
           /\ ledger (outside x') = ledger (outside x)
         | Ret (RDimensionCompleted _ _ _ _ _) =>
           running_inv (self x') (d + 1)
           /\ ledger (outside x') = ledger (outside x)
         | Ret (RCompleted report) => d = 7 /\ completed_with x x' report
         | Ret (RError _) => False
         | _ => True
         end).
  { intros y rs c Hlt Y1 Y2 Y3 Y4 Y5 Y6 Y7 Y8. mstep.
    match goal with |- context [bind (generate_question client ?a ?b) _ ?z] =>
      destruct (generate_question_spec a b z ninfo ng)
        as (i & x1 & Hq & H1 & H2 & H3 & H4 & H5 & H6 & H7 & H8 & _);
        [rewrite Y2; exact Hni|rewrite Y2; exact Hng|] end.
    mcall Hq. do 3 mstep. unfold ret.
    eexists _, _. split; [reflexivity|]. cbn.
    split; [left; cbn; rewrite H2, Y7; reflexivity|].
    split; [exact Hpend|].
    split; [congruence|]. split; [congruence|].
    split; [|congruence].
    split; cbn; rewrite ?H1, ?H2, ?H3, ?H6, ?H7, ?Y1, ?Y5, ?Y6, ?Y7; cbn;
      rewrite ?length_app; cbn; try assumption; try lia; eauto. }
  destruct (Nat.leb_spec 3 (length (user_responses (state (self x))) + 1))
    as [H3|H3].
  2:{ eapply Hcontinue; cbn; try reflexivity; try assumption; lia. }
  set (y := {| self := _; outside := outside x |}).
  pose proof (analyze_ledger info
    (ws_guidance (current_work_state (self y))) (interactions (state (self y)))
    (user_responses (state (self y))) (outside y)) as Hal.
  destruct (analyze_interaction_sufficiency client json_loads info _ _ _ (outside y))
    as [[diag|e|] w1] eqn:Han; cbn in Hal.
  2:{ erewrite bind_Raise; [|apply in_world_eq, Han].
      eexists _, _. split; [reflexivity|]. cbn.
      split; [now left|]. repeat split. exact Hpend. }
  2:{ erewrite bind_Beyond; [|apply in_world_eq, Han].
      eexists _, _. split; [reflexivity|]. cbn.
      split; [now left|]. repeat split. exact Hpend. }
  erewrite bind_Ret; [|apply in_world_eq, Han]. cbn. mstep.
  unfold bind at 1, lift_outcome.
  destruct (py_format_2f (confidence diag)) as [[]|e|].
  2:{ eexists _, _. split; [reflexivity|]. cbn.
      split; [now left|]. repeat split. exact Hpend. }
  2:{ eexists _, _. split; [reflexivity|]. cbn.
      split; [now left|]. repeat split. exact Hpend. }
  destruct (truthy (sufficient diag) && is_str (utf8 "score") (recommendation diag))
    eqn:Hdec.
  - match goal with |- context [_score_current_dimension client json_loads diag ?z] =>
      destruct (_score_current_dimension_spec diag z d info)
        as (o & x' & -> & Hsc & Hu & Hn & Hcase);
        try assumption; try reflexivity end.
    { cbn. lia. }
    eexists _, _. split; [reflexivity|].
    split; [exact Hsc|]. split; [exact Hpend|].
    split; [exact Hu|]. split; [exact Hn|].
    destruct o as [[| | |report]| |]; try exact Hcase; try contradiction.
    + destruct Hcase as [? Hlg]. split; [assumption|]. rewrite Hlg. exact Hal.
    + destruct Hcase
        as [? (Hc & Hk7 & Hs7 & final & average & Hsum & Hdiv & Hrep & Hlg)].
      split; [assumption|]. split; [exact Hc|].
      split; [exact Hk7|]. split; [exact Hs7|].
      exists final, average. split; [exact Hsum|]. split; [exact Hdiv|].
      split; [exact Hrep|].
      rewrite Hlg. cbn. rewrite Hal. reflexivity.
  - assert (Hlt : length (interactions (state (self x))) < 5).
    { destruct (Nat.leb_spec 5 (length (interactions (state (self x)))));
        [|assumption].
      subst y. cbn in Han. rewrite analyze_forced in Han by assumption.
      injection Han as <- _. discriminate Hdec. }
    eapply Hcontinue; cbn; try reflexivity; try assumption.
Qed.

Lemma started_inv uid uname w :
  running_inv (self (started client uid uname w)) 1
  /\ user_id (self (started client uid uname w)) = uid
  /\ user_name (self (started client uid uname w)) = uname
  /\ ledger (outside (started client uid uname w)) = ledger w.
Proof.
  unfold started, start_assessment, director_start_assessment.
  set (x0 := {| self := new_system uid uname; outside := w |}).
  erewrite bind_Ret.
  2:{ mstep. erewrite bind_Ret;
        [|apply _get_current_dimension_info_spec; reflexivity]. reflexivity. }
  cbn. do 2 mstep.
  match goal with |- context [bind (generate_dimension_guidance client) _ ?y] =>
    destruct (generate_dimension_guidance_spec y) as (g & w1 & Hg & Hl1);
      [cbn; lia|] end.
  mcall Hg. do 3 mstep.
  match goal with |- context [bind (generate_question client ?rs ?c) _ ?y] =>
    edestruct (generate_question_spec rs c y) as
      (i & x1 & Hq & H1 & H2 & H3 & H4 & H5 & H6 & H7 & H8 & _);
      [reflexivity|reflexivity|] end.
  mcall Hq. do 2 mstep. unfold ret. cbn in *.
  split; [|repeat split; congruence].
  split; cbn; rewrite ?H1, ?H2, ?H3, ?H6, ?H7; cbn; try lia; eauto.
  constructor.
Qed.

Lemma process_alive x answer r x' :
  alive x ->
  process_user_response client json_loads answer x = (Ret r, x') ->
  alive x'.
Proof.
  intros [d Hinv|Hc Hs] Hp.
  - destruct (process_step x d answer Hinv) as (o & y & E & _ & _ & _ & _ & Hcase).
    rewrite E in Hp. injection Hp as -> ->.
    destruct r as [| | |report]; [contradiction| | |].
    + eapply alive_running, Hcase.
    + eapply alive_running, Hcase.
    + destruct Hcase as (_ & Hst & _ & Hs & _). now apply alive_completed.
  - rewrite process_rejected in Hp by congruence.
    injection Hp as _ <-. now apply alive_completed.
Qed.

Lemma feed_alive answers x x' :
  alive x -> feed client json_loads answers x = Some x' -> alive x'.
Proof.
  revert x. induction answers as [|a rest IH]; intros x Ha; simpl.
  - intros [= <-]. exact Ha.
  - destruct (process_user_response client json_loads a x) as [[r|e|] y] eqn:E;
      try discriminate.
    apply IH. eapply process_alive; eassumption.
Qed.

Lemma alive_scores_ok x : alive x -> scores_ok (dimension_scores (state (self x))).
Proof. intros [d []|]; assumption. Qed.

Lemma dict_get_elem_of {V} k (v : V) d : dict_get k d = Some v -> (k, v) ∈ d.
Proof.
  induction d as [|[k' v'] d IH]; simpl; [discriminate|].
  destruct (decide (k' = k)) as [->|].
  - intros [= ->]. left.
  - intros H. right. auto.
Qed.

Lemma dict_get_snoc {V} k (v : V) d k0 v0 :
  dict_get k (d ++ [(k0, v0)]) = Some v ->
  dict_get k d = Some v \/ (dict_get k d = None /\ k0 = k /\ v0 = v).
Proof.
  induction d as [|[k' v'] d IH]; simpl.
  - destruct (decide (k0 = k)); [|discriminate]. intros [= ->]. auto.
  - destruct (decide (k' = k)); [auto|exact IH].
Qed.

(** C1.  In a session that answers each question (every earlier call has
    returned), every scoring result recorded by a call analyses between 3
    and 5 rounds; and the result that a call adds for a dimension is
    produced with as many recorded responses as questions, that number
    being its round count: scoring is not invoked before 3 recorded
    responses and is forced at 5. *)
Theorem rounds_at_scoring uid uname w answers answer x o x' d r :
  feed client json_loads answers (started client uid uname w) = Some x ->
  process_user_response client json_loads answer x = (o, x') ->
  dict_get d (dimension_scores (state (self x'))) = Some r ->
  3 <= interactions_analyzed r <= 5
  /\ (dict_get d (dimension_scores (state (self x))) = None ->
      interactions_analyzed r = length (user_responses (state (self x))) + 1
      /\ interactions_analyzed r = length (interactions (state (self x)))).
Proof.
  intros Hfeed Hp Hget.
  assert (Ha : alive x).
  { eapply feed_alive; [|exact Hfeed].
    eapply alive_running. apply started_inv. }
  pose proof (alive_scores_ok x Ha) as Hs.
  assert (Hold : forall r0, dict_get d (dimension_scores (state (self x))) = Some r0 ->
                 3 <= interactions_analyzed r0 <= 5).
  { intros r0 H0. apply dict_get_elem_of in H0.
    unfold scores_ok in Hs. rewrite Forall_forall in Hs.
    apply (Hs _ H0). }
  destruct Ha as [d0 Hinv|Hc _].
  - destruct (process_step x d0 answer Hinv)
      as (o1 & y & E & Hsc & Hpend & _).
    rewrite E in Hp. injection Hp as <- <-.
    destruct Hsc as [Heq|(r1 & Heq & _ & Hb & Hia)]; rewrite Heq in Hget.
    + split; [apply Hold, Hget|]. congruence.
    + apply dict_get_snoc in Hget as [Hget|(Hnone & -> & ->)].
      * split; [apply Hold, Hget|]. congruence.
      * split; [exact Hb|]. intros _. split; lia.
  - rewrite process_rejected in Hp by congruence. injection Hp as _ <-.
    split; [apply Hold, Hget|]. congruence.
Qed.


Lemma feed_completed answers x x' :
  st_status (state (self x)) <> Running ->
  feed client json_loads answers x = Some x' -> x' = x.
Proof.
  intros Hst. induction answers as [|a rest IH]; simpl.
  - congruence.
  - rewrite process_rejected by exact Hst. exact IH.
Qed.

(** A session that is still running has written nothing and has kept
    its identity. *)
Lemma feed_running answers : forall x d x',
  running_inv (self x) d ->
  feed client json_loads answers x = Some x' ->
  st_status (state (self x')) = Running ->
  ledger (outside x') = ledger (outside x)
  /\ user_id (self x') = user_id (self x)
  /\ user_name (self x') = user_name (self x).
Proof.
  induction answers as [|a rest IH]; intros x d x' Hinv Hfeed Hst;
    simpl in Hfeed.
  - injection Hfeed as <-. auto.
  - destruct (process_step x d a Hinv)
      as (o & y & E & _ & _ & Hu & Hn & Hcase).
    rewrite E in Hfeed.
    destruct o as [[msg|? ? ? ?|? ? ? ? ?|report]|e|]; try discriminate.
    + contradiction.
    + destruct Hcase as [Hinv' Hl].
      destruct (IH y d x' Hinv' Hfeed Hst) as (H1 & H2 & H3).
      repeat split; congruence.
    + destruct Hcase as [Hinv' Hl].
      destruct (IH y (d + 1) x' Hinv' Hfeed Hst) as (H1 & H2 & H3).
      repeat split; congruence.
    + destruct Hcase as (_ & Hc & _).
      apply feed_completed in Hfeed; [|rewrite Hc; discriminate].
      subst x'. rewrite Hc in Hst. discriminate.
Qed.

Lemma session_ledger uid uname w answers answer x x' resp :
  feed client json_loads answers (started client uid uname w) = Some x ->
  process_user_response client json_loads answer x = (Ret resp, x') ->
  ledger (outside x')
  = match resp with
    | RCompleted report =>
      ledger_after (self x') (total_score report) (ledger (outside x))
    | _ => ledger (outside x)
    end.
Proof.
  intros Hfeed Hp.
  assert (Ha : alive x).
  { eapply feed_alive; [|exact Hfeed].
    eapply alive_running. apply started_inv. }
  destruct Ha as [d Hinv|Hc _].
  2:{ rewrite process_rejected in Hp by congruence.
      injection Hp as <- <-. reflexivity. }
  destruct (process_step x d answer Hinv) as (o & y & E & _ & _ & _ & _ & Hcase).
  rewrite E in Hp. injection Hp as -> ->.
  destruct resp as [| | |report]; [contradiction| | |].
  - apply Hcase.
  - apply Hcase.
  - destruct Hcase as (_ & _ & _ & _ & final & average & _ & _ & _ & Hl).
    exact Hl.
Qed.

(** What a completing call leaves: a completed session with the identity
    it was created with, the scores of the report, and the score file of
    the start with the summary saved. *)
Lemma session_completion uid uname w answers answer x x' report :
  feed client json_loads answers (started client uid uname w) = Some x ->
  process_user_response client json_loads answer x
  = (Ret (RCompleted report), x') ->
  st_status (state (self x')) = Completed
  /\ user_id (self x') = uid /\ user_name (self x') = uname
  /\ fr_dimension_scores report = dimension_scores (state (self x'))
  /\ ledger (outside x) = ledger w
  /\ ledger (outside x')
     = ledger_after (self x') (total_score report) (ledger w).
Proof.
  intros Hfeed Hp.
  destruct (started_inv uid uname w) as (Hinv0 & Hu0 & Hn0 & Hl0).
  assert (Ha : alive x).
  { eapply feed_alive; [|exact Hfeed]. eapply alive_running, Hinv0. }
  destruct Ha as [d Hinv|Hc _].
  2:{ rewrite process_rejected in Hp by congruence. discriminate. }
  destruct (feed_running answers _ 1 x Hinv0 Hfeed (inv_status _ _ Hinv))
    as (Hl & Hu & Hn).
  destruct (process_step x d answer Hinv)
    as (o & y & E & _ & _ & Hu' & Hn' & Hcase).
  rewrite E in Hp. injection Hp as -> ->.
  destruct Hcase
    as (_ & Hc & _ & _ & final & average & _ & _ & Hrep & Hlg).
  split; [exact Hc|]. split; [congruence|]. split; [congruence|].
  split; [rewrite Hrep; reflexivity|]. split; [congruence|].
  rewrite Hlg, Hl, Hl0. reflexivity.
Qed.

End SessionFacts.

(** ** The writers of the ledger *)

Section LedgerFacts.
Import Ledger.

Lemma written_at_guard ws : written (map (at_pc AtGuard) ws) = [].
Proof.
  unfold written. induction ws as [|w ws IH]; [reflexivity|].
  cbn [map]. rewrite filter_cons_False; [exact IH|].
  unfold wrote. cbn. rewrite andb_false_r. discriminate.
Qed.

Lemma inv_initial ws : inv ws (initial ws).
Proof.
  split; cbn.
  - induction ws as [|w ws IH]; constructor; [reflexivity|exact IH].
  - intros i w H. apply list_lookup_fmap_Some in H as (w0 & -> & _).
    discriminate.
  - discriminate.
  - intros i w H. apply list_lookup_fmap_Some in H as (w0 & -> & _).
    intros Hg. now destruct Hg.
  - left. split; [reflexivity|apply written_at_guard].
Qed.

Lemma written_middle l1 a l2 :
  written (l1 ++ a :: l2)
  = written l1 ++ (if wrote a then [row_data a] else []) ++ written l2.
Proof.
  unfold written. rewrite filter_app, map_app. f_equal.
  destruct (wrote a) eqn:E.
  - rewrite filter_cons_True by exact E. reflexivity.
  - rewrite filter_cons_False by (rewrite E; discriminate). reflexivity.
Qed.

Lemma insert_middle (ths : list writer) i w w' :
  ths !! i = Some w ->
  ths = take i ths ++ w :: drop (S i) ths
  /\ <[i := w']> ths = take i ths ++ w' :: drop (S i) ths.
Proof.
  intros H. split.
  - symmetry. apply take_drop_middle, H.
  - apply insert_take_drop. eapply lookup_lt_Some, H.
Qed.

(** A step that does not write leaves the written rows alone. *)
Lemma written_insert_same ths i w p :
  ths !! i = Some w -> wrote (at_pc p w) = wrote w ->
  written (<[i := at_pc p w]> ths) = written ths.
Proof.
  intros H E. destruct (insert_middle ths i w (at_pc p w) H) as [H1 H2].
  rewrite H2. rewrite H1 at 3. rewrite !written_middle, E. reflexivity.
Qed.

(** The step that writes adds the row of the thread. *)
Lemma written_insert_new ths i w p :
  ths !! i = Some w -> wrote w = false -> wrote (at_pc p w) = true ->
  written (<[i := at_pc p w]> ths) ≡ₚ written ths ++ [row_data w].
Proof.
  intros H E0 E1. destruct (insert_middle ths i w (at_pc p w) H) as [H1 H2].
  rewrite H2. rewrite H1 at 3. rewrite !written_middle, E0, E1. cbn.
  change (row_data (at_pc p w)) with (row_data w).
  rewrite <- app_assoc. apply Permutation_app_head.
  rewrite Permutation_app_comm. reflexivity.
Qed.

Lemma lookup_insert_at (ths : list writer) i j w w' x :
  ths !! i = Some w -> <[i := w']> ths !! j = Some x ->
  (j = i /\ x = w') \/ (j <> i /\ ths !! j = Some x).
Proof.
  intros H Hj. destruct (decide (j = i)) as [->|Hne].
  - left. split; [reflexivity|].
    rewrite list_lookup_insert_eq in Hj by (eapply lookup_lt_Some, H).
    congruence.
  - right. split; [exact Hne|].
    rewrite list_lookup_insert_ne in Hj by congruence. exact Hj.
Qed.

Lemma holder_pc_insert_other c i j w w' m' :
  threads c !! i = Some w -> lock (mem c) = Some j -> j <> i ->
  lock m' = lock (mem c) ->
  holder_pc {| threads := <[i := w']> (threads c); mem := m' |}
  = holder_pc c.
Proof.
  intros H Hl Hne Hm. unfold holder_pc. cbn. rewrite Hm, Hl. cbn.
  rewrite list_lookup_insert_ne by congruence. reflexivity.
Qed.

Lemma holder_pc_insert_self c i w w' m' :
  threads c !! i = Some w -> lock m' = Some i ->
  holder_pc {| threads := <[i := w']> (threads c); mem := m' |}
  = Some (w_pc w').
Proof.
  intros H Hm. unfold holder_pc. cbn. rewrite Hm. cbn.
  rewrite list_lookup_insert_eq by (eapply lookup_lt_Some, H). reflexivity.
Qed.

Lemma holder_pc_free c : lock (mem c) = None -> holder_pc c = None.
Proof. unfold holder_pc. intros ->. reflexivity. Qed.

Lemma holder_pc_self c i w :
  threads c !! i = Some w -> lock (mem c) = Some i ->
  holder_pc c = Some (w_pc w).
Proof. unfold holder_pc. intros H ->. cbn. rewrite H. reflexivity. Qed.

Lemma Forall2_insert_at_pc ws (ths : list writer) i w p :
  Forall2 (fun t w => t = at_pc (w_pc t) w) ths ws ->
  ths !! i = Some w ->
  Forall2 (fun t w => t = at_pc (w_pc t) w) (<[i := at_pc p w]> ths) ws.
Proof.
  intros HF. revert i. induction HF as [|t w0 ths ws Ht HF IH]; intros i H.
  - discriminate.
  - destruct i as [|i]; cbn in *.
    + injection H as ->. constructor; [|exact HF].
      rewrite Ht. reflexivity.
    + constructor; [exact Ht|]. apply IH, H.
Qed.

Lemma step_thread_inv i c c' :
  step_thread i c = Some c' ->
  exists w w' m',
    threads c !! i = Some w /\ thread_step i w (mem c) = Some (w', m')
    /\ c' = {| threads := <[i := w']> (threads c); mem := m' |}.
Proof.
  unfold step_thread. intros H.
  destruct (threads c !! i) as [w|] eqn:Hw; [|discriminate]. cbn in H.
  destruct (thread_step i w (mem c)) as [[w' m']|] eqn:Ht; [|discriminate].
  cbn in H. injection H as <-. eauto 10.
Qed.

(** The obligations of [inv] that do not mention the file, for a step
    of thread [i] from [w] to [at_pc p w] that sets the lock to [l]. *)
Lemma inv_frame ws c i w p m' :
  inv ws c -> threads c !! i = Some w ->
  (* the lock after the step *)
  (critical p = true -> lock m' = Some i) ->
  (critical p = false -> critical (w_pc w) = true -> lock m' = None) ->
  (critical (w_pc w) = false -> critical p = false ->
   lock m' = lock (mem c)) ->
  (critical (w_pc w) = false -> critical p = true -> lock (mem c) = None) ->
  (p <> AtGuard -> p <> Done -> has_identity w = true) ->
  let c' := {| threads := <[i := at_pc p w]> (threads c);
               mem := m' |} in
  Forall2 (fun t w => t = at_pc (w_pc t) w) (threads c') ws
  /\ (forall j x, threads c' !! j = Some x -> critical (w_pc x) = true ->
      lock (mem c') = Some j)
  /\ (forall j, lock (mem c') = Some j ->
      exists x, threads c' !! j = Some x /\ critical (w_pc x) = true)
  /\ (forall j x, threads c' !! j = Some x -> w_pc x <> AtGuard ->
      w_pc x <> Done -> has_identity x = true).
Proof.
  intros [HT HM HH HI _] Hw L1 L2 L3 L4 Hid c'. subst c'. cbn.
  assert (Hlen : i < length (threads c)) by (eapply lookup_lt_Some, Hw).
  split; [apply Forall2_insert_at_pc; assumption|].
  split; [|split].
  - intros j x Hj Hc.
    destruct (lookup_insert_at _ _ _ _ _ _ Hw Hj) as [[-> ->]|[Hne Hj']];
      cbn in Hc.
    + auto.
    + pose proof (HM j x Hj' Hc) as Hlock.
      destruct (critical (w_pc w)) eqn:Cw.
      * pose proof (HM i w Hw Cw). congruence.
      * destruct (critical p) eqn:Cp.
        -- rewrite (L4 eq_refl eq_refl) in Hlock. discriminate.
        -- rewrite (L3 eq_refl eq_refl). exact Hlock.
  - intros j Hj.
    destruct (decide (j = i)) as [->|Hne].
    + exists (at_pc p w). split; [apply list_lookup_insert_eq, Hlen|].
      cbn. destruct (critical p) eqn:Cp; [reflexivity|].
      destruct (critical (w_pc w)) eqn:Cw.
      * rewrite (L2 eq_refl eq_refl) in Hj. discriminate.
      * rewrite (L3 eq_refl eq_refl) in Hj.
        destruct (HH i Hj) as (x & Hx & Hc). congruence.
    + assert (Hold : lock (mem c) = Some j).
      { destruct (critical p) eqn:Cp.
        - rewrite (L1 eq_refl) in Hj. congruence.
        - destruct (critical (w_pc w)) eqn:Cw.
          + rewrite (L2 eq_refl eq_refl) in Hj. discriminate.
          + rewrite <- (L3 eq_refl eq_refl). exact Hj. }
      destruct (HH j Hold) as (x & Hx & Hc). exists x.
      split; [|exact Hc]. rewrite list_lookup_insert_ne by congruence. exact Hx.
  - intros j x Hj Hg Hd.
    destruct (lookup_insert_at _ _ _ _ _ _ Hw Hj) as [[-> ->]|[Hne Hj']].
    + cbn in *. apply Hid; assumption.
    + eapply HI; eassumption.
Qed.

Lemma wrote_at_pc p w :
  wrote (at_pc p w)
  = has_identity w && match p with AtRelease | Done => true | _ => false end.
Proof. reflexivity. Qed.

Lemma settled_headed f rows : headed f rows -> settled f rows.
Proof. intros H. right. exact H. Qed.

Lemma inv_step ws c c' : inv ws c -> step c c' -> inv ws c'.
Proof.
  intros Hinv Hs. inversion Hs as [i c0 c1 Hstep]; subst c0 c1. clear Hs.
  apply step_thread_inv in Hstep as (w & w' & m' & Hw & Ht & ->).
  pose proof Hinv as [HT HM HH HI HF].
  unfold thread_step in Ht.
  assert (Hnc : critical (w_pc w) = false -> forall p m,
            lock m = lock (mem c) ->
            holder_pc {| threads := <[i := at_pc p w]> (threads c); mem := m |}
            = holder_pc c).
  { intros Cw p m Hm. unfold holder_pc. cbn [mem threads]. rewrite Hm.
    destruct (lock (mem c)) as [j|] eqn:Hl; [|reflexivity]. cbn.
    destruct (decide (j = i)) as [->|Hne].
    - destruct (HH i eq_refl) as (x & Hx & Hc). congruence.
    - rewrite list_lookup_insert_ne by congruence. reflexivity. }
  assert (Hcr : critical (w_pc w) = true -> holder_pc c = Some (w_pc w)).
  { intros Cw. eapply holder_pc_self; [exact Hw|]. apply (HM i w Hw Cw). }
  assert (Hself : forall p m, lock m = Some i ->
            holder_pc {| threads := <[i := at_pc p w]> (threads c); mem := m |}
            = Some p).
  { intros p m Hm. erewrite holder_pc_insert_self; [reflexivity|exact Hw|exact Hm]. }
  destruct (w_pc w) eqn:Hpc; try discriminate;
    try (injection Ht as <- <-).
  - (* the guard *)
    destruct (inv_frame ws c i w (if has_identity w then AtAcquire else Done)
                (mem c) Hinv Hw)
      as (F1 & F2 & F3 & F4);
      [rewrite ?Hpc; cbn; try (destruct (has_identity w); cbn; congruence) ..|].
    split; try assumption.
    cbn [threads mem file]. rewrite written_insert_same; [|exact Hw|].
    2:{ rewrite wrote_at_pc. unfold wrote. rewrite Hpc.
        destruct (has_identity w); reflexivity. }
    rewrite Hnc by reflexivity. exact HF.
  - (* taking the lock *)
    destruct (lock (mem c)) as [j|] eqn:Hl; [discriminate|].
    injection Ht as <- <-.
    destruct (inv_frame ws c i w AtExists
                {| lock := Some i; file := file (mem c) |} Hinv Hw)
      as (F1 & F2 & F3 & F4);
      [rewrite ?Hpc; cbn; try congruence ..|].
    { intros _ _. eapply HI; [exact Hw|rewrite Hpc; discriminate..]. }
    split; try assumption.
    cbn [threads mem file]. rewrite written_insert_same; [|exact Hw|].
    2:{ rewrite wrote_at_pc. unfold wrote. rewrite Hpc. reflexivity. }
    rewrite Hself by reflexivity. cbn.
    rewrite holder_pc_free in HF by exact Hl. exact HF.
  - (* the existence check *)
    rewrite (Hcr eq_refl) in HF. cbn in HF.
    destruct (inv_frame ws c i w (AtOpen (bool_decide (is_Some (file (mem c)))))
                (mem c) Hinv Hw)
      as (F1 & F2 & F3 & F4);
      [rewrite ?Hpc; cbn; try congruence ..|].
    { intros _. apply (HM i w Hw). rewrite Hpc. reflexivity. }
    { intros _ _. eapply HI; [exact Hw|rewrite Hpc; discriminate..]. }
    split; try assumption.
    cbn [threads mem file]. rewrite written_insert_same; [|exact Hw|].
    2:{ rewrite wrote_at_pc. unfold wrote. rewrite Hpc. reflexivity. }
    rewrite Hself by (apply (HM i w Hw); rewrite Hpc; reflexivity).
    split; [reflexivity|exact HF].
  - (* opening the file *)
    rewrite (Hcr eq_refl) in HF. cbn in HF.
    assert (Hl : lock (mem c) = Some i)
      by (apply (HM i w Hw); rewrite Hpc; reflexivity).
    destruct (inv_frame ws c i w (AtHeader file_exists)
                {| lock := lock (mem c); file := Some (default [] (file (mem c))) |}
                Hinv Hw)
      as (F1 & F2 & F3 & F4);
      [rewrite ?Hpc; cbn; try congruence ..|].
    { intros _ _. eapply HI; [exact Hw|rewrite Hpc; discriminate..]. }
    split; try assumption.
    cbn [threads mem file]. rewrite written_insert_same; [|exact Hw|].
    2:{ rewrite wrote_at_pc. unfold wrote. rewrite Hpc. reflexivity. }
    rewrite Hself by exact Hl.
    destruct HF as [-> Hset].
    destruct Hset as [[-> Hr]|(rows & -> & Hp)]; cbn.
    + split; [reflexivity|exact Hr].
    + exists rows. split; [reflexivity|exact Hp].
  - (* the header *)
    rewrite (Hcr eq_refl) in HF. cbn in HF.
    assert (Hl : lock (mem c) = Some i)
      by (apply (HM i w Hw); rewrite Hpc; reflexivity).
    destruct (inv_frame ws c i w AtRow
                (if file_exists then mem c
                 else {| lock := lock (mem c);
                         file := Some (default [] (file (mem c)) ++ [Header]) |})
                Hinv Hw)
      as (F1 & F2 & F3 & F4);
      [rewrite ?Hpc; cbn; try (destruct file_exists; cbn; congruence) ..|].
    { intros _ _. eapply HI; [exact Hw|rewrite Hpc; discriminate..]. }
    split; try assumption.
    cbn [threads mem file]. rewrite written_insert_same; [|exact Hw|].
    2:{ rewrite wrote_at_pc. unfold wrote. rewrite Hpc. reflexivity. }
    rewrite Hself by (destruct file_exists; exact Hl).
    destruct file_exists; [exact HF|].
    destruct HF as [-> ->]. exists []. split; reflexivity.
  - (* the row *)
    rewrite (Hcr eq_refl) in HF. cbn in HF.
    assert (Hl : lock (mem c) = Some i)
      by (apply (HM i w Hw); rewrite Hpc; reflexivity).
    assert (Hidw : has_identity w = true).
    { eapply HI; [exact Hw|rewrite Hpc; discriminate..]. }
    destruct (inv_frame ws c i w AtRelease
                {| lock := lock (mem c);
                   file := Some (default [] (file (mem c)) ++ [row_data w]) |}
                Hinv Hw)
      as (F1 & F2 & F3 & F4);
      [rewrite ?Hpc; cbn; try congruence ..|].
    split; try assumption.
    cbn [threads mem file]. rewrite Hself by exact Hl.
    destruct HF as (rows & -> & Hp).
    right. exists (rows ++ [row_data w]). split; [reflexivity|].
    rewrite written_insert_new; [|exact Hw| |].
    + rewrite Hp. reflexivity.
    + unfold wrote. rewrite Hpc. apply andb_false_r.
    + rewrite wrote_at_pc, Hidw. reflexivity.
  - (* leaving the region *)
    rewrite (Hcr eq_refl) in HF. cbn in HF.
    destruct (inv_frame ws c i w Done
                {| lock := None; file := file (mem c) |} Hinv Hw)
      as (F1 & F2 & F3 & F4);
      [rewrite ?Hpc; cbn; try congruence ..|].
    split; try assumption.
    cbn [threads mem file]. rewrite written_insert_same; [|exact Hw|].
    2:{ rewrite wrote_at_pc. unfold wrote. rewrite Hpc. reflexivity. }
    rewrite holder_pc_free by reflexivity. exact HF.
Qed.

Lemma reachable_inv ws c : reachable ws c -> inv ws c.
Proof.
  induction 1 as [|c c' _ IH Hs]; [apply inv_initial|eapply inv_step; eassumption].
Qed.

Lemma written_finished ths ws :
  Forall2 (fun t w => t = at_pc (w_pc t) w) ths ws ->
  Forall (fun w => w_pc w = Done) ths ->
  written ths = rows_of ws.
Proof.
  unfold written, rows_of.
  induction 1 as [|t w ths ws Ht HF IH]; intros Hd; [reflexivity|].
  inversion Hd as [|? ? Hpc Hd']; subst.
  specialize (IH Hd').
  assert (Hw : wrote t = has_identity w).
  { rewrite Ht, Hpc. unfold wrote. cbn. apply andb_true_r. }
  assert (Hr : row_data t = row_data w) by (rewrite Ht; reflexivity).
  destruct (has_identity w) eqn:E.
  - rewrite (filter_cons_True _ t) by exact Hw.
    rewrite (filter_cons_True _ w) by exact E.
    cbn [map]. rewrite Hr, IH. reflexivity.
  - rewrite (filter_cons_False _ t) by (rewrite Hw; discriminate).
    rewrite (filter_cons_False _ w) by (rewrite E; discriminate).
    exact IH.
Qed.

Lemma headers_rows (ws : list writer) l :
  l ≡ₚ map row_data ws -> headers l = 0.
Proof.
  intros Hp. unfold headers.
  assert (Hall : Forall (fun x => is_header x = false) l).
  { rewrite Hp. apply Forall_map, Forall_forall.
    intros w _. reflexivity. }
  clear Hp. induction Hall as [|x l Hx _ IH]; [reflexivity|].
  rewrite filter_cons_False by (rewrite Hx; discriminate). exact IH.
Qed.

Lemma headers_rows_of ws l : l ≡ₚ rows_of ws -> headers l = 0.
Proof. apply headers_rows. Qed.

Lemma headers_headed f (ws : list writer) lines :
  headed f (map row_data ws) -> f = Some lines -> headers lines = 1.
Proof.
  intros (l & -> & Hp) [= <-].
  unfold headers. rewrite filter_cons_True by reflexivity. cbn.
  f_equal. apply (headers_rows ws), Hp.
Qed.

Lemma headers_settled f (ws : list writer) lines :
  settled f (map row_data ws) -> f = Some lines -> headers lines = 1.
Proof.
  intros [[-> _]|H]; [discriminate|]. apply (headers_headed _ ws), H.
Qed.

(** The file never holds the header twice, whatever the writers are
    doing: it holds it once, except between the creation of the file and
    the header write of the writer that created it. *)
Lemma headers_at_most_once ws c lines :
  reachable ws c -> file (mem c) = Some lines ->
  lines = [] \/ headers lines = 1.
Proof.
  intros Hr Hf. apply reachable_inv in Hr as [_ _ _ _ HF].
  unfold written in HF.
  destruct (holder_pc c) as [[| | |b|[|]| | |]|]; cbn in HF;
    try (right; eapply headers_settled; eassumption);
    try (right; eapply headers_headed; eassumption).
  - right. eapply headers_settled; [apply HF|eassumption].
  - left. destruct HF as [E _]. congruence.
Qed.

Lemma run_reachable ws schedule c :
  run schedule (initial ws) = Some c -> reachable ws c.
Proof.
  assert (H : forall c0, reachable ws c0 -> run schedule c0 = Some c ->
                         reachable ws c).
  { induction schedule as [|i rest IH]; intros c0 Hr; cbn.
    - intros [= <-]. exact Hr.
    - destruct (step_thread i c0) as [c1|] eqn:E; [|discriminate]. cbn.
      apply IH. eapply reach_step; [exact Hr|]. econstructor. exact E. }
  apply H. constructor.
Qed.

(** No deadlock: some thread can move unless all are done. *)
Lemma progress ws c :
  reachable ws c -> ~ finished c -> exists c', step c c'.
Proof.
  intros Hr Hnf. apply reachable_inv in Hr as [_ HM HH _ _].
  assert (Hex : exists i w, threads c !! i = Some w /\ w_pc w <> Done).
  { unfold finished in Hnf. apply not_Forall_Exists in Hnf; [|intros w; solve_decision].
    apply Exists_exists in Hnf as (w & Hin & Hw).
    apply list_elem_of_lookup in Hin as [i Hi]. eauto. }
  destruct (lock (mem c)) as [j|] eqn:Hl.
  - destruct (HH j eq_refl) as (w & Hw & Hc).
    assert (Hs : exists r, thread_step j w (mem c) = Some r).
    { unfold thread_step. destruct (w_pc w); try discriminate; eauto. }
    destruct Hs as [r Hs].
    eexists. apply (step_of j). unfold step_thread. rewrite Hw. cbn.
    rewrite Hs. reflexivity.
  - destruct Hex as (i & w & Hw & Hnd).
    assert (Hs : exists r, thread_step i w (mem c) = Some r).
    { unfold thread_step. rewrite Hl.
      destruct (w_pc w) eqn:Hpc; eauto; try congruence. }
    destruct Hs as [r Hs].
    eexists. apply (step_of i). unfold step_thread. rewrite Hw. cbn.
    rewrite Hs. reflexivity.
Qed.

Lemma steps_left_step i w m w' m' :
  thread_step i w m = Some (w', m') -> steps_left w = S (steps_left w').
Proof.
  unfold thread_step, steps_left. destruct w as [uid uname ds t p].
  destruct p as [| | |b|b| | |]; cbn;
    try (intros [= <- <-]; reflexivity); try discriminate.
  - intros [= <- <-]. cbn.
    destruct (has_identity _); reflexivity.
  - destruct (lock m); [discriminate|]. intros [= <- <-]. reflexivity.
Qed.

Lemma steps_left_done ths :
  sum_list (map steps_left ths) = 0 -> Forall (fun w => w_pc w = Done) ths.
Proof.
  induction ths as [|w ths IH]; cbn; [constructor|].
  intros H. constructor; [|apply IH; lia].
  assert (Hw : steps_left w = 0) by lia.
  unfold steps_left in Hw.
  destruct (w_pc w); try discriminate; [|reflexivity].
  destruct (has_identity w); discriminate.
Qed.

Lemma sum_list_insert (f : writer -> nat) ths i w w' :
  ths !! i = Some w ->
  sum_list (map f (<[i := w']> ths)) + f w = sum_list (map f ths) + f w'.
Proof.
  revert i. induction ths as [|t ths IH]; intros [|i] H;
    try discriminate.
  - injection H as ->. cbn. lia.
  - specialize (IH i H).
    change (<[S i := w']> (t :: ths)) with (t :: <[i := w']> ths).
    cbn [map sum_list sum_list_with]. lia.
Qed.

(** No interleaving runs for ever, and none gets stuck: from every
    reachable state some schedule ends with all writers done, and every
    step brings that end one statement closer. *)
Lemma can_finish ws c :
  reachable ws c ->
  exists schedule c', run schedule c = Some c' /\ finished c'.
Proof.
  remember (sum_list (map steps_left (threads c))) as n eqn:Hn.
  revert c Hn. induction n as [|n IH]; intros c Hn Hr.
  - exists [], c. split; [reflexivity|].
    apply steps_left_done. symmetry. exact Hn.
  - assert (Hnf : ~ finished c).
    { intros Hfin. unfold finished in Hfin.
      assert (H0 : sum_list (map steps_left (threads c)) = 0).
      { clear -Hfin. induction Hfin as [|w l Hw _ IHl]; [reflexivity|].
        cbn. unfold steps_left at 1. rewrite Hw. exact IHl. }
      lia. }
    destruct (progress ws c Hr Hnf) as [c1 Hs].
    assert (Hr1 : reachable ws c1) by (eapply reach_step; eassumption).
    destruct Hs as [i c c1 Hs].
    assert (Hm : sum_list (map steps_left (threads c1)) = n).
    { unfold step_thread in Hs.
      destruct (threads c !! i) as [w|] eqn:Hw; [|discriminate].
      cbn in Hs.
      destruct (thread_step i w (mem c)) as [[w1 m1]|] eqn:Ht;
        [|discriminate].
      injection Hs as <-. cbn.
      pose proof (steps_left_step _ _ _ _ _ Ht) as Hd.
      pose proof (sum_list_insert steps_left _ _ _ w1 Hw) as Hi.
      lia. }
    destruct (IH c1 (eq_sym Hm) Hr1) as (schedule & c' & Hrun & Hfin).
    exists (i :: schedule), c'. split; [|exact Hfin].
    cbn. rewrite Hs. exact Hrun.
Qed.

(** The region of one writer run alone is the sequential [append_row]. *)
Lemma writer_alone (s : system) (total : number)
    (l : option (list ledger_line)) :
  exists schedule c,
    run schedule {| threads := [writer_of s total];
                    mem := {| lock := None; file := l |} |} = Some c
    /\ finished c
    /\ mem c = {| lock := None; file := ledger_after s total l |}.
Proof.
  unfold ledger_after.
  destruct (falsy (user_id s) || falsy (user_name s)) eqn:E.
  - exists [0]. eexists. cbn. unfold step_thread, thread_step, has_identity. cbn.
    rewrite E. cbn. split; [reflexivity|]. cbn. split; [|reflexivity].
    repeat constructor.
  - exists [0; 0; 0; 0; 0; 0; 0]. eexists.
    cbn. unfold step_thread, thread_step, has_identity. cbn. rewrite E. cbn.
    split; [reflexivity|]. cbn. split; [repeat constructor|].
    unfold append_row. destruct l as [lines|]; cbn; reflexivity.
Qed.

(** Writers without identity leave at the guard: they never take the
    lock and the file is never created. *)
Lemma rows_of_nil ws :
  rows_of ws = [] -> Forall (fun w => has_identity w = false) ws.
Proof.
  unfold rows_of. induction ws as [|w ws IH]; [constructor|].
  destruct (has_identity w) eqn:E.
  - rewrite filter_cons_True by exact E. discriminate.
  - rewrite filter_cons_False by (rewrite E; discriminate).
    intros H. constructor; [exact E|exact (IH H)].
Qed.

Lemma never_created ws c :
  Forall (fun w => has_identity w = false) ws ->
  reachable ws c ->
  mem c = {| lock := None; file := None |}
  /\ Forall (fun t => has_identity t = false
                      /\ (w_pc t = AtGuard \/ w_pc t = Done)) (threads c).
Proof.
  intros Hws. induction 1 as [|c c' _ [Hm Hth] Hs].
  - split; [reflexivity|]. cbn. apply Forall_map.
    eapply Forall_impl; [exact Hws|]. intros w Hw. cbn. auto.
  - destruct Hs as [i c c' Hs]. unfold step_thread in Hs.
    destruct (threads c !! i) as [w|] eqn:Hw; [|discriminate].
    cbn in Hs.
    rewrite Forall_lookup in Hth. destruct (Hth i w Hw) as [Hid Hpc].
    assert (Ht : thread_step i w (mem c) = Some (at_pc Done w, mem c)
                 \/ thread_step i w (mem c) = None).
    { unfold thread_step. destruct Hpc as [-> | ->]; [|auto].
      rewrite Hid. auto. }
    destruct Ht as [Ht|Ht]; rewrite Ht in Hs; [|discriminate].
    injection Hs as <-. cbn. split; [exact Hm|].
    apply Forall_insert; [rewrite Forall_lookup; exact Hth|].
    cbn. auto.
Qed.

(** The writers of a batch, whatever they are: mutual exclusion, the file
    at the end, the header at any moment, and termination. *)
Lemma ledger_of_writers (ws : list writer) (c : config) :
  reachable ws c ->
  (forall i w, threads c !! i = Some w -> critical (w_pc w) = true ->
               lock (mem c) = Some i)
  /\ (finished c ->
      match file (mem c) with
      | None => rows_of ws = []
      | Some lines =>
        headers lines = 1
        /\ exists rows, lines = Header :: rows /\ rows ≡ₚ rows_of ws
      end)
  /\ (rows_of ws = [] -> file (mem c) = None)
  /\ (forall lines, file (mem c) = Some lines ->
                    lines = [] \/ headers lines = 1)
  /\ (exists schedule c', run schedule c = Some c' /\ finished c').
Proof.
  intros Hr.
  pose proof (headers_at_most_once ws c) as Honce.
  pose proof (can_finish ws c Hr) as Hend.
  assert (Hnone : rows_of ws = [] -> file (mem c) = None).
  { intros Hrows. apply rows_of_nil in Hrows.
    destruct (never_created ws c Hrows Hr) as [-> _]. reflexivity. }
  apply reachable_inv in Hr as Hinv. destruct Hinv as [HT HM HH _ HF].
  split; [exact HM|].
  split; [|split; [exact Hnone|split;
                     [intros lines; apply Honce, Hr|exact Hend]]].
  intros Hfin.
  assert (Hl : lock (mem c) = None).
  { destruct (lock (mem c)) as [j|] eqn:Hl; [|reflexivity].
    destruct (HH j eq_refl) as (w & Hw & Hc).
    unfold finished in Hfin. rewrite Forall_lookup in Hfin.
    rewrite (Hfin j w Hw) in Hc. discriminate. }
  rewrite holder_pc_free in HF by exact Hl. cbn in HF.
  rewrite (written_finished _ _ HT Hfin) in HF.
  destruct HF as [[-> Hrows]|(rows & -> & Hp)]; [exact Hrows|].
  split; [|eauto].
  unfold headers. rewrite filter_cons_True by reflexivity. cbn.
  f_equal. apply (headers_rows_of ws), Hp.
Qed.

(** The writer of a completed run carries the identity of the session
    and its row. *)
Lemma writer_of_run_spec r :
  ran_to_completion r ->
  has_identity (writer_of_run r) = identified r
  /\ row_data (writer_of_run r) = row_of_run r
  /\ writes_once r.
Proof.
  intros [Hfeed Hp].
  destruct (session_completion _ _ _ _ _ _ _ _ _ _ Hfeed Hp)
    as (Hc & Hu & Hn & Hfr & Hl & Hlg).
  assert (Hid : has_identity (writer_of_run r) = identified r).
  { unfold has_identity, identified, writer_of_run, writer_of. cbn.
    rewrite Hu, Hn. reflexivity. }
  assert (Hrow : row_data (writer_of_run r) = row_of_run r).
  { unfold row_data, row_of_run, writer_of_run, writer_of. cbn.
    rewrite Hu, Hn, Hfr. reflexivity. }
  assert (Hafter : ledger_after (self (sr_after r)) (total_score (sr_report r))
                     (ledger (sr_world r))
                   = if identified r
                     then append_row (row_of_run r) (ledger (sr_world r))
                     else ledger (sr_world r)).
  { unfold ledger_after, identified, row_of_run. rewrite Hu, Hn, Hfr.
    destruct (falsy (sr_user_id r) || falsy (sr_user_name r)); reflexivity. }
  split; [exact Hid|]. split; [exact Hrow|].
  split; [exact Hl|]. split; [rewrite Hlg; exact Hafter|].
  split.
  - destruct (writer_alone (self (sr_after r)) (total_score (sr_report r))
                (ledger (sr_world r))) as (schedule & c & Hrun & Hfin & Hm).
    exists schedule, c. split; [exact Hrun|]. split; [exact Hfin|].
    rewrite Hm, Hlg. reflexivity.
  - split; [exact Hc|]. intros answer. apply process_rejected.
    rewrite Hc. discriminate.
Qed.

Lemma rows_of_runs runs :
  Forall ran_to_completion runs ->
  rows_of (map writer_of_run runs) = rows_owed runs.
Proof.
  unfold rows_of, rows_owed.
  induction 1 as [|r runs Hr _ IH]; [reflexivity|].
  destruct (writer_of_run_spec r Hr) as (Hid & Hrow & _).
  cbn [map]. destruct (identified r) eqn:E.
  - rewrite (filter_cons_True _ (writer_of_run r)) by (rewrite Hid; reflexivity).
    rewrite (filter_cons_True _ r) by exact E.
    cbn [map]. rewrite Hrow, IH. reflexivity.
  - rewrite (filter_cons_False _ (writer_of_run r))
      by (rewrite Hid; discriminate).
    rewrite (filter_cons_False _ r) by (rewrite E; discriminate).
    exact IH.
Qed.

(** C2 (amended).  A batch of sessions, each run to completion by calls
    of [process_user_response], saves its summaries from an absent score
    file, the writers interleaved in any way.  Each session writes
    nothing before its completing call, that call does to the file what
    its writer does alone, and the completed session rejects every later
    answer: it saves its summary once.  A thread is at the existence
    check or at one of the appends only while it holds the lock.  Once
    all writers are done the file is absent when no session was created
    with both a user id and a user name, and otherwise holds the header
    exactly once, as its first line, followed by exactly one row for
    each session that has both, in some order.  When no session has
    both, the file is never created.  At no moment does the file hold
    the header twice, and the writers can always run to the end. *)
Theorem ledger_header_once_row_per_identity (runs : list session_run)
    (c : config) :
  Forall ran_to_completion runs ->
  reachable (map writer_of_run runs) c ->
  Forall writes_once runs
  /\ (forall i w, threads c !! i = Some w -> critical (w_pc w) = true ->
                  lock (mem c) = Some i)
  /\ (finished c ->
      match file (mem c) with
      | None => rows_owed runs = []
      | Some lines =>
        headers lines = 1
        /\ exists rows, lines = Header :: rows /\ rows ≡ₚ rows_owed runs
      end)
  /\ (rows_owed runs = [] -> file (mem c) = None)
  /\ (forall lines, file (mem c) = Some lines ->
                    lines = [] \/ headers lines = 1)
  /\ (exists schedule c', run schedule c = Some c' /\ finished c').
Proof.
  intros Hruns Hr.
  destruct (ledger_of_writers _ c Hr) as (HM & Hfin & Hnone & Honce & Hend).
  rewrite (rows_of_runs runs Hruns) in Hfin, Hnone.
  split; [|split; [exact HM|split; [exact Hfin|split; [exact Hnone|
             split; [exact Honce|exact Hend]]]]].
  eapply Forall_impl; [exact Hruns|].
  intros r Hc. apply writer_of_run_spec, Hc.
Qed.

End LedgerFacts.

(** ** The claims about single operations *)

(** C8 (amended).  The normaliser is idempotent on every text whose
    normal form neither starts nor ends with a backtick:
    [normalize (normalize x) = normalize x] for such [x]. *)
Theorem normalize_idempotent_without_backtick_ends (x : text) :
  head (normalize x) <> Some backtick ->
  last (normalize x) <> Some backtick ->
  normalize (normalize x) = normalize x.
Proof.
  intros Hh Hl.
  apply normalize_fix; [apply normalize_ends_ok|exact Hh|exact Hl].
Qed.

(** C9.  The model call adapter returns, it never raises: it issues at
    most [max_retries] requests; when all of them fail it has waited 2^i
    seconds after the failure of attempt i, for each attempt but the last,
    and it returns the sentinel text, which ends with the text of the last
    error. *)
Theorem call_llm_never_raises (client : nat -> completion)
    (max_retries : nat) (w : world) :
  (exists c w',
     _call_llm client max_retries w = (Ret c, w')
     /\ requests w <= requests w' <= requests w + max_retries)
  /\ forall e : nat -> error,
       (forall i, i < max_retries -> client (requests w + i) = Failure (e i)) ->
       exists c w',
         _call_llm client max_retries w = (Ret (Some c), w')
         /\ requests w' = requests w + max_retries
         /\ sleeps w' = sleeps w ++ map (fun i => 2 ^ i) (seq 0 (max_retries - 1))
         /\ c = error_msg max_retries
                  (match max_retries with 0 => None | S k => Some (e k) end)
         /\ (0 < max_retries ->
             exists prefix, c = prefix ++ error_str (e (max_retries - 1))).
Proof.
  split.
  - destruct (_call_llm_returns client max_retries w) as (c & w' & H & Hr & _).
    eauto.
  - intros e Hfail. unfold _call_llm.
    rewrite (call_attempts_exhausted client e) by (lia || exact Hfail).
    eexists _, _. split; [reflexivity|]. cbn.
    split; [reflexivity|]. split.
    { unfold backoff. rewrite Nat.sub_diag. reflexivity. }
    split; [destruct max_retries; reflexivity|].
    intros Hpos. destruct max_retries as [|k]; [lia|].
    unfold error_msg. cbn [str_error].
    replace (S k - 1) with k by lia.
    eexists. rewrite !app_assoc. reflexivity.
Qed.

(** C6.  The two forced branches of the diagnostic policy, with the round
    count taken as the source takes it, the number of recorded questions:
    from 5 rounds on the result is sufficient, "score", confidence 1.0;
    below 3 rounds it is insufficient, "continue", confidence 0.9; in both
    cases the world is unchanged, no request is issued.  A request is
    issued only with 3 or 4 rounds, and then at least one is. *)
Theorem diagnostic_forced_branches (client : nat -> completion)
    (json_loads : text -> outcome json) (info : dimension_info)
    (g : option guidance) (inter : list interaction)
    (resp : list user_response) (w : world) :
  let run := analyze_interaction_sufficiency client json_loads info g inter resp w in
  (5 <= length inter ->
   exists d, run = (Ret d, w)
     /\ sufficient d = JBool true
     /\ recommendation d = JStr (utf8 "score")
     /\ confidence d = JFloat float_1_0)
  /\ (length inter < 3 ->
      exists d, run = (Ret d, w)
        /\ sufficient d = JBool false
        /\ recommendation d = JStr (utf8 "continue")
        /\ confidence d = JFloat float_0_9)
  /\ (requests (snd run) <> requests w -> 3 <= length inter < 5)
  /\ (3 <= length inter < 5 -> is_Some g -> requests w < requests (snd run)).
Proof.
  cbv zeta. unfold analyze_interaction_sufficiency.
  destruct (Nat.leb_spec 5 (length inter)) as [H5|H5].
  { repeat split; try lia.
    - exists forced_score. repeat split.
    - exfalso. match goal with H : _ <> _ |- _ => apply H end. reflexivity. }
  destruct (Nat.ltb_spec (length inter) 3) as [H3|H3].
  { repeat split; try lia.
    - exists forced_continue. repeat split.
    - exfalso. match goal with H : _ <> _ |- _ => apply H end. reflexivity. }
  repeat split; try lia.
  intros _ [g' ->].
  apply diagnostic_attempts_requests.
Qed.

(** C7 (amended).  With 3 or 4 rounds, when both attempts fail
    structurally (the text is not JSON, or the object lacks a required
    field), the diagnostic result is the fallback: insufficient,
    "continue" and never "score", confidence 0.5, with the raw text of the
    second attempt. *)
Theorem diagnostic_fallback_continue (client : nat -> completion)
    (json_loads : text -> outcome json) (info : dimension_info)
    (g : guidance) (inter : list interaction) (resp : list user_response)
    (w w1 w2 : world) (t1 t2 : option text) :
  3 <= length inter < 5 ->
  _call_llm client 2 w = (Ret t1, w1) ->
  _call_llm client 2 w1 = (Ret t2, w2) ->
  structural_failure diagnostic_fields
    (loads json_loads (_clean_json_response t1)) = true ->
  structural_failure diagnostic_fields
    (loads json_loads (_clean_json_response t2)) = true ->
  exists d,
    analyze_interaction_sufficiency client json_loads info (Some g) inter resp w
    = (Ret d, w2)
    /\ sufficient d = JBool false
    /\ recommendation d = JStr (utf8 "continue")
    /\ recommendation d <> JStr (utf8 "score")
    /\ confidence d = JFloat float_0_5
    /\ raw_analysis d = Some t2.
Proof.
  intros Hlen H1 H2 F1 F2.
  exists (diagnostic_fallback (length inter) t2).
  split; [eapply analyze_fallback; eassumption|].
  unfold diagnostic_fallback. cbn.
  destruct (Nat.leb_spec 5 (length inter)); [lia|].
  repeat split. intros [=].
Qed.


(** C10.  A response submitted to a session that is not running
    (initialized or completed) returns the error object and leaves the
    session and the world as they were: status, interactions, user
    responses and dimension scores are unchanged. *)
Theorem process_rejected_unchanged (client : nat -> completion)
    (json_loads : text -> outcome json) (x : machine) (user_input : text) :
  st_status (state (self x)) <> Running ->
  exists msg x',
    process_user_response client json_loads user_input x = (Ret (RError msg), x')
    /\ x' = x
    /\ st_status (state (self x')) = st_status (state (self x))
    /\ interactions (state (self x')) = interactions (state (self x))
    /\ user_responses (state (self x')) = user_responses (state (self x))
    /\ dimension_scores (state (self x')) = dimension_scores (state (self x)).
Proof.
  intros H. eexists _, x. rewrite process_rejected by exact H.
  repeat split.
Qed.

(** ** The transcript text *)

Lemma split_blank_words s :
  Forall (fun c => isspace c = false) (split_blank s).1
  /\ Forall word (split_blank s).2.
Proof.
  induction s as [|c r [IHw IHws]]; cbn; [split; constructor|].
  destruct (split_blank r) as [w ws]. cbn in *.
  destruct (isspace c) eqn:Hc; cbn.
  - split; [constructor|]. destruct w; cbn; [exact IHws|].
    constructor; [|exact IHws]. split; [discriminate|exact IHw].
  - split; [constructor|]; assumption.
Qed.

Lemma py_split_words s : Forall word (py_split s).
Proof.
  unfold py_split. destruct (split_blank_words s) as [Hw Hws].
  destruct (split_blank s) as [w ws]. cbn in *.
  destruct w; cbn; [exact Hws|].
  constructor; [|exact Hws]. split; [discriminate|exact Hw].
Qed.

Lemma split_blank_app_word w t :
  Forall (fun c => isspace c = false) w ->
  split_blank (w ++ t) = (w ++ (split_blank t).1, (split_blank t).2).
Proof.
  induction 1 as [|c w Hc Hw IH]; cbn.
  - destruct (split_blank t); reflexivity.
  - rewrite IH, Hc. reflexivity.
Qed.

Lemma py_split_join ws : Forall word ws -> py_split (join [space] ws) = ws.
Proof.
  induction 1 as [|w ws [Hne Hw] Hws IH]; [reflexivity|].
  unfold py_split in *. cbn [join]. destruct ws as [|w' ws'].
  - rewrite <- (app_nil_r w) at 1. rewrite split_blank_app_word by exact Hw.
    cbn. rewrite app_nil_r. destruct w; [contradiction|reflexivity].
  - rewrite split_blank_app_word by exact Hw.
    change ([space] ++ ?t) with (space :: t).
    cbn [split_blank]. destruct (split_blank (join [space] (w' :: ws'))) as [v vs].
    change (isspace space) with true. cbn. rewrite app_nil_r.
    cbn in IH. rewrite IH. destruct w; [contradiction|reflexivity].
Qed.

Lemma split_blank_map (f : char -> char) s :
  (forall c, isspace c = false -> f c = c) ->
  (forall c, isspace c = true -> isspace (f c) = true) ->
  split_blank (map f s) = split_blank s.
Proof.
  intros Hn Hb. induction s as [|c r IH]; [reflexivity|].
  cbn. rewrite IH. destruct (split_blank r) as [w ws].
  destruct (isspace c) eqn:Hc.
  - rewrite (Hb c Hc). reflexivity.
  - rewrite (Hn c Hc), Hc. reflexivity.
Qed.

Lemma split_blank_replace a s :
  isspace a = true ->
  split_blank (replace_char a space s) = split_blank s.
Proof.
  intros Ha. apply split_blank_map; intros c Hc.
  - destruct (N.eqb_spec c a) as [->|]; [congruence|reflexivity].
  - destruct (c =? a)%N; [reflexivity|exact Hc].
Qed.

Lemma py_split_clean_text s : py_split (clean_text s) = py_split s.
Proof.
  unfold clean_text. rewrite py_split_join by apply py_split_words.
  unfold py_split. rewrite !split_blank_replace by reflexivity. reflexivity.
Qed.

Lemma clean_text_idem s : clean_text (clean_text s) = clean_text s.
Proof.
  unfold clean_text at 1. unfold py_split.
  rewrite !split_blank_replace by reflexivity.
  fold (py_split (clean_text s)). rewrite py_split_clean_text.
  unfold clean_text, py_split.
  rewrite !split_blank_replace by reflexivity. reflexivity.
Qed.

Lemma join_cons_cons w w' ws :
  join [space] (w :: w' :: ws) = w ++ space :: join [space] (w' :: ws).
Proof. reflexivity. Qed.

Lemma join_head ws c :
  Forall word ws -> head (join [space] ws) = Some c -> isspace c = false.
Proof.
  intros H. destruct H as [|w ws [Hne Hw] _]; [discriminate|].
  destruct Hw as [|a w Ha _]; [contradiction|].
  destruct ws; cbn; intros [= <-]; exact Ha.
Qed.

Lemma join_last ws c :
  Forall word ws -> last (join [space] ws) = Some c -> isspace c = false.
Proof.
  induction 1 as [|w ws [Hne Hw] Hws IH]; [discriminate|].
  destruct ws as [|w' ws'].
  - cbn [join]. intros Hl. rewrite Forall_forall in Hw. apply Hw.
    apply last_Some in Hl as [l' ->]. set_solver.
  - rewrite join_cons_cons, last_app_cons.
    destruct (join [space] (w' :: ws')) as [|b t] eqn:E.
    + exfalso. inversion Hws as [|? ? [Hne' _] _]; subst.
      destruct w'; [contradiction|]. destruct ws'; discriminate.
    + rewrite last_cons_cons. exact IH.
Qed.

(** Every blank of a joined text is a separator. *)
Lemma join_blank ws c :
  Forall word ws -> c ∈ join [space] ws -> isspace c = true -> c = space.
Proof.
  induction 1 as [|w ws [Hne Hw] Hws IH]; [set_solver|].
  destruct ws as [|w' ws'].
  - cbn [join]. intros Hin Hc. rewrite Forall_forall in Hw.
    rewrite (Hw _ Hin) in Hc. discriminate.
  - rewrite join_cons_cons. intros Hin Hc.
    apply elem_of_app in Hin as [Hin|Hin].
    + rewrite Forall_forall in Hw. rewrite (Hw _ Hin) in Hc. discriminate.
    + apply elem_of_cons in Hin as [->|Hin]; [reflexivity|auto].
Qed.

(** No two blanks side by side. *)
Lemma join_single_spaced ws i a b :
  Forall word ws ->
  join [space] ws !! i = Some a -> join [space] ws !! S i = Some b ->
  isspace a = true -> isspace b = false.
Proof.
  intros H. revert i. induction H as [|w ws [Hne Hw] Hws IH]; [discriminate|].
  destruct ws as [|w' ws'].
  - cbn [join]. intros i Ha _ Hsp. rewrite Forall_forall in Hw.
    apply list_elem_of_lookup_2 in Ha. rewrite (Hw _ Ha) in Hsp. discriminate.
  - rewrite join_cons_cons. intros i Ha Hb Hsp. unfold text in *.
    destruct (decide (i < length w)) as [Hlt|Hge].
    + rewrite lookup_app_l in Ha by exact Hlt.
      rewrite Forall_forall in Hw.
      apply list_elem_of_lookup_2 in Ha. rewrite (Hw _ Ha) in Hsp. discriminate.
    + rewrite lookup_app_r in Ha, Hb by lia.
      destruct (i - length w) as [|k] eqn:Ek.
      * replace (S i - length w) with 1 in Hb by lia. cbn in Hb.
        eapply join_head; [exact Hws|].
        rewrite head_lookup. exact Hb.
      * replace (S i - length w) with (S (S k)) in Hb by lia.
        cbn in Ha, Hb. eapply IH; eassumption.
Qed.

Lemma filter_nonblank_word w :
  Forall (fun c => isspace c = false) w ->
  filter (fun c => isspace c = false) w = w.
Proof.
  induction 1 as [|c w Hc _ IH]; [reflexivity|].
  rewrite filter_cons_True by exact Hc. rewrite IH. reflexivity.
Qed.

Lemma filter_nonblank_join ws :
  Forall word ws ->
  filter (fun c => isspace c = false) (join [space] ws) = concat ws.
Proof.
  induction 1 as [|w ws [Hne Hw] Hws IH]; [reflexivity|].
  destruct ws as [|w' ws'].
  - cbn. rewrite app_nil_r. apply filter_nonblank_word, Hw.
  - rewrite join_cons_cons. unfold text in *.
    rewrite filter_app, filter_nonblank_word by exact Hw.
    rewrite filter_cons_False by (cbn; discriminate).
    rewrite IH. reflexivity.
Qed.

Lemma concat_cons_word w ws : concat (cons_word w ws) = w ++ concat ws.
Proof. destruct w; reflexivity. Qed.

Lemma concat_split_blank s :
  (split_blank s).1 ++ concat (split_blank s).2
  = filter (fun c => isspace c = false) s.
Proof.
  unfold text in *. induction s as [|c r IH]; [reflexivity|].
  cbn [split_blank]. destruct (split_blank r) as [w ws]. cbn in IH.
  destruct (isspace c) eqn:Hc; cbn [fst snd].
  - rewrite filter_cons_False by (rewrite Hc; discriminate).
    rewrite concat_cons_word. exact IH.
  - rewrite filter_cons_True by exact Hc. cbn. rewrite IH. reflexivity.
Qed.

Lemma concat_py_split s :
  concat (py_split s) = filter (fun c => isspace c = false) s.
Proof.
  unfold py_split. rewrite <- concat_split_blank.
  destruct (split_blank s) as [w ws]. apply concat_cons_word.
Qed.

Lemma clean_text_not_in s c :
  isspace c = true -> c <> space -> c ∉ clean_text s.
Proof.
  intros Hc Hne Hin. apply Hne.
  eapply join_blank; [apply py_split_words|exact Hin|exact Hc].
Qed.

Lemma _clean_content_str s : _clean_content (JStr s) = Ret (clean_text s).
Proof. destruct s; reflexivity. Qed.

(** X1.  The cleaned text of a transcript cell is in normal form: it does
    not start or end with a blank, its only blank character is the plain
    space, no two spaces are adjacent, and so it holds no line break. *)
Theorem clean_content_normal_form (s : text) :
  exists t,
    _clean_content (JStr s) = Ret t
    /\ ends_ok isspace t
    /\ (forall c, c ∈ t -> isspace c = true -> c = space)
    /\ (forall i a b, t !! i = Some a -> t !! S i = Some b ->
                      isspace a = true -> isspace b = false)
    /\ (newline ∉ t) /\ (carriage_return ∉ t).
Proof.
  exists (clean_text s). split; [apply _clean_content_str|].
  pose proof (py_split_words
    (replace_char carriage_return space (replace_char newline space s))) as Hw.
  split; [split; intros c Hc|].
  { eapply join_head; eassumption. }
  { eapply join_last; eassumption. }
  split; [intros c; apply join_blank, Hw|].
  split; [intros i a b; apply join_single_spaced, Hw|].
  split; apply clean_text_not_in; (reflexivity || discriminate).
Qed.

(** X2.  Cleaning a cell keeps its words: the result splits into the same
    words as the input, it keeps every character that is not a blank, in
    order, and cleaning it again changes nothing. *)
Theorem clean_content_keeps_words (s : text) :
  exists t,
    _clean_content (JStr s) = Ret t
    /\ py_split t = py_split s
    /\ filter (fun c => isspace c = false) t
       = filter (fun c => isspace c = false) s
    /\ _clean_content (JStr t) = Ret t
    /\ (t = [] <-> Forall (fun c => isspace c = true) s).
Proof.
  exists (clean_text s). split; [apply _clean_content_str|].
  split; [apply py_split_clean_text|].
  assert (Hf : filter (fun c => isspace c = false) (clean_text s)
               = filter (fun c => isspace c = false) s).
  { rewrite <- !concat_py_split, py_split_clean_text. reflexivity. }
  split; [exact Hf|].
  split; [rewrite _clean_content_str, clean_text_idem; reflexivity|].
  split.
  - intros E. rewrite E in Hf. cbn in Hf.
    clear E. unfold text in *. induction s as [|c r IH]; [constructor|].
    destruct (isspace c) eqn:Hc.
    + rewrite filter_cons_False in Hf by (rewrite Hc; discriminate).
      constructor; auto.
    + rewrite filter_cons_True in Hf by exact Hc. discriminate.
  - intros Hall.
    assert (Hnil : filter (fun c => isspace c = false) s = []).
    { clear Hf. unfold text in *.
      induction Hall as [|c r Hc _ IH]; [reflexivity|].
      rewrite filter_cons_False by (rewrite Hc; discriminate). exact IH. }
    rewrite Hnil in Hf.
    destruct (clean_text s) as [|a t] eqn:E; [reflexivity|].
    exfalso. unfold text in *.
    assert (Ha : isspace a = false).
    { eapply (join_head (py_split _)); [apply py_split_words|].
      unfold clean_text in E. rewrite E. reflexivity. }
    rewrite filter_cons_True in Hf by exact Ha. discriminate.
Qed.

(** ** Persona files *)

Lemma rfind_range c s : (-1 <= rfind c s < Z.of_nat (length s))%Z.
Proof.
  induction s as [|a r IH]; cbn [rfind length]; [lia|].
  destruct (Z.eqb_spec (rfind c r) (-1)); [destruct (a =? c)%N|]; lia.
Qed.

Lemma rfind_notin c s : c ∉ s -> rfind c s = (-1)%Z.
Proof.
  induction s as [|a r IH]; [reflexivity|]. intros Hn.
  cbn [rfind]. rewrite IH by set_solver. cbn.
  destruct (N.eqb_spec a c); [set_solver|reflexivity].
Qed.

Lemma rfind_last c a b :
  c ∉ b -> rfind c (a ++ c :: b) = Z.of_nat (length a).
Proof.
  intros Hb. induction a as [|x a IH].
  - cbn [app rfind length]. rewrite rfind_notin by exact Hb. cbn.
    rewrite N.eqb_refl. reflexivity.
  - cbn [app rfind length]. rewrite IH.
    destruct (Z.eqb_spec (Z.of_nat (length a)) (-1)); lia.
Qed.

Lemma basename_dir dir name :
  slash ∉ name -> basename (dir ++ slash :: name) = name.
Proof.
  intros H. unfold basename. rewrite rfind_last by exact H.
  replace (Z.to_nat (Z.of_nat (length dir) + 1)) with (length dir + 1) by lia.
  rewrite <- drop_drop, drop_app_length. reflexivity.
Qed.

Lemma basename_plain name : slash ∉ name -> basename name = name.
Proof. intros H. unfold basename. rewrite rfind_notin by exact H. reflexivity. Qed.

Lemma forallb_dot_false stem :
  stem <> [] -> dot ∉ stem -> forallb (fun c => (c =? dot)%N) stem = false.
Proof.
  destruct stem as [|a r]; [contradiction|]. intros _ H. cbn.
  destruct (N.eqb_spec a dot); [set_solver|reflexivity].
Qed.

Lemma splitext_stem stem ext :
  stem <> [] -> slash ∉ stem -> dot ∉ stem -> slash ∉ ext -> dot ∉ ext ->
  splitext (stem ++ dot :: ext) = (stem, dot :: ext).
Proof.
  intros Hne Hs Hd Hse Hde. unfold splitext.
  rewrite (rfind_notin slash)
    by (rewrite elem_of_app, elem_of_cons; intros [?|[?|?]];
        [auto|discriminate|auto]).
  rewrite (rfind_last dot) by assumption.
  destruct (Z.ltb_spec (-1) (Z.of_nat (length stem))); [|lia].
  rewrite Nat2Z.id. cbn [Z.add Z.to_nat drop].
  rewrite take_app_length, drop_app_length.
  rewrite forallb_dot_false by assumption. reflexivity.
Qed.

Section NameFacts.
Variable isdigit : char -> bool.

Lemma split_digits_spec s :
  s = (split_digits isdigit s).1 ++ (split_digits isdigit s).2
  /\ Forall (fun c => isdigit c = true) (split_digits isdigit s).1
  /\ (forall c, head (split_digits isdigit s).2 = Some c -> isdigit c = false).
Proof.
  induction s as [|c r (IH1 & IH2 & IH3)]; cbn [split_digits].
  - repeat split; [constructor|discriminate].
  - destruct (isdigit c) eqn:Hc.
    + destruct (split_digits isdigit r) as [a b]. cbn in *.
      repeat split; [congruence|constructor; assumption|exact IH3].
    + cbn. repeat split; [constructor|]. intros ? [= <-]. exact Hc.
Qed.

Lemma split_digits_app d c n :
  Forall (fun c => isdigit c = true) d -> isdigit c = false ->
  split_digits isdigit (d ++ c :: n) = (d, c :: n).
Proof.
  intros Hd Hc. induction Hd as [|a d Ha _ IH]; cbn [app split_digits].
  - rewrite Hc. reflexivity.
  - rewrite Ha, IH. reflexivity.
Qed.

Lemma utf8_0 : utf8 "0" <> [].
Proof. vm_compute. discriminate. Qed.

Lemma utf8_unknown : utf8 "未知用户" <> [].
Proof. vm_compute. discriminate. Qed.

(** X3.  The user id and user name taken from a persona file name: the
    name without directory and extension is cut after its leading
    digits; the digits are the id ("0" when there are none), the rest is
    the name ("未知用户" when nothing is left).  Neither is ever empty. *)
Theorem extract_user_info_parts (persona_file_path : text) :
  exists digits rest,
    (splitext (basename persona_file_path)).1 = digits ++ rest
    /\ Forall (fun c => isdigit c = true) digits
    /\ (forall c, head rest = Some c -> isdigit c = false)
    /\ _extract_user_info isdigit persona_file_path
       = (if bool_decide (digits = []) then utf8 "0" else digits,
          if bool_decide (rest = []) then utf8 "未知用户" else rest)
    /\ (_extract_user_info isdigit persona_file_path).1 <> []
    /\ (_extract_user_info isdigit persona_file_path).2 <> [].
Proof.
  unfold _extract_user_info.
  destruct (split_digits_spec (splitext (basename persona_file_path)).1)
    as (E & Hd & Hr).
  destruct (split_digits isdigit _) as [d n]. cbn [fst snd] in *.
  exists d, n. repeat split; try assumption; cbn [fst snd].
  - case_bool_decide; [apply utf8_0|assumption].
  - case_bool_decide; [apply utf8_unknown|assumption].
Qed.

(** X4.  For a persona file [dir/stem.ext] whose stem is digits followed
    by a name, the id is the digits and the name is the rest, and the
    session of the runner is named by the stem: the id of the session is
    id + name, never the time stamp. *)
Theorem runner_session_id (now dir digits name ext : text) (c : char) :
  digits <> [] -> Forall (fun c => isdigit c = true) digits ->
  isdigit c = false ->
  slash ∉ digits ++ c :: name -> dot ∉ digits ++ c :: name ->
  slash ∉ ext -> dot ∉ ext ->
  let path := dir ++ slash :: (digits ++ c :: name) ++ dot :: ext in
  _extract_user_info isdigit path = (digits, c :: name)
  /\ _generate_session_id now (runner_system isdigit path)
     = digits ++ c :: name.
Proof.
  intros Hne Hd Hc Hs Hdot Hse Hde path.
  assert (E : _extract_user_info isdigit path = (digits, c :: name)).
  { unfold _extract_user_info, path.
    rewrite basename_dir.
    2:{ intros Hin. apply elem_of_app in Hin as [Hin|Hin]; [auto|].
        apply elem_of_cons in Hin as [Hin|Hin]; [discriminate|auto]. }
    rewrite splitext_stem; try assumption.
    2:{ destruct digits; [contradiction|discriminate]. }
    cbn [fst]. rewrite split_digits_app by assumption.
    rewrite bool_decide_false by assumption.
    rewrite bool_decide_false by discriminate. reflexivity. }
  split; [exact E|].
  unfold runner_system. rewrite E. unfold _generate_session_id. cbn.
  destruct digits; [contradiction|reflexivity].
Qed.

End NameFacts.

(** *** The displayed name *)

Lemma filter_nonblank_nil s :
  filter (fun c => isspace c = false) s = [] <->
  Forall (fun c => isspace c = true) s.
Proof.
  unfold text in *. induction s as [|c r IH]; [split; constructor|].
  destruct (isspace c) eqn:Hc.
  - rewrite filter_cons_False by (rewrite Hc; discriminate).
    rewrite IH. split; [intros H; constructor; assumption|].
    intros H. inversion H; assumption.
  - rewrite filter_cons_True by exact Hc.
    split; [discriminate|]. intros H. inversion H; congruence.
Qed.

Lemma py_split_nil s :
  py_split s = [] <-> Forall (fun c => isspace c = true) s.
Proof.
  rewrite <- filter_nonblank_nil, <- concat_py_split.
  split; [intros ->; reflexivity|].
  intros H. pose proof (py_split_words s) as Hw.
  destruct (py_split s) as [|w ws]; [reflexivity|].
  inversion Hw as [|? ? [Hne _] _]; subst.
  destruct w; [contradiction|discriminate].
Qed.

Lemma filter_nonblank_lstrip s :
  filter (fun c => isspace c = false) (lstrip_with isspace s)
  = filter (fun c => isspace c = false) s.
Proof.
  unfold text in *. induction s as [|c r IH]; [reflexivity|].
  cbn [lstrip_with]. destruct (isspace c) eqn:Hc; [|reflexivity].
  rewrite (filter_cons_False _ c) by (rewrite Hc; discriminate). exact IH.
Qed.

Lemma filter_nonblank_strip s :
  filter (fun c => isspace c = false) (strip_with isspace s)
  = filter (fun c => isspace c = false) s.
Proof.
  unfold strip_with, rstrip_with. unfold text in *.
  rewrite filter_reverse, filter_nonblank_lstrip. unfold text.
  rewrite filter_reverse, reverse_involutive.
  apply filter_nonblank_lstrip.
Qed.

Lemma py_split_strip_nil s :
  py_split (strip_with isspace s) = [] <->
  Forall (fun c => isspace c = true) s.
Proof.
  rewrite py_split_nil, <- !filter_nonblank_nil, filter_nonblank_strip.
  reflexivity.
Qed.

Lemma word_default_name : word (utf8 "虚拟用户").
Proof. split; [vm_compute; discriminate|]. vm_compute. repeat constructor. Qed.

(** X5.  The displayed name of a virtual user is one word: not empty,
    without a blank.  Reading it fails in one way only, with an
    [IndexError]. *)
Theorem extract_name_result (persona_content : text) :
  match _extract_name persona_content with
  | Ret name => word name
  | Raise e => e = IndexError
  | Beyond => False
  end.
Proof.
  unfold _extract_name.
  induction (split_on newline persona_content) as [|line rest IH];
    cbn [name_of_lines]; [apply word_default_name|].
  destruct (labelled line); [|exact IH].
  destruct (split_on fullwidth_colon line) as [|a [|part tail]]; try exact IH.
  pose proof (py_split_words (strip_with isspace part)) as Hw.
  destruct (py_split (strip_with isspace part)) as [|name ws]; [reflexivity|].
  inversion Hw; assumption.
Qed.

(** X6.  Reading the name raises [IndexError] exactly when the first line
    that carries a label (姓名 or 名字) and a full-width colon has
    nothing but blanks between that colon and the next one or the end of
    the line. *)
Theorem extract_name_raises_iff (persona_content : text) :
  _extract_name persona_content = Raise IndexError <->
  exists before line after a part tail,
    split_on newline persona_content = before ++ line :: after
    /\ Forall (fun l => labelled l = false
                        \/ exists w, split_on fullwidth_colon l = [w]) before
    /\ labelled line = true
    /\ split_on fullwidth_colon line = a :: part :: tail
    /\ Forall (fun c => isspace c = true) part.
Proof.
  unfold _extract_name.
  assert (Hsplit : forall l, split_on fullwidth_colon l <> []).
  { intros l. induction l as [|c r IH]; cbn; [discriminate|].
    destruct (c =? fullwidth_colon)%N; [discriminate|].
    destruct (split_on fullwidth_colon r); [contradiction|discriminate]. }
  induction (split_on newline persona_content) as [|line rest IH];
    cbn [name_of_lines].
  - split; [discriminate|].
    intros (before & ? & ? & ? & ? & ? & E & _). destruct before; discriminate.
  - destruct (labelled line) eqn:Hl.
    + destruct (split_on fullwidth_colon line) as [|a [|part tail]] eqn:Hs.
      * destruct (Hsplit line Hs).
      * rewrite IH. split.
        -- intros (before & l & after & a' & p & t & E & Hb & H1 & H2 & H3).
           exists (line :: before), l, after, a', p, t.
           split; [cbn; congruence|].
           split; [constructor; [right; eauto|assumption]|].
           repeat split; assumption.
        -- intros (before & l & after & a' & p & t & E & Hb & H1 & H2 & H3).
           destruct before as [|b0 before]; cbn in E; injection E as E1 E2; subst.
           { congruence. }
           inversion Hb; subst. eauto 12.
      * split.
        -- intros H. exists [], line, rest, a, part, tail.
           repeat split; try assumption; [constructor|].
           apply py_split_strip_nil.
           destruct (py_split (strip_with isspace part)); [reflexivity|discriminate].
        -- intros (before & l & after & a' & p & t & E & Hb & H1 & H2 & H3).
           destruct before as [|b0 before]; cbn in E; injection E as E1 E2; subst.
           ++ rewrite Hs in H2. injection H2 as <- <- <-.
              apply py_split_strip_nil in H3. rewrite H3. reflexivity.
           ++ inversion Hb as [|? ? [Hf|[w Hw]] ?]; subst; congruence.
    + rewrite IH. split.
      * intros (before & l & after & a' & p & t & E & Hb & H1 & H2 & H3).
        exists (line :: before), l, after, a', p, t.
        split; [cbn; congruence|].
        split; [constructor; [left; assumption|assumption]|].
        repeat split; assumption.
      * intros (before & l & after & a' & p & t & E & Hb & H1 & H2 & H3).
        destruct before as [|b0 before]; cbn in E; injection E as E1 E2; subst.
        { congruence. }
        inversion Hb; subst. eauto 12.
Qed.

(** ** The session with its files *)

Lemma on_session_eq {A} (m : M machine A) k o x :
  m (on k) = (o, x) ->
  on_session m k
  = (o, {| on := x; session_id := session_id k; disk := disk k |}).
Proof. unfold on_session. intros ->. reflexivity. Qed.

Lemma _clean_content_optional q :
  _clean_content (py_optional q) = Ret (clean_text (default [] q)).
Proof. destruct q as [s|]; [apply _clean_content_str|reflexivity]. Qed.

Lemma save_question_eq d name r q m k :
  save_question d name r q m k
  = (Ret tt,
     with_conversations
       (fun c => <[session_id k :=
                     default [] (c !! session_id k)
                     ++ [CsvRow (question_row (session_id k) d name r q m)]]> c)
       k).
Proof.
  unfold save_question. unfold bind at 1. cbn [get].
  unfold bind at 1, lift_outcome. rewrite _clean_content_optional.
  reflexivity.
Qed.

Lemma save_user_response_eq d name r t m k :
  save_user_response d name r t m k
  = (Ret tt,
     with_conversations
       (fun c => <[session_id k :=
                     default [] (c !! session_id k)
                     ++ [CsvRow (response_row (session_id k) d name r t m)]]> c)
       k).
Proof.
  unfold save_user_response. unfold bind at 1. cbn [get].
  unfold bind at 1, lift_outcome. rewrite _clean_content_str.
  reflexivity.
Qed.

Lemma save_dimension_score_eq d name sc lv re k :
  save_dimension_score d name sc lv re k
  = match _clean_content re with
    | Ret t =>
      (Ret tt,
       with_conversations
         (fun c => <[session_id k :=
                       default [] (c !! session_id k)
                       ++ [CsvRow (score_row (session_id k) d name sc lv t)]]> c)
         k)
    | Raise e => (Raise e, k)
    | Beyond => (Beyond, k)
    end.
Proof.
  unfold save_dimension_score. unfold bind at 1. cbn [get].
  unfold bind at 1, lift_outcome.
  destruct (_clean_content re); reflexivity.
Qed.

Lemma save_dimension_score_eq_bind {A} d name sc lv re (f : unit -> M desk A) k :
  bind (save_dimension_score d name sc lv re) f k
  = match _clean_content re with
    | Ret t =>
      f tt
        (with_conversations
           (fun c => <[session_id k :=
                         default [] (c !! session_id k)
                         ++ [CsvRow (score_row (session_id k) d name sc lv t)]]> c)
           k)
    | Raise e => (Raise e, k)
    | Beyond => (Beyond, k)
    end.
Proof.
  unfold bind at 1. rewrite save_dimension_score_eq.
  destruct (_clean_content re); reflexivity.
Qed.

Lemma _clean_content_cases v :
  (exists t, _clean_content v = Ret t)
  \/ _clean_content v = Raise AttributeError.
Proof.
  unfold _clean_content. destruct (truthy v); cbn; [|eauto].
  destruct v; eauto.
Qed.

Lemma appended_nil k : is_Some (conversations (disk k) !! session_id k) ->
  appended k k [].
Proof.
  intros [t Ht]. split; [reflexivity|]. rewrite Ht. cbn.
  rewrite app_nil_r. symmetry. apply insert_id. exact Ht.
Qed.

Lemma appended_trans k k1 k2 r1 r2 :
  appended k k1 r1 -> appended k1 k2 r2 -> appended k k2 (r1 ++ r2).
Proof.
  intros [E1 H1] [E2 H2]. split; [congruence|].
  rewrite H2, E1, H1. rewrite lookup_insert_eq. cbn.
  rewrite insert_insert_eq, map_app, app_assoc. reflexivity.
Qed.

(** *** The session behind the files *)

Lemma silent_save_question d name r q m : silent (save_question d name r q m).
Proof. intros k. rewrite save_question_eq. split; [reflexivity|]. now left. Qed.

Lemma silent_save_user_response d name r t m :
  silent (save_user_response d name r t m).
Proof. intros k. rewrite save_user_response_eq. split; [reflexivity|]. now left. Qed.

Lemma silent_save_dimension_score d name sc lv re :
  silent (save_dimension_score d name sc lv re).
Proof.
  intros k. rewrite save_dimension_score_eq.
  destruct (_clean_content_cases re) as [[t ->]| ->]; cbn; auto.
Qed.

Lemma silent_save_final_summary t a l c : silent (save_final_summary t a l c).
Proof. intros k. split; [reflexivity|]. now left. Qed.

Lemma silent__save_assessment_report r : silent (_save_assessment_report r).
Proof. intros k. split; [reflexivity|]. now left. Qed.

Lemma refines_on_session {A} (m : M machine A) : refines (on_session m) m.
Proof.
  intros k. left. unfold on_session. destruct (m (on k)). reflexivity.
Qed.

Lemma refines_ret {A} (a : A) : refines (ret a) (ret a).
Proof. intros k. now left. Qed.

Lemma refines_require {A} e (o : option A) : refines (require e o) (require e o).
Proof. intros k. left. destruct o; reflexivity. Qed.

Lemma refines_lift_outcome {A} (o : outcome A) :
  refines (lift_outcome o) (lift_outcome o).
Proof. intros k. now left. Qed.

Lemma refines_bind {A B} (m' : M desk A) (m : M machine A)
    (f' : A -> M desk B) (f : A -> M machine B) :
  refines m' m -> (forall a, refines (f' a) (f a)) ->
  refines (bind m' f') (bind m f).
Proof.
  intros Hm Hf k. unfold bind.
  destruct (Hm k) as [E|E]; destruct (m' k) as [[a|e|] k1]; cbn in *.
  - rewrite E. apply Hf.
  - rewrite E. now left.
  - rewrite E. now left.
  - discriminate.
  - right. injection E as ->. reflexivity.
  - discriminate.
Qed.

Lemma refines_skip {A} (c : M desk unit) (m' : M desk A) (m : M machine A) :
  silent c -> refines m' m -> refines (bind c (fun _ => m')) m.
Proof.
  intros Hc Hm k. unfold bind.
  destruct (Hc k) as [E [Ho|Ho]]; destruct (c k) as [[[]|e|] k1]; cbn in *;
    try discriminate.
  - rewrite <- E. apply Hm.
  - right. injection Ho as ->. reflexivity.
Qed.

Arguments rounds_total : simpl never.
Arguments scored_part : simpl never.
Arguments rounds_of : simpl never.
Arguments _clean_content : simpl never.

Section RecordedFacts.
Variable client : nat -> completion.
Variable json_loads : text -> outcome json.

Lemma refines__complete_assessment final :
  refines (Recorded._complete_assessment final) (_complete_assessment final).
Proof.
  unfold Recorded._complete_assessment, _complete_assessment.
  apply refines_bind; [apply refines_on_session|intros _].
  apply refines_bind; [apply refines_on_session|intros scores].
  apply refines_bind; [apply refines_lift_outcome|intros total].
  apply refines_bind; [apply refines_lift_outcome|intros average].
  apply refines_skip; [apply silent__save_assessment_report|].
  apply refines_skip; [apply silent_save_final_summary|].
  apply refines_bind; [apply refines_on_session|intros _].
  apply refines_ret.
Qed.

Lemma refines__advance_to_next_dimension current info prev :
  refines (Recorded._advance_to_next_dimension client current info prev)
    (_advance_to_next_dimension client current info prev).
Proof.
  unfold Recorded._advance_to_next_dimension, _advance_to_next_dimension.
  do 4 (apply refines_bind; [apply refines_on_session|intros _]).
  apply refines_bind; [apply refines_on_session|intros g].
  do 2 (apply refines_bind; [apply refines_on_session|intros _]).
  apply refines_bind; [apply refines_on_session|intros q].
  do 2 (apply refines_bind; [apply refines_on_session|intros _]).
  apply refines_skip; [apply silent_save_question|].
  apply refines_ret.
Qed.

Lemma refines__score_current_dimension diag :
  refines (Recorded._score_current_dimension client json_loads diag)
    (_score_current_dimension client json_loads diag).
Proof.
  unfold Recorded._score_current_dimension, _score_current_dimension.
  apply refines_bind; [apply refines_on_session|intros s].
  apply refines_bind; [apply refines_require|intros info].
  apply refines_bind; [apply refines_on_session|intros scoring].
  apply refines_bind; [apply refines_on_session|intros _].
  apply refines_skip; [apply silent_save_dimension_score|].
  apply refines_bind; [apply refines_on_session|intros adv].
  destruct adv.
  - apply refines__advance_to_next_dimension.
  - apply refines__complete_assessment.
Qed.

Lemma refines_process_user_response answer :
  refines (Recorded.process_user_response client json_loads answer)
    (process_user_response client json_loads answer).
Proof.
  unfold Recorded.process_user_response, process_user_response.
  apply refines_bind; [apply refines_on_session|intros s].
  destruct (negb _); [apply refines_ret|].
  apply refines_bind; [apply refines_on_session|intros _].
  apply refines_bind; [apply refines_on_session|intros s1].
  apply refines_bind; [apply refines_require|intros li].
  apply refines_bind; [apply refines_require|intros info].
  apply refines_skip; [apply silent_save_user_response|].
  assert (Hc : refines
    (s0 <- on_session this;;
     next_question <- on_session
       (generate_question client (user_responses (state s0))
          (interaction_count (current_work_state s0)));;
     on_session (update (with_state (fun t =>
       set_interactions (interactions t ++ [next_question]) t)));;;
     on_session (update (with_work (fun t =>
       set_interaction_count (interaction_count t + 1) t)));;;
     s2 <- on_session this;;
     save_question (dimension_id info) (dimension_name info)
       (interaction_count (current_work_state s2))
       (i_question next_question) (i_mode next_question);;;
     ret (RContinue (i_question next_question) (i_mode next_question)
            (interaction_count (current_work_state s2))
            (dimension_name info)))
    (s0 <- this;;
     next_question <- generate_question client (user_responses (state s0))
                        (interaction_count (current_work_state s0));;
     update (with_state (fun t =>
       set_interactions (interactions t ++ [next_question]) t));;;
     update (with_work (fun t =>
       set_interaction_count (interaction_count t + 1) t));;;
     s2 <- this;;
     ret (RContinue (i_question next_question) (i_mode next_question)
            (interaction_count (current_work_state s2))
            (dimension_name info)))).
  { apply refines_bind; [apply refines_on_session|intros s0].
    apply refines_bind; [apply refines_on_session|intros q].
    do 2 (apply refines_bind; [apply refines_on_session|intros _]).
    apply refines_bind; [apply refines_on_session|intros s2].
    apply refines_skip; [apply silent_save_question|].
    apply refines_ret. }
  destruct (3 <=? _); [|exact Hc].
  apply refines_bind; [apply refines_on_session|intros diag].
  apply refines_bind; [apply refines_on_session|intros _].
  apply refines_bind; [apply refines_lift_outcome|intros _].
  destruct (_ && _); [apply refines__score_current_dimension|exact Hc].
Qed.

(** *** The calls of one step, in full *)

Lemma generate_question_full rs c x info g :
  n_current_dimension (navigator (self x)) = Some info ->
  dimension_guidance (navigator (self x)) = Some g ->
  exists q x',
    generate_question client rs c x
    = (Ret {| i_interaction_count := c;
              i_mode := select_interaction_mode rs c;
              i_question := q; i_dimension := dimension_name info |}, x')
    /\ director (self x') = director (self x)
    /\ state (self x') = state (self x)
    /\ current_work_state (self x') = current_work_state (self x)
    /\ user_id (self x') = user_id (self x)
    /\ user_name (self x') = user_name (self x)
    /\ navigator (self x')
       = {| current_mode := select_interaction_mode rs c;
            interaction_history :=
              interaction_history (navigator (self x))
              ++ [{| i_interaction_count := c;
                     i_mode := select_interaction_mode rs c;
                     i_question := q; i_dimension := dimension_name info |}];
            n_current_dimension := Some info;
            dimension_guidance := Some g |}
    /\ ledger (outside x') = ledger (outside x).
Proof.
  intros Hi Hg.
  destruct (_call_llm_returns client 3 (outside x)) as (q & w' & Hq & _ & Hl & _).
  unfold generate_question, bind, update, modify, read, require, in_world, ret.
  cbn. rewrite Hi, Hg. cbn. rewrite Hq. cbn.
  eexists _, _. split; [reflexivity|]. cbn. rewrite Hi, Hg.
  repeat split; assumption.
Qed.

Lemma generate_dimension_guidance_full x name :
  cctdi_dimensions (d_current_dimension (director (self x))) = Some name ->
  exists q w',
    generate_dimension_guidance client x
    = (Ret {| g_dimension_id := d_current_dimension (director (self x));
              g_dimension_name := name; g_guidance := q |},
       {| self := self x; outside := w' |})
    /\ ledger w' = ledger (outside x).
Proof.
  intros Hn.
  destruct (_call_llm_returns client 3 (outside x)) as (q & w' & Hq & _ & Hl & _).
  unfold generate_dimension_guidance, bind, read, require, in_world, ret.
  cbn. rewrite Hn. cbn. rewrite Hq. cbn.
  eexists _, _. split; [reflexivity|]. exact Hl.
Qed.

Lemma advance_to_next_dimension_full v x d :
  d_current_dimension (director (self x)) = d -> 1 <= d <= 7 ->
  exists r x',
    advance_to_next_dimension v x = (Ret r, x')
    /\ state (self x') = state (self x)
    /\ current_work_state (self x') = current_work_state (self x)
    /\ navigator (self x') = navigator (self x)
    /\ user_id (self x') = user_id (self x)
    /\ user_name (self x') = user_name (self x)
    /\ outside x' = outside x
    /\ dimension_progress (director (self x'))
       = <[d := v]> (dimension_progress (director (self x)))
    /\ (if d <? 7
        then d_current_dimension (director (self x')) = d + 1
             /\ exists name, cctdi_dimensions (d + 1) = Some name
                  /\ r = Advanced (d + 1)
                           {| dimension_id := d + 1; dimension_name := name |}
        else d_current_dimension (director (self x')) = d
             /\ r = AllCompleted).
Proof.
  intros Hd Hr. unfold advance_to_next_dimension.
  mstep. mstep. rewrite Hd.
  destruct (Nat.ltb_spec d 7) as [Hlt|Hge].
  - destruct (cctdi_dimensions_Some (d + 1) ltac:(lia)) as [name Hn].
    mstep.
    erewrite bind_Ret;
      [|apply _get_current_dimension_info_spec with (name := name);
        cbn; rewrite Hd; exact Hn].
    cbn. unfold ret. rewrite Hd.
    eexists _, _. split; [reflexivity|]. cbn. rewrite Hd.
    repeat split. eexists. split; [exact Hn|reflexivity].
  - unfold ret. eexists _, _. split; [reflexivity|]. cbn. rewrite Hd.
    repeat split.
Qed.

Lemma _save_user_score_summary_eq total x :
  _save_user_score_summary total x
  = (Ret tt,
     {| self := self x;
        outside := set_ledger (ledger_after (self x) total (ledger (outside x)))
                     (outside x) |}).
Proof.
  unfold _save_user_score_summary, ledger_after. mstep.
  destruct (falsy (user_id (self x)) || falsy (user_name (self x))).
  - unfold ret, set_ledger. destruct x as [sx [? ? ?]]. reflexivity.
  - unfold in_world, modify. reflexivity.
Qed.

Lemma recorded__complete_assessment_eq final k :
  Recorded._complete_assessment final k
  = let s := with_state (set_status Completed) (self (on k)) in
    let scores := dimension_scores (state (self (on k))) in
    match sum_scores scores with
    | Ret total =>
      match over_7 total with
      | Ret average =>
        (Ret (RCompleted (report_of scores total average final)),
         {| on := {| self := s;
                     outside := set_ledger
                       (ledger_after (self (on k)) total
                          (ledger (outside (on k)))) (outside (on k)) |};
            session_id := session_id k;
            disk :=
              {| conversations :=
                   <[session_id k :=
                       default [] (conversations (disk k) !! session_id k)
                       ++ [CsvRow (summary_row (session_id k) total
                                     average)]]>
                     (conversations (disk k));
                 assessments :=
                   <[session_id k := report_of scores total average final]>
                     (assessments (disk k)) |} |})
      | Raise e =>
        (Raise e, {| on := {| self := s; outside := outside (on k) |};
                     session_id := session_id k; disk := disk k |})
      | Beyond =>
        (Beyond, {| on := {| self := s; outside := outside (on k) |};
                    session_id := session_id k; disk := disk k |})
      end
    | Raise e =>
      (Raise e, {| on := {| self := s; outside := outside (on k) |};
                   session_id := session_id k; disk := disk k |})
    | Beyond =>
      (Beyond, {| on := {| self := s; outside := outside (on k) |};
                  session_id := session_id k; disk := disk k |})
    end.
Proof.
  unfold Recorded._complete_assessment. mstep. mstep.
  unfold bind at 1, lift_outcome.
  destruct (sum_scores (dimension_scores (state (self (on k))))) as [total|e|];
    try reflexivity.
  unfold bind at 1.
  destruct (over_7 total) as [average|e|]; try reflexivity.
  mstep. mstep.
  erewrite bind_Ret; [|apply on_session_eq, _save_user_score_summary_eq].
  reflexivity.
Qed.

Lemma rounds_of_S d n :
  rounds_of d (S n) = rounds_of d n ++ [Question d (n + 1); Response d (n + 1)].
Proof.
  unfold rounds_of. rewrite seq_S, flat_map_app. cbn.
  replace (S n) with (n + 1) by lia. reflexivity.
Qed.

Lemma scored_part_snoc scores d sr :
  scored_part (scores ++ [(d, sr)])
  = scored_part scores ++ rounds_of d (interactions_analyzed sr) ++ [Score d].
Proof. unfold scored_part. rewrite flat_map_app. cbn. rewrite app_nil_r. reflexivity. Qed.

Lemma rounds_total_snoc scores d sr :
  rounds_total (scores ++ [(d, sr)])
  = rounds_total scores + interactions_analyzed sr.
Proof.
  unfold rounds_total. induction scores as [|kv scores IH]; cbn; [lia|].
  cbn in IH. rewrite IH. lia.
Qed.

Lemma transcript_append k k' rows new :
  transcript k rows -> session_id k' = session_id k ->
  conversations (disk k')
  = <[session_id k :=
        default [] (conversations (disk k) !! session_id k)
        ++ map CsvRow new]> (conversations (disk k)) ->
  Forall (fun r => c_session_id r = session_id k) new ->
  transcript k' (rows ++ new).
Proof.
  intros [Hf Hall] Hid Hc Hnew. split.
  - rewrite Hc, Hid, lookup_insert_eq, Hf. cbn. rewrite map_app. reflexivity.
  - rewrite Hid. apply Forall_app. split; assumption.
Qed.

Lemma recorded__advance_spec k d name prev :
  d_current_dimension (director (self (on k))) = d ->
  cctdi_dimensions d = Some name ->
  exists g q k',
    let info := {| dimension_id := d; dimension_name := name |} in
    let gd := {| g_dimension_id := d; g_dimension_name := name;
                 g_guidance := g |} in
    let i := {| i_interaction_count := 0; i_mode := Normal; i_question := q;
                i_dimension := name |} in
    Recorded._advance_to_next_dimension client d info prev k
    = (Ret (RDimensionCompleted (dimension prev, score prev, sr_level prev)
              name g q d), k')
    /\ session_id k' = session_id k
    /\ director (self (on k')) = director (self (on k))
    /\ user_id (self (on k')) = user_id (self (on k))
    /\ user_name (self (on k')) = user_name (self (on k))
    /\ state (self (on k'))
       = {| st_status := st_status (state (self (on k)));
            current_dimension := Some d; interactions := [i];
            user_responses := [];
            dimension_scores := dimension_scores (state (self (on k))) |}
    /\ current_work_state (self (on k'))
       = {| ws_dimension_info := Some info; ws_guidance := Some gd;
            interaction_count := 1; diagnostic_results := [];
            ready_for_scoring := false |}
    /\ navigator (self (on k'))
       = {| current_mode := Normal;
            interaction_history :=
              interaction_history (navigator (self (on k))) ++ [i];
            n_current_dimension := Some info;
            dimension_guidance := Some gd |}
    /\ ledger (outside (on k')) = ledger (outside (on k))
    /\ assessments (disk k') = assessments (disk k)
    /\ conversations (disk k')
       = <[session_id k :=
             default [] (conversations (disk k) !! session_id k)
             ++ [CsvRow (question_row (session_id k) d name 1 q Normal)]]>
           (conversations (disk k)).
Proof.
  intros Hd Hn. unfold Recorded._advance_to_next_dimension.
  do 4 mstep.
  match goal with |- context [bind (on_session (generate_dimension_guidance client)) _ ?y] =>
    destruct (generate_dimension_guidance_full (on y) name) as (g & w1 & Hg & Hl1);
      [cbn; rewrite Hd; exact Hn|] end.
  erewrite bind_Ret; [|apply on_session_eq, Hg]. cbn.
  do 2 mstep.
  match goal with |- context [bind (on_session (generate_question client ?rs ?c)) _ ?y] =>
    edestruct (generate_question_full rs c (on y)) as
      (q & x1 & Hq & H1 & H2 & H3 & H4 & H5 & H6 & H7);
      [reflexivity|reflexivity|] end.
  erewrite bind_Ret; [|apply on_session_eq, Hq]. cbn.
  do 2 mstep.
  erewrite bind_Ret; [|apply save_question_eq]. cbn.
  cbn in Hl1, H1, H2, H3, H4, H5, H6, H7.
  unfold ret. rewrite ?Hd.
  exists g, q. eexists. split; [reflexivity|]. cbn.
  rewrite ?H1, ?H2, ?H3, ?H4, ?H5, ?H6, ?H7, ?Hd. cbn.
  repeat split; try assumption.
Qed.

Lemma dict_get_snoc_fresh {V} (k0 : nat) (v0 : V) d j :
  k0 ∉ map fst d ->
  dict_get j (d ++ [(k0, v0)])
  = if decide (j = k0) then Some v0 else dict_get j d.
Proof.
  induction d as [|[k' v'] d IH]; cbn; intros Hn.
  - destruct (decide (k0 = j)); destruct (decide (j = k0)); congruence.
  - destruct (decide (k' = j)) as [->|Hne].
    + destruct (decide (j = k0)) as [->|]; [|reflexivity].
      exfalso. apply Hn. left.
    + apply IH. intros Hin. apply Hn. right. exact Hin.
Qed.

Lemma progress_snoc (P : gmap nat json) scores d sr :
  d ∉ map fst scores ->
  (forall j, P !! j = score <$> dict_get j scores) ->
  forall j, <[d := score sr]> P !! j
            = score <$> dict_get j (scores ++ [(d, sr)]).
Proof.
  intros Hn HP j. rewrite dict_get_snoc_fresh by exact Hn.
  destruct (decide (j = d)) as [->|Hne].
  - rewrite lookup_insert_eq. reflexivity.
  - rewrite lookup_insert_ne by congruence. apply HP.
Qed.

Lemma seq_snoc_keys {V} (scores : list (nat * V)) d v :
  1 <= d -> map fst scores = seq 1 (d - 1) ->
  map fst (scores ++ [(d, v)]) = seq 1 d.
Proof.
  intros Hd Hk. rewrite map_app, Hk. cbn.
  replace (seq 1 d) with (seq 1 (S (d - 1))) by (f_equal; lia).
  rewrite seq_S. do 2 f_equal. lia.
Qed.

Lemma fresh_key {V} (scores : list (nat * V)) d :
  map fst scores = seq 1 (d - 1) -> d ∉ map fst scores.
Proof. intros ->. intros Hin. apply elem_of_seq in Hin. lia. Qed.

(** Scoring the current dimension, from the state in which the last
    response has been recorded. *)
Lemma recorded__score_spec diag k d name rows :
  st_status (state (self (on k))) = Running ->
  d_current_dimension (director (self (on k))) = d -> 1 <= d <= 7 ->
  cctdi_dimensions d = Some name ->
  ws_dimension_info (current_work_state (self (on k)))
  = Some {| dimension_id := d; dimension_name := name |} ->
  current_dimension (state (self (on k))) = Some d ->
  map fst (dimension_scores (state (self (on k)))) = seq 1 (d - 1) ->
  scores_ok (dimension_scores (state (self (on k)))) ->
  3 <= length (interactions (state (self (on k)))) <= 5 ->
  length (user_responses (state (self (on k))))
  = length (interactions (state (self (on k)))) ->
  (forall j, dimension_progress (director (self (on k))) !! j
             = score <$> dict_get j (dimension_scores (state (self (on k))))) ->
  (exists earlier,
     interaction_history (navigator (self (on k)))
     = earlier ++ interactions (state (self (on k)))
     /\ length earlier = rounds_total (dimension_scores (state (self (on k))))) ->
  transcript k rows ->
  map entry_of rows
  = scored_part (dimension_scores (state (self (on k))))
    ++ rounds_of d (length (interactions (state (self (on k))))) ->
  exists o k',
    Recorded._score_current_dimension client json_loads diag k = (o, k')
    /\ session_id k' = session_id k
    /\ user_id (self (on k')) = user_id (self (on k))
    /\ user_name (self (on k')) = user_name (self (on k))
    /\ match o with
       | Ret (RDimensionCompleted prev name' g q p) =>
         recorded_inv k' (d + 1)
         /\ p = d + 1 /\ cctdi_dimensions (d + 1) = Some name'
         /\ ledger (outside (on k')) = ledger (outside (on k))
         /\ assessments (disk k') = assessments (disk k)
         /\ exists sr cleaned,
              dimension_scores (state (self (on k')))
              = dimension_scores (state (self (on k))) ++ [(d, sr)]
              /\ accepted (score sr)
              /\ interactions_analyzed sr
                 = length (interactions (state (self (on k))))
              /\ prev = (dimension sr, score sr, sr_level sr)
              /\ _clean_content (reasoning sr) = Ret cleaned
              /\ transcript k'
                   (rows ++ [score_row (session_id k) d name (score sr)
                               (sr_level sr) cleaned;
                             question_row (session_id k) (d + 1) name' 1 q
                               Normal])
       | Ret (RCompleted report) =>
         d = 7 /\ recorded_done k'
         /\ completed_with (on k) (on k') report
         /\ assessments (disk k')
            = <[session_id k := report]> (assessments (disk k))
         /\ exists sr cleaned average,
              dimension_scores (state (self (on k')))
              = dimension_scores (state (self (on k))) ++ [(d, sr)]
              /\ accepted (score sr)
              /\ interactions_analyzed sr
                 = length (interactions (state (self (on k))))
              /\ _clean_content (reasoning sr) = Ret cleaned
              /\ over_7 (total_score report) = Ret average
              /\ transcript k'
                   (rows ++ [score_row (session_id k) d name (score sr)
                               (sr_level sr) cleaned;
                             summary_row (session_id k) (total_score report)
                               average])
       | Ret _ => False
       | _ => True
       end.
Proof.
  intros Hst Hd Hr Hname Hinfo Hcur Hk Hs Hlen Hresp Hprog (earlier & Hhist & Hel)
    Htr Hent.
  unfold Recorded._score_current_dimension. mstep. rewrite Hinfo. mstep.
  pose proof (score_dimension_ledger client json_loads
    {| dimension_id := d; dimension_name := name |}
    (ws_guidance (current_work_state (self (on k))))
    (interactions (state (self (on k))))
    (user_responses (state (self (on k)))) diag (outside (on k))) as Hl.
  destruct (score_dimension client json_loads _ _ _ _ diag (outside (on k)))
    as [[sr|e|] w1] eqn:Hsc; cbn in Hl.
  2:{ erewrite bind_Raise; [|apply on_session_eq, in_world_eq, Hsc].
      eexists _, _. split; [reflexivity|]. repeat split. }
  2:{ erewrite bind_Beyond; [|apply on_session_eq, in_world_eq, Hsc].
      eexists _, _. split; [reflexivity|]. repeat split. }
  erewrite bind_Ret; [|apply on_session_eq, in_world_eq, Hsc]. cbn. mstep.
  apply score_dimension_accepted in Hsc as (Hacc & Hia & _).
  rewrite save_dimension_score_eq_bind.
  destruct (_clean_content_cases (reasoning sr)) as [[cleaned Hclean]|Hclean];
    rewrite Hclean.
  2:{ eexists _, _. split; [reflexivity|]. repeat split. }
  cbn.
  set (k2 := with_conversations _ _).
  assert (Hx2 : dimension_scores (state (self (on k2)))
                = dimension_scores (state (self (on k))) ++ [(d, sr)]).
  { cbn. rewrite dict_set_fresh by (apply fresh_key, Hk). reflexivity. }
  assert (Hst2 : state (self (on k2))
                 = set_dimension_scores
                     (dimension_scores (state (self (on k))) ++ [(d, sr)])
                     (state (self (on k)))).
  { cbn. rewrite dict_set_fresh by (apply fresh_key, Hk). reflexivity. }
  assert (Hd2 : director (self (on k2)) = director (self (on k)))
    by reflexivity.
  assert (Hn2 : navigator (self (on k2)) = navigator (self (on k)))
    by reflexivity.
  assert (Hw2 : current_work_state (self (on k2))
                = current_work_state (self (on k))) by reflexivity.
  assert (Hu2 : user_id (self (on k2)) = user_id (self (on k)))
    by reflexivity.
  assert (Hm2 : user_name (self (on k2)) = user_name (self (on k)))
    by reflexivity.
  assert (Ho2 : outside (on k2) = w1) by reflexivity.
  assert (Hi2 : session_id k2 = session_id k) by reflexivity.
  assert (Ha2 : assessments (disk k2) = assessments (disk k)) by reflexivity.
  assert (Hc2 : conversations (disk k2)
                = <[session_id k :=
                      default [] (conversations (disk k) !! session_id k)
                      ++ map CsvRow [score_row (session_id k) d name (score sr)
                                       (sr_level sr) cleaned]]>
                    (conversations (disk k))) by reflexivity.
  clearbody k2.
  pose proof (transcript_append k k2 rows _ Htr Hi2 Hc2
                ltac:(repeat constructor)) as Htr2.
  assert (Hs2 : scores_ok (dimension_scores (state (self (on k2))))).
  { rewrite Hx2. apply Forall_app. split; [exact Hs|].
    constructor; [|constructor]. cbn. split; [exact Hacc|lia]. }
  assert (Hk2 : map fst (dimension_scores (state (self (on k2)))) = seq 1 d).
  { rewrite Hx2. apply seq_snoc_keys; [lia|exact Hk]. }
  destruct (advance_to_next_dimension_full (score sr) (on k2) d)
    as (adv & x3 & Hadv & E1 & E2 & E3 & E4 & E5 & E6 & E7 & Hcase);
    [rewrite Hd2; exact Hd|exact Hr|].
  erewrite bind_Ret; [|apply on_session_eq, Hadv]. cbn.
  set (k3 := {| on := x3; session_id := session_id k2; disk := disk k2 |}).
  assert (Hprog3 : forall j,
    dimension_progress (director (self (on k3))) !! j
    = score <$> dict_get j (dimension_scores (state (self (on k3))))).
  { intros j. cbn. rewrite E7, E1, Hx2, Hd2.
    apply progress_snoc; [apply fresh_key, Hk|exact Hprog]. }
  destruct (Nat.ltb_spec d 7) as [Hlt|Hge].
  - destruct Hcase as (Hd3 & name' & Hname' & ->).
    destruct (recorded__advance_spec k3 (d + 1) name' sr Hd3 Hname')
      as (g & q & k4 & Hrun & F0 & F1 & F2 & F3 & F4 & F5 & F6 & F7 & F8 & F9).
    cbv zeta in Hrun. rewrite Hrun.
    eexists _, _. split; [reflexivity|]. cbn in F0, F2, F3, F4, F7, F8, F9.
    split; [congruence|]. split; [congruence|]. split; [congruence|].
    assert (Hsc4 : dimension_scores (state (self (on k4)))
                   = dimension_scores (state (self (on k))) ++ [(d, sr)]).
    { rewrite F4. cbn. rewrite E1. exact Hx2. }
    assert (Htr4 : transcript k4
      (rows ++ [score_row (session_id k) d name (score sr) (sr_level sr) cleaned;
                question_row (session_id k) (d + 1) name' 1 q Normal])).
    { replace (rows ++ [_; _]) with
        ((rows ++ [score_row (session_id k) d name (score sr) (sr_level sr)
                     cleaned])
         ++ [question_row (session_id k) (d + 1) name' 1 q Normal])
        by (rewrite <- app_assoc; reflexivity).
      apply (transcript_append k2 k4); [exact Htr2|congruence| |].
      - rewrite F9, Hi2. reflexivity.
      - rewrite Hi2. repeat constructor. }
    split.
    { split.
      - split; rewrite ?F1, ?F4, ?F5, ?F6; cbn; rewrite ?E1, ?Hst2; cbn;
          try assumption; try lia; eauto.
        + rewrite <- Hx2. replace (d + 1 - 1) with d by lia. exact Hk2.
        + rewrite <- Hx2. exact Hs2.
      - rewrite F4. reflexivity.
      - rewrite F5, F4. reflexivity.
      - rewrite F5, F6. eexists _, _. repeat split. exact Hname'.
      - intros j. rewrite F1, F4. cbn. apply Hprog3.
      - rewrite F6, F4. cbn. rewrite E3, Hn2, E1, Hx2, Hhist.
        exists (earlier ++ interactions (state (self (on k)))).
        split; [reflexivity|].
        rewrite length_app, rounds_total_snoc. lia.
      - rewrite F4, F6. reflexivity.
      - eexists. split; [exact Htr4|].
        rewrite Hsc4, F4. cbn [user_responses length].
        rewrite map_app, Hent, scored_part_snoc, Hia.
        change (rounds_of (d + 1) 0) with (@nil entry).
        cbn. rewrite <- !app_assoc. reflexivity. }
    split; [reflexivity|]. split; [exact Hname'|].
    split; [rewrite F7; cbn; rewrite E6, Ho2; exact Hl|].
    split; [rewrite F8; cbn; exact Ha2|].
    exists sr, cleaned. split; [exact Hsc4|]. split; [exact Hacc|].
    split; [exact Hia|]. split; [reflexivity|]. split; [exact Hclean|exact Htr4].
  - destruct Hcase as (Hd3 & ->). rewrite recorded__complete_assessment_eq.
    cbn. rewrite E1, Hx2.
    assert (Hd7 : d = 7) by lia. rewrite Hd7 in *. clear Hd7.
    destruct (sum_scores _) as [total|e|] eqn:Hsum;
      [destruct (over_7 total) as [average|e|] eqn:Hdiv|..].
    + eexists _, _. split; [reflexivity|]. cbn.
      rewrite ?E4, ?E5.
      split; [exact Hi2|]. split; [exact Hu2|]. split; [exact Hm2|].
      split; [reflexivity|].
      assert (Htr4 : forall k4,
        session_id k4 = session_id k ->
        conversations (disk k4)
        = <[session_id k2 :=
              default [] (conversations (disk k2) !! session_id k2)
              ++ [CsvRow (summary_row (session_id k2) total average)]]>
            (conversations (disk k2)) ->
        transcript k4
          (rows ++ [score_row (session_id k) 7 name (score sr) (sr_level sr)
                      cleaned; summary_row (session_id k) total average])).
      { intros k4 Hid4 Hc4.
        replace (rows ++ [_; _]) with
          ((rows ++ [score_row (session_id k) 7 name (score sr) (sr_level sr)
                       cleaned])
           ++ [summary_row (session_id k) total average])
          by (rewrite <- app_assoc; reflexivity).
        apply (transcript_append k2 k4); [exact Htr2|congruence| |].
        - rewrite Hc4, Hi2. reflexivity.
        - rewrite Hi2. repeat constructor. }
      split.
      { split; cbn; rewrite ?E1, ?E2, ?E3, ?Hx2, ?Hw2, ?Hn2; cbn.
        - reflexivity.
        - rewrite <- Hx2. exact Hk2.
        - rewrite <- Hx2. exact Hs2.
        - rewrite Hst2. exact Hcur.
        - exact Hd3.
        - eauto.
        - intros j. specialize (Hprog3 j). cbn in Hprog3.
          rewrite E1, Hx2 in Hprog3. exact Hprog3.
        - rewrite Hhist, length_app, rounds_total_snoc. lia.
        - eexists. split; [apply Htr4; [exact Hi2|reflexivity]|].
          rewrite !map_app, Hent, scored_part_snoc, Hia. cbn.
          rewrite <- !app_assoc. reflexivity.
        - exists total, average, sr. split; [exact Hsum|].
          split; [exact Hdiv|].
          rewrite Hi2. apply lookup_insert_eq. }
      split.
      { unfold completed_with, ledger_after. cbn.
        rewrite ?E1, ?E4, ?E5, ?E6, ?Hx2, ?Hu2, ?Hm2, ?Ho2, ?Hl. cbn.
        split; [reflexivity|].
        split; [rewrite <- Hx2; exact Hk2|].
        split; [rewrite <- Hx2; exact Hs2|].
        exists sr, average. rewrite Hsum. repeat split. exact Hdiv. }
      split; [rewrite Hi2, Ha2; reflexivity|].
      exists sr, cleaned, average. split; [cbn; rewrite E1; exact Hx2|].
      split; [exact Hacc|].
      split; [exact Hia|]. split; [exact Hclean|].
      split; [exact Hdiv|apply Htr4; [exact Hi2|reflexivity]].
    + eexists _, _. split; [reflexivity|]. cbn. rewrite ?E4, ?E5.
      repeat split; assumption.
    + eexists _, _. split; [reflexivity|]. cbn. rewrite ?E4, ?E5.
      repeat split; assumption.
    + eexists _, _. split; [reflexivity|]. cbn. rewrite ?E4, ?E5.
      repeat split; assumption.
    + eexists _, _. split; [reflexivity|]. cbn. rewrite ?E4, ?E5.
      repeat split; assumption.
Qed.

Lemma recorded_step k d answer :
  recorded_inv k d ->
  exists name rows m,
    cctdi_dimensions d = Some name
    /\ transcript k rows
    /\ i_mode <$> last (interactions (state (self (on k)))) = Some m
    /\ exists o k',
         Recorded.process_user_response client json_loads answer k = (o, k')
         /\ session_id k' = session_id k
         /\ user_id (self (on k')) = user_id (self (on k))
         /\ user_name (self (on k')) = user_name (self (on k))
         /\ step_post k k' d name rows answer
              (response_row (session_id k) d name
                 (length (user_responses (state (self (on k)))) + 1) answer m)
              o.
Proof.
  intros [[Hst Hd Hr _ _ _ _ Hpend Hcap Hk Hs] Hcur Hcount
          (name & g & Hname & Hinfo & Hni & Hg & Hng & Hgid & Hgname)
          Hprog (earlier & Hhist & Hel) Hmode (rows & Htr & Hent)].
  destruct (length_last_Some (interactions (state (self (on k)))) ltac:(lia))
    as [li Hli].
  exists name, rows, (i_mode li).
  split; [exact Hname|]. split; [exact Htr|].
  split; [rewrite Hli; reflexivity|].
  set (r := length (user_responses (state (self (on k))))) in *.
  set (arow := response_row (session_id k) d name (r + 1) answer (i_mode li)).
  unfold Recorded.process_user_response. mstep. rewrite Hst. cbn.
  mstep. mstep. rewrite Hli. mstep. rewrite Hinfo. mstep.
  erewrite bind_Ret; [|apply save_user_response_eq]. cbn.
  rewrite length_app. cbn [length]. fold r. fold arow.
  set (k1 := with_conversations _ _).
  set (recorded := {| content := answer; interaction_id := r |}).
  assert (K1 : director (self (on k1)) = director (self (on k))) by reflexivity.
  assert (K2 : navigator (self (on k1)) = navigator (self (on k)))
    by reflexivity.
  assert (K3 : current_work_state (self (on k1))
               = current_work_state (self (on k))) by reflexivity.
  assert (K4 : user_id (self (on k1)) = user_id (self (on k))) by reflexivity.
  assert (K5 : user_name (self (on k1)) = user_name (self (on k)))
    by reflexivity.
  assert (K6 : state (self (on k1))
               = set_user_responses
                   (user_responses (state (self (on k))) ++ [recorded])
                   (state (self (on k)))) by reflexivity.
  assert (K7 : outside (on k1) = outside (on k)) by reflexivity.
  assert (K8 : session_id k1 = session_id k) by reflexivity.
  assert (K9 : assessments (disk k1) = assessments (disk k)) by reflexivity.
  assert (K10 : conversations (disk k1)
                = <[session_id k :=
                      default [] (conversations (disk k) !! session_id k)
                      ++ map CsvRow [arow]]> (conversations (disk k)))
    by reflexivity.
  clearbody k1.
  pose proof (transcript_append k k1 rows [arow] Htr K8 K10
                ltac:(repeat constructor)) as Htr1.
  assert (Hent1 : map entry_of (rows ++ [arow])
                  = scored_part (dimension_scores (state (self (on k))))
                    ++ rounds_of d (r + 1)).
  { rewrite map_app, Hent.
    replace (rounds_of d (r + 1)) with (rounds_of d (S r)) by (f_equal; lia).
    rewrite rounds_of_S, <- !app_assoc. reflexivity. }
  (* the part that asks the next question *)
  assert (Hcontinue : forall (y : desk),
    r + 1 < 5 ->
    director (self (on y)) = director (self (on k)) ->
    navigator (self (on y)) = navigator (self (on k)) ->
    user_id (self (on y)) = user_id (self (on k)) ->
    user_name (self (on y)) = user_name (self (on k)) ->
    ws_dimension_info (current_work_state (self (on y)))
    = ws_dimension_info (current_work_state (self (on k))) ->
    ws_guidance (current_work_state (self (on y)))
    = ws_guidance (current_work_state (self (on k))) ->
    interaction_count (current_work_state (self (on y)))
    = interaction_count (current_work_state (self (on k))) ->
    state (self (on y)) = state (self (on k1)) ->
    ledger (outside (on y)) = ledger (outside (on k)) ->
    session_id y = session_id k ->
    disk y = disk k1 ->
    exists o k',
      (s <- on_session this;;
       next_question <- on_session
         (generate_question client (user_responses (state s))
            (interaction_count (current_work_state s)));;
       on_session (update (with_state (fun t =>
         set_interactions (interactions t ++ [next_question]) t)));;;
       on_session (update (with_work (fun t =>
         set_interaction_count (interaction_count t + 1) t)));;;
       s <- on_session this;;
       save_question d name (interaction_count (current_work_state s))
         (i_question next_question) (i_mode next_question);;;
       ret (RContinue (i_question next_question) (i_mode next_question)
              (interaction_count (current_work_state s)) name))%run y
      = (o, k')
      /\ session_id k' = session_id k
      /\ user_id (self (on k')) = user_id (self (on k))
      /\ user_name (self (on k')) = user_name (self (on k))
      /\ step_post k k' d name rows answer arow o).
  { intros y Hlt Y1 Y2 Y3 Y4 Y5 Y6 Y7 Y8 Y9 Y10 Y11. mstep.
    match goal with |- context [bind (on_session (generate_question client ?a ?b)) _ ?z] =>
      destruct (generate_question_full a b (on z)
                  {| dimension_id := d; dimension_name := name |} g)
        as (q & x1 & Hq & H1 & H2 & H3 & H4 & H5 & H6 & H7);
        [cbn; rewrite Y2; exact Hni|cbn; rewrite Y2; exact Hng|] end.
    erewrite bind_Ret; [|apply on_session_eq, Hq]. cbn.
    cbn in H1, H2, H3, H4, H5, H6, H7.
    do 3 mstep.
    erewrite bind_Ret; [|apply save_question_eq]. cbn.
    unfold ret. eexists _, _. split; [reflexivity|]. cbn.
    rewrite ?H4, ?H5, ?Y3, ?Y4, ?Y10.
    split; [reflexivity|]. split; [reflexivity|]. split; [reflexivity|].
    unfold step_post. fold r.
    rewrite H3, Y7, Hcount, Hpend. fold r.
    assert (Htr2 : forall k2,
      session_id k2 = session_id k ->
      conversations (disk k2)
      = <[session_id k :=
            default [] (conversations (disk k1) !! session_id k)
            ++ [CsvRow (question_row (session_id k) d name (r + 1 + 1)
                          (i_question
                             {| i_interaction_count := r + 1;
                                i_mode := select_interaction_mode
                                  (user_responses (state (self (on k1))))
                                  (r + 1);
                                i_question := q; i_dimension := name |})
                          (select_interaction_mode
                             (user_responses (state (self (on k1)))) (r + 1)))]]>
          (conversations (disk k1)) ->
      transcript k2
        (rows ++ [arow;
                  question_row (session_id k) d name (r + 1 + 1) q
                    (select_interaction_mode
                       (user_responses (state (self (on k1)))) (r + 1))])).
    { intros k2 Hid2 Hc2.
      replace (rows ++ [arow; _]) with
        ((rows ++ [arow])
         ++ [question_row (session_id k) d name (r + 1 + 1) q
               (select_interaction_mode
                  (user_responses (state (self (on k1)))) (r + 1))])
        by (rewrite <- app_assoc; reflexivity).
      apply (transcript_append k1 k2); [exact Htr1|congruence| |].
      - rewrite Hc2, K8. reflexivity.
      - rewrite K8. repeat constructor. }
    split.
    { split.
      - split; cbn; rewrite ?H1, ?H2, ?H3, ?H6, ?Y1, ?Y5, ?Y6, ?Y8, ?K6; cbn;
          rewrite ?length_app; cbn; fold r; try assumption; try lia; eauto.
      - cbn. rewrite H2, Y8, K6. exact Hcur.
      - cbn. rewrite H2, H3, Y8, K6, Y7, Hcount. cbn.
        rewrite length_app. reflexivity.
      - exists name, g. cbn. rewrite H3, H6, Y5, Y6.
        repeat split; assumption.
      - intros j. cbn. rewrite H1, H2, Y1, Y8, K6. apply Hprog.
      - cbn. rewrite H6, H2, Y8, K6, Y2, Hhist. cbn.
        exists earlier. rewrite <- app_assoc. split; [|exact Hel].
        rewrite Y7, Hcount, Hpend. reflexivity.
      - cbn. rewrite H6, last_snoc. cbn. rewrite Y7, Hcount, Hpend.
        rewrite Y8. reflexivity.
      - eexists. split.
        + apply Htr2; [cbn; rewrite ?Y10; reflexivity|].
          cbn. rewrite ?Y10, ?Y11, ?Y7, ?Hcount, ?Hpend, ?Y8. reflexivity.
        + cbn. rewrite H2, Y8, K6.
          cbn [user_responses dimension_scores set_user_responses].
          rewrite length_app. cbn [length]. fold r.
          rewrite map_app, Hent.
          replace (rounds_of d (r + 1)) with (rounds_of d (S r))
            by (f_equal; lia).
          rewrite rounds_of_S, <- !app_assoc. reflexivity. }
    split; [lia|]. split; [reflexivity|].
    split; [rewrite H7; exact Y9|].
    split; [cbn; rewrite Y11; exact K9|].
    split; [cbn; rewrite H2, Y8, K6; reflexivity|].
    split; [cbn; rewrite H2, Y8, K6; cbn; rewrite length_app; reflexivity|].
    split; [cbn; rewrite H2, Y8, K6; reflexivity|].
    split; [cbn; rewrite H2, Y8, K6; reflexivity|].
    replace (r + 2) with (r + 1 + 1) by lia.
    rewrite Y8. apply Htr2; [cbn; rewrite ?Y10; reflexivity|].
    cbn. rewrite ?Y10, ?Y11, ?Y7, ?Hcount, ?Hpend, ?Y8. reflexivity. }
  destruct (Nat.leb_spec 3 (r + 1)) as [H3|H3].
  2:{ apply Hcontinue; try reflexivity; try assumption; try congruence.
      lia. }
  pose proof (analyze_ledger client json_loads
    {| dimension_id := d; dimension_name := name |}
    (ws_guidance (current_work_state (self (on k))))
    (interactions (state (self (on k))))
    (user_responses (state (self (on k))) ++ [recorded]) (outside (on k1)))
    as Hal.
  destruct (analyze_interaction_sufficiency client json_loads _ _ _ _
              (outside (on k1))) as [[diag|e|] w1] eqn:Han; cbn in Hal.
  2:{ erewrite bind_Raise; [|apply on_session_eq, in_world_eq, Han].
      eexists _, _. split; [reflexivity|]. cbn. rewrite K4, K5, K8.
      repeat split. }
  2:{ erewrite bind_Beyond; [|apply on_session_eq, in_world_eq, Han].
      eexists _, _. split; [reflexivity|]. cbn. rewrite K4, K5, K8.
      repeat split. }
  erewrite bind_Ret; [|apply on_session_eq, in_world_eq, Han]. cbn. mstep.
  unfold bind at 1, lift_outcome.
  destruct (py_format_2f (confidence diag)) as [[]|e|].
  2:{ eexists _, _. split; [reflexivity|]. cbn. rewrite K4, K5, K8.
      repeat split. }
  2:{ eexists _, _. split; [reflexivity|]. cbn. rewrite K4, K5, K8.
      repeat split. }
  set (y := {| on := _; session_id := session_id k1; disk := disk k1 |}).
  assert (Y1 : director (self (on y)) = director (self (on k1)))
    by reflexivity.
  assert (Y2 : navigator (self (on y)) = navigator (self (on k1)))
    by reflexivity.
  assert (Y3 : user_id (self (on y)) = user_id (self (on k1)))
    by reflexivity.
  assert (Y4 : user_name (self (on y)) = user_name (self (on k1)))
    by reflexivity.
  assert (Y5 : ws_dimension_info (current_work_state (self (on y)))
               = ws_dimension_info (current_work_state (self (on k1))))
    by reflexivity.
  assert (Y6 : ws_guidance (current_work_state (self (on y)))
               = ws_guidance (current_work_state (self (on k1))))
    by reflexivity.
  assert (Y7 : interaction_count (current_work_state (self (on y)))
               = interaction_count (current_work_state (self (on k1))))
    by reflexivity.
  assert (Y8 : state (self (on y)) = state (self (on k1))) by reflexivity.
  assert (Y9 : outside (on y) = w1) by reflexivity.
  assert (Y10 : session_id y = session_id k1) by reflexivity.
  assert (Y11 : disk y = disk k1) by reflexivity.
  clearbody y.
  destruct (truthy (sufficient diag)
            && is_str (utf8 "score") (recommendation diag)) eqn:Hdec.
  - assert (Htry : transcript y (rows ++ [arow])).
    { destruct Htr1 as [Hf Hall]. split; rewrite ?Y10, ?Y11; assumption. }
    destruct (recorded__score_spec diag y d name (rows ++ [arow]))
      as (o & k' & Hrun & Hid & Hu & Hn & Hcase);
      rewrite ?Y1, ?Y5, ?Y8, ?K1, ?K3, ?K6; cbn; try assumption.
    { lia. }
    { rewrite length_app. cbn. lia. }
    { exists earlier. split; [rewrite Y2, K2|]; assumption. }
    { rewrite Hpend. exact Hent1. }
    rewrite Hrun. exists o, k'. split; [reflexivity|].
    split; [congruence|]. split; [congruence|]. split; [congruence|].
    unfold step_post. fold r.
    rewrite Y8, K6, Y9, Y10, Y11, K8, K9 in Hcase. cbn in Hcase.
    rewrite Hal, K7, Hpend in Hcase. fold r in Hcase.
    destruct o as [[| | |report]| |]; try exact Hcase; try contradiction.
    + destruct Hcase as (Hinv & Hp & Hn' & Hlg & Has & sr & cleaned & Hsc
                         & Hacc & Hia & Hprev & Hcl & Htr').
      split; [exact Hinv|]. split; [exact Hp|]. split; [exact Hn'|].
      split; [exact Hlg|]. split; [exact Has|].
      exists sr, cleaned. split; [exact Hsc|]. split; [exact Hacc|].
      split; [exact Hia|]. split; [lia|]. split; [exact Hprev|].
      split; [exact Hcl|].
      rewrite <- app_assoc in Htr'. exact Htr'.
    + destruct Hcase as (Hd7 & Hdone & Hcw & Has & sr & cleaned & average
                         & Hsc & Hacc & Hia & Hcl & Hdiv & Htr').
      split; [exact Hd7|]. split; [exact Hdone|].
      split.
      { destruct Hcw as (C1 & C2 & C3 & final & average' & C4 & C4' & C5 & C6).
        split; [exact C1|]. split; [exact C2|]. split; [exact C3|].
        exists final, average'. split; [exact C4|]. split; [exact C4'|].
        split; [exact C5|].
        rewrite C6, Y9, Hal, K7. reflexivity. }
      split; [exact Has|].
      exists sr, cleaned, average. split; [exact Hsc|]. split; [exact Hacc|].
      split; [exact Hia|]. split; [lia|]. split; [exact Hcl|].
      split; [exact Hdiv|].
      rewrite <- app_assoc in Htr'. exact Htr'.
  - assert (Hlt : r + 1 < 5).
    { destruct (Nat.leb_spec 5 (length (interactions (state (self (on k))))));
        [|lia].
      rewrite analyze_forced in Han by assumption.
      injection Han as <- _. discriminate Hdec. }
    apply Hcontinue; congruence.
Qed.


Lemma recorded_started_inv uid uname now w files0 :
  let k := Recorded.started client uid uname now w files0 in
  recorded_inv k 1
  /\ session_id k = _generate_session_id now (new_system uid uname)
  /\ user_id (self (on k)) = uid
  /\ user_name (self (on k)) = uname
  /\ ledger (outside (on k)) = ledger w
  /\ dimension_scores (state (self (on k))) = []
  /\ assessments (disk k) = assessments files0
  /\ exists q,
       conversations (disk k)
       = <[session_id k :=
             [CsvHeader;
              CsvRow (question_row (session_id k) 1 (utf8 "寻找真理") 1 q
                        Normal)]]> (conversations files0)
       /\ fst (Recorded.start_assessment client
                 (new_desk uid uname now w files0)) = Ret q
       /\ interactions (state (self (on k)))
          = [{| i_interaction_count := 0; i_mode := Normal; i_question := q;
                i_dimension := utf8 "寻找真理" |}]
       /\ user_responses (state (self (on k))) = [].
Proof.
  cbv zeta.
  unfold Recorded.started, Recorded.start_assessment, director_start_assessment.
  set (k0 := new_desk uid uname now w files0).
  erewrite bind_Ret.
  2:{ apply on_session_eq. mstep. erewrite bind_Ret;
        [|apply _get_current_dimension_info_spec; reflexivity]. reflexivity. }
  cbn. do 2 mstep.
  match goal with |- context [bind (on_session (generate_dimension_guidance client)) _ ?y] =>
    destruct (generate_dimension_guidance_full (on y) (utf8 "寻找真理"))
      as (g & w1 & Hg & Hl1); [reflexivity|] end.
  erewrite bind_Ret; [|apply on_session_eq, Hg]. cbn. do 3 mstep.
  match goal with |- context [bind (on_session (generate_question client ?rs ?c)) _ ?y] =>
    edestruct (generate_question_full rs c (on y)) as
      (q & x1 & Hq & H1 & H2 & H3 & H4 & H5 & H6 & H7);
      [reflexivity|reflexivity|] end.
  erewrite bind_Ret; [|apply on_session_eq, Hq]. cbn. do 2 mstep.
  erewrite bind_Ret; [|apply save_question_eq]. cbn.
  unfold ret. cbn in H1, H2, H3, H4, H5, H6, H7, Hl1. cbn.
  rewrite ?H1, ?H2, ?H3, ?H4, ?H5, ?H6, ?H7. cbn.
  assert (Hfile : forall T (v : T) (c : gmap text T) i, <[i := v]> c !! i = Some v)
    by (intros; apply lookup_insert_eq).
  split; [|repeat split; try congruence].
  - split; cbn; rewrite ?H1, ?H2, ?H3, ?H6; cbn.
    + split; cbn; rewrite ?H1, ?H2, ?H3, ?H6; cbn; try lia; eauto.
      constructor.
    + reflexivity.
    + reflexivity.
    + eexists _, _. repeat split.
    + intros j. rewrite lookup_empty. reflexivity.
    + exists []. split; reflexivity.
    + reflexivity.
    + eexists [_]. split; [split|].
      * cbn. unfold _append_row. cbn.
        rewrite lookup_insert_eq. cbn. rewrite lookup_insert_eq. reflexivity.
      * repeat constructor.
      * reflexivity.
  - exists q. rewrite lookup_insert_eq, insert_insert_eq.
    repeat split; reflexivity.
Qed.

Lemma recorded_process_alive k answer r k' :
  recorded_alive k ->
  Recorded.process_user_response client json_loads answer k = (Ret r, k') ->
  recorded_alive k'
  /\ session_id k' = session_id k
  /\ user_id (self (on k')) = user_id (self (on k))
  /\ user_name (self (on k')) = user_name (self (on k)).
Proof.
  intros [d Hinv|Hdone] Hp.
  - destruct (recorded_step k d answer Hinv)
      as (name & rows & m & _ & _ & _ & o & y & E & Hid & Hu & Hn & Hpost).
    rewrite E in Hp. injection Hp as -> ->.
    repeat split; try assumption.
    unfold step_post in Hpost.
    destruct r as [| | |report]; [contradiction| | |].
    + eapply recorded_running, Hpost.
    + eapply recorded_running, Hpost.
    + apply recorded_completed, Hpost.
  - destruct k as [m sid dk].
    unfold Recorded.process_user_response in Hp.
    rewrite (bind_Ret _ _ _ (self m) {| on := m; session_id := sid; disk := dk |})
      in Hp by reflexivity.
    pose proof (rd_status _ Hdone) as Hs. cbn in Hs.
    rewrite Hs in Hp. cbn in Hp.
    injection Hp as _ <-. repeat split. now apply recorded_completed.
Qed.

Lemma recorded_feed_alive answers k k' :
  recorded_alive k ->
  Recorded.feed client json_loads answers k = Some k' ->
  recorded_alive k'
  /\ session_id k' = session_id k
  /\ user_id (self (on k')) = user_id (self (on k))
  /\ user_name (self (on k')) = user_name (self (on k)).
Proof.
  revert k. induction answers as [|a rest IH]; intros k Ha; cbn.
  - intros [= <-]. repeat split. exact Ha.
  - destruct (Recorded.process_user_response client json_loads a k)
      as [[r|e|] y] eqn:E; try discriminate.
    intros Hf.
    destruct (recorded_process_alive k a r y Ha E) as (Hy & I1 & I2 & I3).
    destruct (IH y Hy Hf) as (Hk' & J1 & J2 & J3).
    repeat split; congruence.
Qed.

End RecordedFacts.

(** ** Recorded sessions *)

Ltac conjs := repeat match goal with |- _ /\ _ => split end.

Section RecordedSessions.

Variable client : nat -> completion.
Variable json_loads : text -> outcome json.

Lemma recorded_reachable uid uname now w files0 answers k :
  Recorded.feed client json_loads answers
    (Recorded.started client uid uname now w files0) = Some k ->
  recorded_alive k
  /\ session_id k = _generate_session_id now (new_system uid uname)
  /\ user_id (self (on k)) = uid
  /\ user_name (self (on k)) = uname.
Proof.
  intros Hf.
  destruct (recorded_started_inv client uid uname now w files0)
    as (Hinv & Hid & Hu & Hn & _).
  destruct (recorded_feed_alive client json_loads answers _ k
              (recorded_running _ 1 Hinv) Hf) as (Ha & I1 & I2 & I3).
  conjs; congruence.
Qed.

Lemma recorded_alive_cases k :
  recorded_alive k ->
  (st_status (state (self (on k))) = Running
   /\ recorded_inv k (d_current_dimension (director (self (on k)))))
  \/ (st_status (state (self (on k))) = Completed /\ recorded_done k).
Proof.
  intros [d Hinv|Hdone].
  - left. split; [apply (inv_status _ _ (ri_running _ _ Hinv))|].
    rewrite (inv_director _ _ (ri_running _ _ Hinv)). exact Hinv.
  - right. split; [apply (rd_status _ Hdone)|exact Hdone].
Qed.

(** X7.  Starting a session writes a fresh transcript: whatever the
    transcript file of that session id held before, after the constructor
    and [start_assessment] it holds the header and the row of the first
    question (dimension 1, round 1, mode 正常) and nothing else; the
    transcripts of the other session ids, the report files and the ledger
    are as before. *)
Theorem start_writes_fresh_transcript uid uname now w files0 :
  let k := Recorded.started client uid uname now w files0 in
  let id := _generate_session_id now (new_system uid uname) in
  session_id k = id
  /\ (exists q,
        fst (Recorded.start_assessment client
               (new_desk uid uname now w files0)) = Ret q
        /\ conversations (disk k) !! id
           = Some [CsvHeader;
                   CsvRow (question_row id 1 (utf8 "寻找真理") 1 q Normal)])
  /\ (forall j, j <> id ->
        conversations (disk k) !! j = conversations files0 !! j)
  /\ assessments (disk k) = assessments files0
  /\ ledger (outside (on k)) = ledger w.
Proof.
  cbv zeta.
  destruct (recorded_started_inv client uid uname now w files0)
    as (_ & Hid & _ & _ & Hl & _ & Ha & q & Hc & Hq & _).
  split; [exact Hid|]. split; [|split; [|split; assumption]].
  - exists q. split; [exact Hq|].
    rewrite Hc, Hid. apply lookup_insert_eq.
  - intros j Hj. rewrite Hc, Hid. apply lookup_insert_ne. congruence.
Qed.


Lemma recorded_turn uid uname now w files0 answers k answer r k' :
  Recorded.feed client json_loads answers
    (Recorded.started client uid uname now w files0) = Some k ->
  Recorded.process_user_response client json_loads answer k = (Ret r, k') ->
  (exists msg, r = RError msg)
  \/ exists name rows m,
       let d := d_current_dimension (director (self (on k))) in
       cctdi_dimensions d = Some name
       /\ transcript k rows
       /\ i_mode <$> last (interactions (state (self (on k)))) = Some m
       /\ step_post k k' d name rows answer
            (response_row (session_id k) d name
               (length (user_responses (state (self (on k)))) + 1) answer m)
            (Ret r).
Proof.
  intros Hf Hp.
  destruct (recorded_reachable _ _ _ _ _ _ _ Hf) as (Ha & _).
  destruct (recorded_alive_cases k Ha) as [[Hs Hinv]|[Hs Hdone]].
  - right.
    destruct (recorded_step client json_loads k _ answer Hinv)
      as (name & rows & m & Hn & Ht & Hm & o & y & E & _ & _ & _ & Hpost).
    rewrite E in Hp. injection Hp as -> ->.
    exists name, rows, m. cbv zeta. conjs; first [assumption|reflexivity].
  - left. destruct k as [m sid dk].
    unfold Recorded.process_user_response in Hp.
    rewrite (bind_Ret _ _ _ (self m) {| on := m; session_id := sid; disk := dk |})
      in Hp by reflexivity.
    cbn in Hs. rewrite Hs in Hp. cbn in Hp.
    injection Hp as <- _. eauto.
Qed.



(** X11.  The answer that completes the session is the one that ends
    dimension 7.  It appends the response, the score row of dimension 7
    and the summary row, and it stores the returned report under the
    session id.  The summary row holds the total and the quotient
    [total / 7] as it is; the report holds the average rounded to one
    decimal. *)
Theorem completion_writes_summary_and_report
    uid uname now w files0 answers k answer report k' :
  Recorded.feed client json_loads answers
    (Recorded.started client uid uname now w files0) = Some k ->
  Recorded.process_user_response client json_loads answer k
  = (Ret (RCompleted report), k') ->
  let r := length (user_responses (state (self (on k)))) in
  d_current_dimension (director (self (on k))) = 7
  /\ exists rows m name sr cleaned average last_row,
       transcript k rows
       /\ i_mode <$> last (interactions (state (self (on k)))) = Some m
       /\ cctdi_dimensions 7 = Some name
       /\ dimension_scores (state (self (on k')))
          = dimension_scores (state (self (on k))) ++ [(7, sr)]
       /\ fr_dimension_scores report
          = dimension_scores (state (self (on k')))
       /\ _clean_content (reasoning sr) = Ret cleaned
       /\ transcript k'
            (rows ++ [response_row (session_id k) 7 name (r + 1) answer m;
                      score_row (session_id k) 7 name (score sr) (sr_level sr)
                        cleaned;
                      last_row])
       /\ entry_of last_row = Summary
       /\ over_7 (total_score report) = Ret average
       /\ c_content last_row
          = SummaryCell (total_score report) average (overall_level report) 7
       /\ average_score report = round_1 average
       /\ assessments (disk k')
          = <[session_id k := report]> (assessments (disk k)).
Proof.
  intros Hf Hp. cbv zeta.
  destruct (recorded_turn _ _ _ _ _ _ _ _ _ _ Hf Hp)
    as [[msg [=]]|(name & rows & m & Hn & Ht & Hm & Hpost)].
  cbv zeta in Hn, Hpost.
  destruct Hpost as (Hd & _ & Hcw & Ha & sr & cleaned & average & Hs & _ & _
                     & _ & Hcl & Hdiv & Ht').
  split; [exact Hd|]. rewrite Hd in *.
  destruct Hcw as (_ & _ & _ & final & average' & _ & Hdiv' & Hrep & _).
  assert (average' = average) by congruence. subst average'.
  exists rows, m, name, sr, cleaned, average,
    (summary_row (session_id k) (total_score report) average).
  assert (Hlv : overall_level report = overall_level_of (total_score report))
    by (rewrite Hrep at 1; reflexivity).
  conjs; try assumption.
  - rewrite Hrep at 1. reflexivity.
  - reflexivity.
  - cbn. rewrite Hlv. reflexivity.
  - rewrite Hrep at 1. reflexivity.
Qed.

(** *** The recorded session and the session without its files *)

Lemma refines_start_assessment :
  refines (Recorded.start_assessment client) (start_assessment client).
Proof.
  unfold Recorded.start_assessment, start_assessment.
  apply refines_bind; [apply refines_on_session|intros [current info]].
  do 2 (apply refines_bind; [apply refines_on_session|intros _]).
  apply refines_bind; [apply refines_on_session|intros g].
  do 3 (apply refines_bind; [apply refines_on_session|intros _]).
  apply refines_bind; [apply refines_on_session|intros q].
  do 2 (apply refines_bind; [apply refines_on_session|intros _]).
  apply refines_skip; [apply silent_save_question|].
  apply refines_ret.
Qed.

Lemma on_started uid uname now w files0 :
  on (Recorded.started client uid uname now w files0)
  = started client uid uname w.
Proof.
  destruct (recorded_started_inv client uid uname now w files0)
    as (_ & _ & _ & _ & _ & _ & _ & q & _ & Hq & _).
  unfold Recorded.started, started.
  destruct (refines_start_assessment (new_desk uid uname now w files0))
    as [E|E].
  - change (on (new_desk uid uname now w files0))
      with {| self := new_system uid uname; outside := w |} in E.
    rewrite E. reflexivity.
  - rewrite Hq in E. discriminate.
Qed.

Lemma on_feed answers k k' :
  Recorded.feed client json_loads answers k = Some k' ->
  feed client json_loads answers (on k) = Some (on k').
Proof.
  revert k. induction answers as [|a rest IH]; intros k; cbn.
  - intros [= <-]. reflexivity.
  - destruct (refines_process_user_response client json_loads a k) as [E|E].
    + rewrite E.
      destruct (Recorded.process_user_response client json_loads a k)
        as [[r|e|] y]; cbn; try discriminate. apply IH.
    + destruct (Recorded.process_user_response client json_loads a k)
        as [[r|e|] y]; cbn in *; discriminate.
Qed.

(** X12.  Writing the transcript and the report changes nothing else:
    a recorded session starts in the state of the session without files,
    each call to [process_user_response] returns the same response and
    leaves the same state as that session, unless it stops with an
    [AttributeError], and a run of answers that returns every time is a
    run of the session without files. *)
Theorem recording_changes_nothing_else :
  (forall uid uname now w files0,
     on (Recorded.started client uid uname now w files0)
     = started client uid uname w)
  /\ (forall answer k,
        let r := Recorded.process_user_response client json_loads answer k in
        process_user_response client json_loads answer (on k)
        = (fst r, on (snd r))
        \/ fst r = Raise AttributeError)
  /\ (forall answers k k',
        Recorded.feed client json_loads answers k = Some k' ->
        feed client json_loads answers (on k) = Some (on k')).
Proof.
  split; [exact on_started|]. split; [|exact on_feed].
  intros answer k. apply refines_process_user_response.
Qed.

(** X13.  A score whose reasoning is neither a string nor empty stops the
    call: when the session without files answers a call of a running
    session by storing, for the current dimension, a result whose
    [reasoning] the cell cleaner cannot take (a number, a list, an
    object, [True]), the call of the recorded session raises
    [AttributeError] instead of returning. *)
Theorem unclean_reasoning_raises
    uid uname now w files0 answers k answer r x' sr :
  Recorded.feed client json_loads answers
    (Recorded.started client uid uname now w files0) = Some k ->
  st_status (state (self (on k))) = Running ->
  process_user_response client json_loads answer (on k) = (Ret r, x') ->
  dict_get (d_current_dimension (director (self (on k))))
    (dimension_scores (state (self x'))) = Some sr ->
  _clean_content (reasoning sr) = Raise AttributeError ->
  fst (Recorded.process_user_response client json_loads answer k)
  = Raise AttributeError.
Proof.
  intros Hf Hs Hp Hg Hc.
  destruct (refines_process_user_response client json_loads answer k)
    as [E|E]; [|exact E].
  exfalso. rewrite Hp in E. injection E as E1 E2.
  destruct (recorded_reachable _ _ _ _ _ _ _ Hf) as (Ha & _).
  destruct (recorded_alive_cases k Ha) as [[_ Hinv]|[Hs' _]];
    [|congruence].
  destruct (recorded_step client json_loads k _ answer Hinv)
    as (name & rows & m & _ & _ & _ & o & y & E & _ & _ & _ & Hpost).
  rewrite E in E1, E2. cbn in E1, E2. subst o x'.
  pose proof (inv_keys _ _ (ri_running _ _ Hinv)) as Hk.
  set (d := d_current_dimension (director (self (on k)))) in *.
  assert (Hfresh : forall sr',
            dict_get d (dimension_scores (state (self (on k))) ++ [(d, sr')])
            = Some sr').
  { intros sr'. rewrite dict_get_snoc_fresh by (apply fresh_key, Hk).
    rewrite decide_True by reflexivity. reflexivity. }
  unfold step_post in Hpost.
  destruct r as [msg|q qm c dim|prev name' g q p|report].
  - exact Hpost.
  - destruct Hpost as (_ & _ & _ & _ & _ & Hsc & _).
    rewrite Hsc in Hg. apply dict_get_elem_of in Hg.
    assert (Hin : d ∈ map fst (dimension_scores (state (self (on k)))))
      by (apply (list_elem_of_fmap_2 fst _ _ Hg)).
    rewrite Hk, elem_of_seq in Hin. lia.
  - destruct Hpost as (_ & _ & _ & _ & _ & sr' & cleaned & Hsc & _ & _ & _
                       & _ & Hcl & _).
    rewrite Hsc, Hfresh in Hg. injection Hg as ->. congruence.
  - destruct Hpost as (_ & _ & _ & _ & sr' & cleaned & average & Hsc & _ & _
                       & _ & Hcl & _).
    rewrite Hsc, Hfresh in Hg. injection Hg as ->. congruence.
Qed.

(** *** The files of the other sessions *)

Lemma keeps_ret {A} (a : A) : keeps_other_files (ret a : M desk A).
Proof. intros k. cbn. auto. Qed.

Lemma keeps_on_session {A} (m : M machine A) :
  keeps_other_files (on_session m).
Proof. intros k. unfold on_session. destruct (m (on k)). cbn. auto. Qed.

Lemma keeps_require {A} e (o : option A) :
  keeps_other_files (require e o : M desk A).
Proof. intros k. destruct o; cbn; auto. Qed.

Lemma keeps_lift_outcome {A} (o : outcome A) :
  keeps_other_files (lift_outcome o : M desk A).
Proof. intros k. cbn. auto. Qed.

Lemma keeps_bind {A B} (m : M desk A) (f : A -> M desk B) :
  keeps_other_files m -> (forall a, keeps_other_files (f a)) ->
  keeps_other_files (bind m f).
Proof.
  intros Hm Hf k. unfold bind.
  destruct (Hm k) as [E1 F1]. destruct (m k) as [[a|e|] k1]; cbn in *; auto.
  destruct (Hf a k1) as [E2 F2]. split; [congruence|].
  intros j Hj. destruct (F1 j Hj) as [<- <-]. apply F2. congruence.
Qed.

Lemma keeps__append_row row : keeps_other_files (_append_row row).
Proof.
  intros k. unfold _append_row. cbn. split; [reflexivity|].
  intros j Hj. split; [|reflexivity].
  apply lookup_insert_ne. congruence.
Qed.

Lemma keeps_clean {A} v (f : text -> M desk A) :
  (forall t, keeps_other_files (f t)) ->
  keeps_other_files (bind (lift_outcome (_clean_content v)) f).
Proof. intros Hf. apply keeps_bind; [apply keeps_lift_outcome|exact Hf]. Qed.

Lemma keeps_get {A} (f : desk -> M desk A) :
  (forall k, keeps_other_files (f k)) -> keeps_other_files (bind get f).
Proof. intros Hf k. unfold bind, get. apply Hf. Qed.

Lemma keeps_save_question d name r q m :
  keeps_other_files (save_question d name r q m).
Proof.
  unfold save_question.
  repeat first [apply keeps_get; intros ?|apply keeps_clean; intros ?
               |apply keeps__append_row
               |apply keeps_bind; [|intros ?]|apply keeps_lift_outcome].
Qed.

Lemma keeps_save_user_response d name r t m :
  keeps_other_files (save_user_response d name r t m).
Proof.
  unfold save_user_response.
  repeat first [apply keeps_get; intros ?|apply keeps_clean; intros ?
               |apply keeps__append_row
               |apply keeps_bind; [|intros ?]|apply keeps_lift_outcome].
Qed.

Lemma keeps_save_dimension_score d name sc lv re :
  keeps_other_files (save_dimension_score d name sc lv re).
Proof.
  unfold save_dimension_score.
  repeat first [apply keeps_get; intros ?|apply keeps_clean; intros ?
               |apply keeps__append_row
               |apply keeps_bind; [|intros ?]|apply keeps_lift_outcome].
Qed.

Lemma keeps_save_final_summary t a l c :
  keeps_other_files (save_final_summary t a l c).
Proof.
  unfold save_final_summary.
  repeat first [apply keeps_get; intros ?|apply keeps_clean; intros ?
               |apply keeps__append_row
               |apply keeps_bind; [|intros ?]|apply keeps_lift_outcome].
Qed.

Lemma keeps__save_assessment_report r :
  keeps_other_files (_save_assessment_report r).
Proof.
  intros k. unfold _save_assessment_report. cbn. split; [reflexivity|].
  intros j Hj. split; [reflexivity|].
  apply lookup_insert_ne. congruence.
Qed.

Ltac keeps :=
  repeat first
    [ apply keeps_ret | apply keeps_on_session | apply keeps_require
    | apply keeps_lift_outcome | apply keeps_save_question
    | apply keeps_save_user_response | apply keeps_save_dimension_score
    | apply keeps_save_final_summary | apply keeps__save_assessment_report
    | apply keeps_bind; [|intros ?] ].

Lemma keeps__complete_assessment final :
  keeps_other_files (Recorded._complete_assessment final).
Proof. unfold Recorded._complete_assessment. keeps. Qed.

Lemma keeps__advance_to_next_dimension current info prev :
  keeps_other_files
    (Recorded._advance_to_next_dimension client current info prev).
Proof. unfold Recorded._advance_to_next_dimension. keeps. Qed.

Lemma keeps__score_current_dimension diag :
  keeps_other_files
    (Recorded._score_current_dimension client json_loads diag).
Proof.
  unfold Recorded._score_current_dimension. keeps.
  match goal with |- keeps_other_files (match ?a with _ => _ end) =>
    destruct a end.
  - apply keeps__advance_to_next_dimension.
  - apply keeps__complete_assessment.
Qed.

Lemma keeps_process_user_response answer :
  keeps_other_files
    (Recorded.process_user_response client json_loads answer).
Proof.
  unfold Recorded.process_user_response.
  apply keeps_bind; [apply keeps_on_session|intros s].
  destruct (negb _); [apply keeps_ret|].
  do 5 (apply keeps_bind; [keeps|intros ?]).
  destruct (3 <=? _); [|keeps].
  do 3 (apply keeps_bind; [keeps|intros ?]).
  destruct (_ && _); [apply keeps__score_current_dimension|keeps].
Qed.

(** X14.  A call to [process_user_response] writes only the files of its
    own session: whether it returns or raises, the session id stays the
    same and the transcript and the report stored under any other
    session id are untouched. *)
Theorem other_sessions_untouched answer k j :
  j <> session_id k ->
  let k' := snd (Recorded.process_user_response client json_loads answer k) in
  session_id k' = session_id k
  /\ conversations (disk k') !! j = conversations (disk k) !! j
  /\ assessments (disk k') !! j = assessments (disk k) !! j.
Proof.
  intros Hj. cbv zeta.
  destruct (keeps_process_user_response answer k) as [E F].
  split; [exact E|]. apply F, Hj.
Qed.

(** X15.  The mode of a follow-up question is chosen from the answer
    just given, as typed: 鼓励 when it has fewer than 20 characters or
    contains one of 不知道, 不确定, 不会, 难; otherwise 追问 when it has
    more than 100 characters; otherwise 正常. *)
Theorem follow_up_mode_follows_answer
    uid uname now w files0 answers k answer q qm c dim k' :
  Recorded.feed client json_loads answers
    (Recorded.started client uid uname now w files0) = Some k ->
  Recorded.process_user_response client json_loads answer k
  = (Ret (RContinue q qm c dim), k') ->
  qm = if (length answer <? 20)
          || existsb (fun word => contains word answer) hedges
       then Encourage
       else if 100 <? length answer then Probe else Normal.
Proof.
  intros Hf Hp.
  destruct (recorded_turn _ _ _ _ _ _ _ _ _ _ Hf Hp)
    as [[msg [=]]|(name & rows & m & Hn & Ht & Hm & Hpost)].
  cbv zeta in Hpost.
  destruct Hpost as (_ & _ & _ & _ & _ & _ & _ & Hur & Hqm & _).
  rewrite Hqm, Hur. unfold select_interaction_mode.
  replace (_ + 1 =? 0) with false by (symmetry; apply Nat.eqb_neq; lia).
  rewrite last_snoc. reflexivity.
Qed.

(** *** The status reports *)




End RecordedSessions.

(** ** The simulation runner *)

Section RunnerFacts.

Variable client : nat -> completion.
Variable json_loads : text -> outcome json.
Variable generate_response :
  option text -> text -> nat -> list (option text * text) -> text.
Variable isdigit : char -> bool.

Lemma extract_user_info_nonempty path :
  (_extract_user_info isdigit path).1 <> []
  /\ (_extract_user_info isdigit path).2 <> [].
Proof.
  unfold _extract_user_info.
  destruct (split_digits isdigit _) as [d n]. cbn [fst snd].
  split; case_bool_decide; try assumption; vm_compute; discriminate.
Qed.

Lemma run_loop_returns uid uname fuel : forall q round_num history k d,
  recorded_inv k d ->
  rounds_left k d < fuel ->
  exists o k',
    run_loop client json_loads generate_response uid uname fuel q round_num
      history k = Some (o, k')
    /\ session_id k' = session_id k
    /\ user_id (self (on k')) = user_id (self (on k))
    /\ user_name (self (on k')) = user_name (self (on k))
    /\ match o with
       | Ret (RunSuccess u n total average lv) =>
         u = uid /\ n = uname
         /\ recorded_done k'
         /\ ledger (outside (on k'))
            = ledger_after (self (on k')) total (ledger (outside (on k)))
         /\ exists report,
              assessments (disk k') !! session_id k = Some report
              /\ total_score report = total
              /\ average_score report = average
              /\ overall_level report = lv
              /\ fr_dimension_scores report
                 = dimension_scores (state (self (on k')))
       | Ret (RunFailure u n err) =>
         u = uid /\ n = uname /\ exists e, err = Caught e
       | Raise _ => False
       | Beyond => True
       end.
Proof.
  induction fuel as [|fuel IH]; intros q round_num history k d Hinv Hfuel;
    [lia|].
  cbn [run_loop].
  rewrite (inv_status _ _ (ri_running _ _ Hinv)). cbn [status_eqb negb].
  destruct (ri_info _ _ Hinv) as (name & g & Hname & Hinfo & _).
  destruct (recorded_step client json_loads k d
              (generate_response q name round_num history) Hinv)
    as (name' & rows & m & _ & _ & _ & o & y & E & Hid & Hu & Hn & Hpost).
  assert (Hround :
    run_round client json_loads generate_response q round_num history k
    = (match o with
       | Ret r => Ret (generate_response q name round_num history, r)
       | Raise e => Raise e
       | Beyond => Beyond
       end, y)).
  { unfold run_round. destruct k as [x sid dk]. cbn in Hinfo.
    rewrite (bind_Ret _ _ _ (self x) {| on := x; session_id := sid; disk := dk |})
      by reflexivity.
    rewrite Hinfo. cbn [require].
    rewrite (bind_Ret _ _ _ {| dimension_id := d; dimension_name := name |}
               {| on := x; session_id := sid; disk := dk |}) by reflexivity.
    cbn [dimension_name]. unfold bind at 1. rewrite E.
    destruct o; reflexivity. }
  rewrite Hround. clear Hround.
  pose proof (inv_pending _ _ (ri_running _ _ Hinv)) as Hpend.
  pose proof (inv_cap _ _ (ri_running _ _ Hinv)) as Hcap.
  unfold step_post in Hpost.
  destruct o as [[msg|nq qm c dim|prev nname ng fq p|report]|e|].
  - contradiction.
  - destruct Hpost as (Hinv' & _ & _ & Hl & _ & _ & Hlen & _).
    pose proof (inv_pending _ _ (ri_running _ _ Hinv')) as Hpend'.
    pose proof (inv_cap _ _ (ri_running _ _ Hinv')) as Hcap'.
    destruct (IH nq (round_num + 1)
                (history ++ [(q, generate_response q name round_num history)])
                y d Hinv')
      as (o' & k' & Hrun & I1 & I2 & I3 & Hcase).
    { unfold rounds_left in *. lia. }
    exists o', k'. split; [exact Hrun|].
    split; [congruence|]. split; [congruence|]. split; [congruence|].
    destruct o' as [[u n total average lv|u n err]|e|]; try exact Hcase.
    rewrite Hl, Hid in Hcase. exact Hcase.
  - destruct Hpost as (Hinv' & _ & _ & Hl & _).
    pose proof (inv_pending _ _ (ri_running _ _ Hinv')) as Hpend'.
    pose proof (inv_range _ _ (ri_running _ _ Hinv')) as Hrange'.
    destruct (IH fq 1 [] y (d + 1) Hinv')
      as (o' & k' & Hrun & I1 & I2 & I3 & Hcase).
    { unfold rounds_left in *. lia. }
    exists o', k'. split; [exact Hrun|].
    split; [congruence|]. split; [congruence|]. split; [congruence|].
    destruct o' as [[u n total average lv|u n err]|e|]; try exact Hcase.
    rewrite Hl, Hid in Hcase. exact Hcase.
  - destruct Hpost as (_ & Hdone & Hcw & Ha & _).
    destruct Hcw as (_ & _ & _ & final & average & _ & _ & Hrep & Hledger).
    eexists _, y. split; [reflexivity|].
    split; [exact Hid|]. split; [exact Hu|]. split; [exact Hn|].
    split; [reflexivity|]. split; [reflexivity|].
    split; [exact Hdone|]. split; [exact Hledger|].
    exists report. split; [rewrite Ha; apply lookup_insert_eq|].
    split; [reflexivity|]. split; [reflexivity|]. split; [reflexivity|].
    rewrite Hrep at 1. reflexivity.
  - eexists _, y. split; [reflexivity|].
    split; [exact Hid|]. split; [exact Hu|]. split; [exact Hn|].
    split; [reflexivity|]. split; [reflexivity|]. eauto.
  - eexists _, y. split; [reflexivity|].
    split; [exact Hid|]. split; [exact Hu|]. split; [exact Hn|]. exact I.
Qed.

(** X17.  A simulation run ends within 35 answers of the virtual user,
    whatever the model service, the decoder and the virtual user do.  It
    never raises and it returns neither the result 未知错误 nor an error
    taken from a response: a failure is always an exception caught in
    the loop.  The session id is the id followed by the name, both taken
    from the file name.  A successful run has completed the session, its
    report is stored under the session id with the returned total,
    average and level, and the ledger has gained the row of that id and
    name. *)
Theorem simulation_run_returns path now w files0 fuel :
  35 <= fuel ->
  let uid := (_extract_user_info isdigit path).1 in
  let uname := (_extract_user_info isdigit path).2 in
  exists o k',
    run_simulation client json_loads generate_response isdigit path now w
      files0 fuel = Some (o, k')
    /\ session_id k' = uid ++ uname
    /\ match o with
       | Ret (RunSuccess u n total average lv) =>
         u = uid /\ n = uname
         /\ st_status (state (self (on k'))) = Completed
         /\ map fst (dimension_scores (state (self (on k')))) = seq 1 7
         /\ ledger (outside (on k'))
            = append_row
                (Row uid uname
                   (dim_scores (dimension_scores (state (self (on k')))))
                   total)
                (ledger w)
         /\ exists report,
              assessments (disk k') !! (uid ++ uname) = Some report
              /\ total_score report = total
              /\ average_score report = average
              /\ overall_level report = lv
              /\ fr_dimension_scores report
                 = dimension_scores (state (self (on k')))
       | Ret (RunFailure u n err) =>
         u = uid /\ n = uname /\ exists e, err = Caught e
       | Raise _ => False
       | Beyond => True
       end.
Proof.
  intros Hfuel. cbv zeta.
  destruct (extract_user_info_nonempty path) as [Hu Hn].
  unfold run_simulation.
  destruct (_extract_user_info isdigit path) as [uid uname].
  cbn [fst snd] in *.
  destruct (recorded_started_inv client (Some uid) (Some uname) now w files0)
    as (Hinv & Hid & Hui & Hni & Hl & _ & _ & q & _ & Hq & Hint & _).
  unfold run. unfold Recorded.started in *.
  destruct (Recorded.start_assessment client
              (new_desk (Some uid) (Some uname) now w files0))
    as [o0 k0]. cbn [fst snd] in *. subst o0.
  assert (Hsid : session_id k0 = uid ++ uname).
  { rewrite Hid. unfold _generate_session_id. cbn.
    destruct uid; [congruence|]. destruct uname; [congruence|]. reflexivity. }
  destruct (run_loop_returns uid uname fuel q 1 [] k0 1 Hinv)
    as (o & k' & Hrun & I1 & I2 & I3 & Hcase).
  { unfold rounds_left. rewrite Hint. cbn. lia. }
  exists o, k'. split; [exact Hrun|]. split; [congruence|].
  destruct o as [[u n total average lv|u n err]|e|]; try exact Hcase.
  destruct Hcase as (-> & -> & Hdone & Hledger & report & Hrep).
  split; [reflexivity|]. split; [reflexivity|].
  split; [apply (rd_status _ Hdone)|]. split; [apply (rd_keys _ Hdone)|].
  split.
  - rewrite Hledger, Hl. unfold ledger_after. rewrite I2, I3, Hui, Hni.
    cbn. destruct uid; [congruence|]. destruct uname; [congruence|].
    reflexivity.
  - exists report. rewrite <- Hsid. exact Hrep.
Qed.

End RunnerFacts.

(** ** The cost of a call in completion requests *)

Lemma spends_ret {S A} (req : S -> nat) (a : A) : spends req 0 (ret a).
Proof. intros s. cbn. lia. Qed.

Lemma spends_require {S A} (req : S -> nat) e (o : option A) :
  spends req 0 (require e o).
Proof. intros s. destruct o; cbn; lia. Qed.

Lemma spends_lift_outcome {S A} (req : S -> nat) (o : outcome A) :
  spends req 0 (lift_outcome o).
Proof. intros s. cbn. lia. Qed.

Lemma spends_get {S} (req : S -> nat) : spends req 0 get.
Proof. intros s. cbn. lia. Qed.

Lemma spends_le {S A} (req : S -> nat) n n' (m : M S A) :
  spends req n m -> n <= n' -> spends req n' m.
Proof. intros H Hle s. specialize (H s). lia. Qed.

Lemma spends_bind {S A B} (req : S -> nat) n1 n2 (m : M S A)
    (f : A -> M S B) :
  spends req n1 m -> (forall a, spends req n2 (f a)) ->
  spends req (n1 + n2) (bind m f).
Proof.
  intros Hm Hf s. unfold bind. specialize (Hm s).
  destruct (m s) as [[a|e|] s1]; cbn in *; try lia.
  specialize (Hf a s1). lia.
Qed.

Lemma spends_free {S A B} (req : S -> nat) n (m : M S A) (f : A -> M S B) :
  spends req 0 m -> (forall a, spends req n (f a)) ->
  spends req n (bind m f).
Proof. intros Hm Hf. apply (spends_bind req 0 n); assumption. Qed.

Lemma spends_in_world {A} n (m : M world A) :
  spends requests n m -> spends machine_requests n (in_world m).
Proof.
  intros H x. unfold in_world, machine_requests. specialize (H (outside x)).
  destruct (m (outside x)). exact H.
Qed.

Lemma spends_update f : spends machine_requests 0 (update f).
Proof. intros x. cbn. unfold machine_requests. cbn. lia. Qed.

Lemma spends_read {A} (f : system -> A) : spends machine_requests 0 (read f).
Proof. intros x. cbn. lia. Qed.

Lemma spends_this : spends machine_requests 0 this.
Proof. intros x. cbn. lia. Qed.

Lemma spends_on_session {A} n (m : M machine A) :
  spends machine_requests n m -> spends desk_requests n (on_session m).
Proof.
  intros H k. unfold on_session, desk_requests. specialize (H (on k)).
  destruct (m (on k)). exact H.
Qed.

Lemma spends__append_row row : spends desk_requests 0 (_append_row row).
Proof. intros k. cbn. unfold desk_requests. cbn. lia. Qed.

Lemma spends__save_assessment_report r :
  spends desk_requests 0 (_save_assessment_report r).
Proof. intros k. cbn. unfold desk_requests. cbn. lia. Qed.

Ltac free :=
  repeat first
    [ apply spends_ret | apply spends_require | apply spends_lift_outcome
    | apply spends_get | apply spends_update | apply spends_read
    | apply spends_this | apply spends__append_row
    | apply spends__save_assessment_report
    | apply spends_on_session
    | apply spends_free; [|intros ?] ].

Lemma spends_save_question d name r q m :
  spends desk_requests 0 (save_question d name r q m).
Proof. unfold save_question. free. Qed.

Lemma spends_save_user_response d name r t m :
  spends desk_requests 0 (save_user_response d name r t m).
Proof. unfold save_user_response. free. Qed.

Lemma spends_save_dimension_score d name sc lv re :
  spends desk_requests 0 (save_dimension_score d name sc lv re).
Proof. unfold save_dimension_score. free. Qed.

Lemma spends_save_final_summary t a l c :
  spends desk_requests 0 (save_final_summary t a l c).
Proof. unfold save_final_summary. free. Qed.

Section Costs.

Variable client : nat -> completion.
Variable json_loads : text -> outcome json.

Lemma spends__call_llm max_retries :
  spends requests max_retries (_call_llm client max_retries).
Proof.
  intros w.
  destruct (_call_llm_returns client max_retries w) as (c & w' & -> & H & _).
  exact H.
Qed.

Lemma spends_diagnostic_attempts k n raw :
  spends requests (2 * k) (diagnostic_attempts client json_loads k n raw).
Proof.
  revert raw. induction k as [|k IH]; intros raw; cbn [diagnostic_attempts].
  - apply spends_ret.
  - replace (2 * S k) with (2 + 2 * k) by lia.
    apply spends_bind; [apply spends__call_llm|intros c].
    destruct (loads json_loads (_clean_json_response c)) as [v|e|].
    + apply spends_free; [apply spends_lift_outcome|intros [d|]].
      * apply (spends_le _ 0); [apply spends_ret|lia].
      * apply IH.
    + destruct e; try (intros s; cbn; lia). apply IH.
    + intros s. cbn. lia.
Qed.

Lemma spends_scoring_attempts k info n raw :
  spends requests (2 * k) (scoring_attempts client json_loads k info n raw).
Proof.
  revert raw. induction k as [|k IH]; intros raw; cbn [scoring_attempts].
  - apply spends_ret.
  - replace (2 * S k) with (2 + 2 * k) by lia.
    apply spends_bind; [apply spends__call_llm|intros c].
    destruct (loads json_loads (_clean_json_response c)) as [v|e|].
    + apply spends_free; [apply spends_lift_outcome|intros [d|]].
      * apply (spends_le _ 0); [apply spends_ret|lia].
      * apply IH.
    + destruct e; try (intros s; cbn; lia). apply IH.
    + intros s. cbn. lia.
Qed.

Lemma spends_analyze info g inter resp :
  spends requests 4
    (analyze_interaction_sufficiency client json_loads info g inter resp).
Proof.
  unfold analyze_interaction_sufficiency.
  destruct (5 <=? _); [apply (spends_le _ 0); [apply spends_ret|lia]|].
  destruct (_ <? 3); [apply (spends_le _ 0); [apply spends_ret|lia]|].
  apply spends_free; [apply spends_require|intros _].
  apply (spends_diagnostic_attempts 2).
Qed.

Lemma spends_score_dimension info g inter resp d :
  spends requests 4 (score_dimension client json_loads info g inter resp d).
Proof.
  unfold score_dimension.
  apply spends_free; [apply spends_require|intros _].
  apply (spends_scoring_attempts 2).
Qed.

Lemma spends_generate_question rs c :
  spends machine_requests 3 (generate_question client rs c).
Proof.
  unfold generate_question.
  do 4 (apply spends_free; [free|intros ?]).
  apply (spends_bind _ 3 0); [apply spends_in_world, spends__call_llm|].
  intros ?. free.
Qed.

Lemma spends_generate_dimension_guidance :
  spends machine_requests 3 (generate_dimension_guidance client).
Proof.
  unfold generate_dimension_guidance.
  do 2 (apply spends_free; [free|intros ?]).
  apply (spends_bind _ 3 0); [apply spends_in_world, spends__call_llm|].
  intros ?. free.
Qed.

Lemma spends__get_current_dimension_info :
  spends machine_requests 0 _get_current_dimension_info.
Proof. unfold _get_current_dimension_info. free. Qed.

Lemma spends_advance_to_next_dimension v :
  spends machine_requests 0 (advance_to_next_dimension v).
Proof.
  unfold advance_to_next_dimension.
  do 2 (apply spends_free; [free|intros ?]).
  destruct (_ <? 7); [|free].
  apply spends_free; [free|intros ?].
  apply spends_free; [apply spends__get_current_dimension_info|intros ?].
  free.
Qed.

Lemma spends_set_dimension_context info g :
  spends machine_requests 0 (set_dimension_context info g).
Proof. unfold set_dimension_context. free. Qed.

Lemma spends_director_start_assessment :
  spends machine_requests 0 director_start_assessment.
Proof.
  unfold director_start_assessment.
  apply spends_free; [free|intros ?].
  apply spends_free; [apply spends__get_current_dimension_info|intros ?].
  free.
Qed.

Lemma spends__save_user_score_summary total :
  spends machine_requests 0 (_save_user_score_summary total).
Proof.
  unfold _save_user_score_summary.
  apply spends_free; [free|intros s].
  destruct (_ || _); [free|].
  apply spends_in_world. intros w. cbn. lia.
Qed.

Lemma spends_recorded__complete_assessment final :
  spends desk_requests 0 (Recorded._complete_assessment final).
Proof.
  unfold Recorded._complete_assessment.
  do 4 (apply spends_free; [free|intros ?]).
  apply spends_free; [free|intros ?].
  apply spends_free; [apply spends_save_final_summary|intros ?].
  apply spends_free;
    [apply spends_on_session, spends__save_user_score_summary|intros ?].
  free.
Qed.

Lemma spends_recorded__advance current info prev :
  spends desk_requests 6
    (Recorded._advance_to_next_dimension client current info prev).
Proof.
  unfold Recorded._advance_to_next_dimension.
  do 4 (apply spends_free; [free|intros ?]).
  apply (spends_bind _ 3 3);
    [apply spends_on_session, spends_generate_dimension_guidance|intros g].
  apply spends_free; [free|intros ?].
  apply spends_free;
    [apply spends_on_session, spends_set_dimension_context|intros ?].
  apply (spends_bind _ 3 0);
    [apply spends_on_session, spends_generate_question|intros q].
  do 2 (apply spends_free; [free|intros ?]).
  apply spends_free; [apply spends_save_question|intros ?].
  free.
Qed.

Lemma spends_recorded__score diag :
  spends desk_requests 10
    (Recorded._score_current_dimension client json_loads diag).
Proof.
  unfold Recorded._score_current_dimension.
  do 2 (apply spends_free; [free|intros ?]).
  apply (spends_bind _ 4 6);
    [apply spends_on_session, spends_in_world, spends_score_dimension|].
  intros sr.
  apply spends_free; [free|intros ?].
  apply spends_free; [apply spends_save_dimension_score|intros ?].
  apply spends_free;
    [apply spends_on_session, spends_advance_to_next_dimension|intros adv].
  destruct adv.
  - apply spends_recorded__advance.
  - apply (spends_le _ 0); [apply spends_recorded__complete_assessment|lia].
Qed.

Lemma spends_recorded_process answer :
  spends desk_requests 14
    (Recorded.process_user_response client json_loads answer).
Proof.
  unfold Recorded.process_user_response.
  apply spends_free; [free|intros s].
  destruct (negb _); [apply (spends_le _ 0); [free|lia]|].
  do 4 (apply spends_free; [free|intros ?]).
  apply spends_free; [apply spends_save_user_response|intros ?].
  assert (Hc : forall (info : dimension_info), spends desk_requests 3
    (s0 <- on_session this;;
     next_question <- on_session
       (generate_question client (user_responses (state s0))
          (interaction_count (current_work_state s0)));;
     on_session (update (with_state (fun t =>
       set_interactions (interactions t ++ [next_question]) t)));;;
     on_session (update (with_work (fun t =>
       set_interaction_count (interaction_count t + 1) t)));;;
     s2 <- on_session this;;
     save_question (dimension_id info) (dimension_name info)
       (interaction_count (current_work_state s2))
       (i_question next_question) (i_mode next_question);;;
     ret (RContinue (i_question next_question) (i_mode next_question)
            (interaction_count (current_work_state s2))
            (dimension_name info)))).
  { intros info.
    apply spends_free; [free|intros ?].
    apply (spends_bind _ 3 0);
      [apply spends_on_session, spends_generate_question|intros q].
    do 3 (apply spends_free; [free|intros ?]).
    apply spends_free; [apply spends_save_question|intros ?].
    free. }
  destruct (3 <=? _); [|apply (spends_le _ 3); [apply Hc|lia]].
  apply (spends_bind _ 4 10);
    [apply spends_on_session, spends_in_world, spends_analyze|intros diag].
  do 2 (apply spends_free; [free|intros ?]).
  destruct (_ && _); [apply spends_recorded__score|].
  apply (spends_le _ 3); [apply Hc|lia].
Qed.

Lemma spends_recorded_start :
  spends desk_requests 6 (Recorded.start_assessment client).
Proof.
  unfold Recorded.start_assessment.
  apply spends_free;
    [apply spends_on_session, spends_director_start_assessment|].
  intros [current info].
  do 2 (apply spends_free; [free|intros ?]).
  apply (spends_bind _ 3 3);
    [apply spends_on_session, spends_generate_dimension_guidance|intros g].
  do 2 (apply spends_free; [free|intros ?]).
  apply spends_free;
    [apply spends_on_session, spends_set_dimension_context|intros ?].
  apply (spends_bind _ 3 0);
    [apply spends_on_session, spends_generate_question|intros q].
  do 2 (apply spends_free; [free|intros ?]).
  apply spends_free; [apply spends_save_question|intros ?].
  free.
Qed.

(** X18.  The cost of a call is bounded whatever the model service does:
    [start_assessment] issues at most 6 completion requests and a call
    to [process_user_response] at most 14 (the judgment and the score
    two attempts of two requests each, the guidance and the question
    three requests each), whether the call returns or raises; the
    request counter never goes back. *)
Theorem call_costs_bounded :
  (forall k,
     let k' := snd (Recorded.start_assessment client k) in
     requests (outside (on k)) <= requests (outside (on k'))
     <= requests (outside (on k)) + 6)
  /\ (forall answer k,
        let k' :=
          snd (Recorded.process_user_response client json_loads answer k) in
        requests (outside (on k)) <= requests (outside (on k'))
        <= requests (outside (on k)) + 14).
Proof.
  split.
  - intros k. apply spends_recorded_start.
  - intros answer k. apply spends_recorded_process.
Qed.

End Costs.

(** ** Examples, instances and counterexamples *)

Example normalize_fenced :
  normalize Demo.fenced = json_text "{'score': 45}".
Proof. vm_compute. reflexivity. Qed.

Example clamp_examples :
  map clamp_score [JInt 7; JInt 45; JInt 99; JBool true]
  = [Ret (JInt 10); Ret (JInt 45); Ret (JInt 60); Ret (JInt 10)].
Proof. reflexivity. Qed.

(** A fractional score in range is accepted as it is. *)
Example score_dimension_keeps_fractional_score :
  score <$> (match fst (score_dimension
                          (fun _ => Content (Some (Demo.verdict_text "45.5")))
                          Demo.loads_verdicts Demo.info1 (Some Demo.guidance1)
                          Demo.three_rounds [] forced_score Demo.w0) with
             | Ret r => Some r
             | _ => None
             end)
  = Some (JFloat (FFinite (91 # 2))).
Proof. vm_compute. reflexivity. Qed.

(** C3 (defect of the code).  For the model output
    [{..., "score": "45", ...}], a score that is not a number, the scoring
    step raises [TypeError] out of [score_dimension]: it neither clamps
    nor falls back, against the claim that the step never raises and
    always yields an integer in [10,60]. *)
Theorem score_dimension_raises_on_quoted_score :
  fst (score_dimension Demo.quoted_score Demo.loads_verdicts Demo.info1
         (Some Demo.guidance1) Demo.three_rounds [] forced_score Demo.w0)
  = Raise TypeError.
Proof. vm_compute. reflexivity. Qed.

(** C8, as stated, fails on the text [` `a]: its normal form is [`a],
    whose normal form is [a]. *)
Lemma normalize_not_idempotent :
  normalize (utf8 "` `a") = utf8 "`a"
  /\ normalize (normalize (utf8 "` `a")) = utf8 "a"
  /\ normalize (normalize (utf8 "` `a")) <> normalize (utf8 "` `a").
Proof.
  split; [vm_compute; reflexivity|]. split; [vm_compute; reflexivity|].
  vm_compute. discriminate.
Qed.

Lemma normalize_idempotent_witness :
  normalize (normalize Demo.fenced) = normalize Demo.fenced.
Proof.
  apply normalize_idempotent_without_backtick_ends; vm_compute; discriminate.
Defined.

Lemma call_llm_never_raises_witness :
  exists c w',
    _call_llm Demo.down 3 Demo.w0 = (Ret (Some c), w')
    /\ requests w' = 3 /\ sleeps w' = [1; 2].
Proof.
  destruct (proj2 (call_llm_never_raises Demo.down 3 Demo.w0)
              (fun _ => Demo.outage) (fun i _ => eq_refl))
    as (c & w' & H & Hr & Hs & _).
  exists c, w'. split; [exact H|]. split; [exact Hr|exact Hs].
Defined.

Lemma diagnostic_forced_branches_witness :
  (exists d,
     analyze_interaction_sufficiency Demo.down Demo.not_json Demo.info1
       (Some Demo.guidance1) (Demo.rounds 5) [] Demo.w0 = (Ret d, Demo.w0)
     /\ recommendation d = JStr (utf8 "score"))
  /\ (exists d,
        analyze_interaction_sufficiency Demo.down Demo.not_json Demo.info1
          (Some Demo.guidance1) (Demo.rounds 2) [] Demo.w0 = (Ret d, Demo.w0)
        /\ recommendation d = JStr (utf8 "continue"))
  /\ requests Demo.w0
     < requests (snd (analyze_interaction_sufficiency Demo.down Demo.not_json
                        Demo.info1 (Some Demo.guidance1) (Demo.rounds 3) []
                        Demo.w0)).
Proof.
  split; [|split].
  - destruct (diagnostic_forced_branches Demo.down Demo.not_json Demo.info1
                (Some Demo.guidance1) (Demo.rounds 5) [] Demo.w0)
      as (H5 & _).
    destruct (H5 ltac:(vm_compute; lia)) as (d & H & _ & Hr & _). eauto.
  - destruct (diagnostic_forced_branches Demo.down Demo.not_json Demo.info1
                (Some Demo.guidance1) (Demo.rounds 2) [] Demo.w0)
      as (_ & H3 & _).
    destruct (H3 ltac:(vm_compute; lia)) as (d & H & _ & Hr & _). eauto.
  - destruct (diagnostic_forced_branches Demo.down Demo.not_json Demo.info1
                (Some Demo.guidance1) (Demo.rounds 3) [] Demo.w0)
      as (_ & _ & _ & H34).
    apply H34; [vm_compute; lia|eexists; reflexivity].
Defined.

(** C7, as stated, fails: at round 3, against a service that is down,
    both attempts yield the failure sentinel, which is not JSON, and the
    fallback has confidence 0.5, not 0.9. *)
Lemma diagnostic_fallback_confidence_is_half :
  match fst (analyze_interaction_sufficiency Demo.down Demo.not_json
               Demo.info1 (Some Demo.guidance1) Demo.three_rounds []
               Demo.w0) with
  | Ret d =>
    recommendation d = JStr (utf8 "continue")
    /\ confidence d = JFloat float_0_5
    /\ confidence d <> JFloat float_0_9
  | _ => False
  end.
Proof. vm_compute. repeat split. discriminate. Qed.

Lemma diagnostic_fallback_continue_witness :
  exists d w',
    analyze_interaction_sufficiency Demo.down Demo.not_json Demo.info1
      (Some Demo.guidance1) Demo.three_rounds [] Demo.w0 = (Ret d, w')
    /\ recommendation d = JStr (utf8 "continue")
    /\ confidence d = JFloat float_0_5.
Proof.
  destruct (diagnostic_fallback_continue Demo.down Demo.not_json Demo.info1
              Demo.guidance1 Demo.three_rounds [] Demo.w0
              {| requests := 2; sleeps := [1]; ledger := None |}
              {| requests := 4; sleeps := [1; 1]; ledger := None |}
              (Some (error_msg 2 (Some Demo.outage)))
              (Some (error_msg 2 (Some Demo.outage))))
    as (d & H & _ & Hr & _ & Hc & _).
  - vm_compute. lia.
  - vm_compute. reflexivity.
  - vm_compute. reflexivity.
  - reflexivity.
  - reflexivity.
  - exists d. eexists. split; [exact H|]. split; [exact Hr|exact Hc].
Defined.

Lemma process_rejected_unchanged_witness :
  exists msg,
    process_user_response Demo.down Demo.not_json (utf8 "ok") Demo.blank
    = (Ret (RError msg), Demo.blank).
Proof.
  destruct (process_rejected_unchanged Demo.down Demo.not_json Demo.blank
              (utf8 "ok")) as (msg & x' & H & -> & _).
  - vm_compute. discriminate.
  - exists msg. exact H.
Defined.

(** The fifth answer of a dimension forces its score. *)
Lemma rounds_at_scoring_witness :
  let x' := snd (process_user_response Demo.down Demo.not_json (utf8 "ok")
                   Demo.down_after_four) in
  let r := default (scoring_fallback Demo.info1 0 None)
             (dict_get 1 (dimension_scores (state (self x')))) in
  3 <= interactions_analyzed r <= 5 /\ interactions_analyzed r = 5.
Proof.
  intros x' r. split; [|vm_compute; reflexivity].
  refine (proj1 (rounds_at_scoring Demo.down Demo.not_json
                   (Some (utf8 "7")) (Some (utf8 "Li")) Demo.w0
                   (Demo.answers 4) (utf8 "ok") Demo.down_after_four
                   (fst (process_user_response Demo.down Demo.not_json
                           (utf8 "ok") Demo.down_after_four))
                   x' 1 r _ _ _)).
  - vm_compute. reflexivity.
  - apply surjective_pairing.
  - vm_compute. reflexivity.
Defined.


(** A fractional score does not stop the session.  Scored 45.5 in the
    first dimension and 44 in the six others, it completes with the
    total 309.5, the average 44.2 and the level 良好, and its row is in
    the score file. *)
Example fractional_score_completes :
  Demo.fractional_before_last <> Demo.blank
  /\ match process_user_response Demo.fractional_verdicts
             Demo.loads_verdicts (utf8 "ok") Demo.fractional_before_last with
     | (Ret (RCompleted report), x') =>
       st_status (state (self x')) = Completed
       /\ scores_of report
          = JFloat (FFinite (91 # 2)) :: repeat (JInt 44) 6
       /\ total_score report = PyFloat (FFinite (619 # 2))
       /\ average_score report = round_double (442 # 10)
       /\ overall_level report = Good
       /\ ledger (outside x')
          = Some [Header;
                  Row (utf8 "8") (utf8 "Wu")
                    (JFloat (FFinite (91 # 2)) :: repeat (JInt 44) 6)
                    (PyFloat (FFinite (619 # 2)))]
     | _ => False
     end.
Proof.
  split; [vm_compute; discriminate|].
  vm_compute. repeat split.
Qed.

(** Sums of floats are rounded at each addition: 0.1 three times gives
    0.30000000000000004, not the double nearest to 0.3. *)
Example float_sum_is_rounded :
  foldl py_add (Ret (PyInt 0)) (repeat (JFloat (round_double (1 # 10))) 3)
  = Ret (PyFloat (FFinite (1351079888211149 # 4503599627370496)))
  /\ round_double (3 # 10)
     = FFinite (5404319552844595 # 18014398509481984)
  /\ round_double (1 # 10)
     = FFinite (3602879701896397 # 36028797018963968).
Proof. vm_compute. repeat split. Qed.


(** C2, as stated, fails: a session without user id and user name runs
    to completion and the score file stays absent, no row is written. *)
Lemma anonymous_session_leaves_no_row :
  feed Demo.down Demo.not_json (Demo.answers 34)
    (started Demo.down None None Demo.w0)
  = Some Demo.anonymous_before_last
  /\ match process_user_response Demo.down Demo.not_json (utf8 "ok")
             Demo.anonymous_before_last with
     | (Ret (RCompleted _), x') =>
       st_status (state (self x')) = Completed
       /\ ledger (outside x') = None
     | _ => False
     end.
Proof. split; [vm_compute; reflexivity|]. vm_compute. split; reflexivity. Qed.

Lemma ledger_header_once_row_per_identity_witness :
  exists rows,
    Ledger.file (Ledger.mem Demo.after_schedule) = Some (Header :: rows)
    /\ Ledger.headers (Header :: rows) = 1
    /\ rows ≡ₚ rows_owed Demo.runs.
Proof.
  destruct (ledger_header_once_row_per_identity Demo.runs
              Demo.after_schedule) as (_ & _ & H & _).
  - unfold Demo.runs.
    repeat (apply List.Forall_cons; [split; vm_compute; reflexivity|]).
    apply List.Forall_nil.
  - apply (run_reachable Demo.writers Demo.schedule). vm_compute. reflexivity.
  - assert (Hfin : Ledger.finished Demo.after_schedule).
    { unfold Ledger.finished. vm_compute. repeat constructor. }
    assert (E : Ledger.file (Ledger.mem Demo.after_schedule)
                = Some (Header :: rows_owed (reverse Demo.runs))).
    { vm_compute. reflexivity. }
    specialize (H Hfin). rewrite E in H.
    destruct H as (Hh & rows & Hrows & Hp).
    exists (rows_owed (reverse Demo.runs)).
    split; [exact E|]. split; [exact Hh|].
    injection Hrows as ->. exact Hp.
Defined.

(** The rows of the three sessions: the second one has no identity and
    owes none. *)
Example rows_of_the_batch :
  rows_owed Demo.runs
  = [Row (utf8 "1") (utf8 "Zhang") (repeat (JInt 43) 7) (PyInt 301);
     Row (utf8 "7") (utf8 "Li") (JInt 45 :: repeat (JInt 44) 6)
       (PyInt 309)].
Proof. vm_compute. reflexivity. Qed.

Example extract_name_examples :
  _extract_name (utf8 "年龄：30" ++ newline :: utf8 "姓名：张伟 工程师"
                   ++ newline :: utf8 "性格：谨慎") = Ret (utf8 "张伟")
  /\ _extract_name (utf8 "姓名：" ++ newline :: utf8 "张伟")
     = Raise IndexError
  /\ _extract_name (utf8 "name: Zhang") = Ret (utf8 "虚拟用户").
Proof. vm_compute. repeat split. Qed.

Example extract_user_info_examples :
  map (_extract_user_info Demo.ascii_digit)
    [utf8 "persons/4陈思远.txt"; utf8 "persons/12.txt"; utf8 "张伟.txt";
     utf8 "0张伟.txt"; utf8 ""]
  = [(utf8 "4", utf8 "陈思远"); (utf8 "12", utf8 "未知用户");
     (utf8 "0", utf8 "张伟"); (utf8 "0", utf8 "张伟");
     (utf8 "0", utf8 "未知用户")].
Proof. vm_compute. reflexivity. Qed.

Lemma runner_session_id_witness :
  let digits := utf8 "4" in
  let name := utf8 "思远" in
  let path := utf8 "persons/4陈思远.txt" in
  _extract_user_info Demo.ascii_digit path = (digits, 38472%N :: name)
  /\ _generate_session_id (utf8 "20250101_120000")
       (runner_system Demo.ascii_digit path)
     = utf8 "4陈思远".
Proof.
  apply (runner_session_id Demo.ascii_digit (utf8 "20250101_120000")
           (utf8 "persons") (utf8 "4") (utf8 "思远") (utf8 "txt") 38472%N).
  - vm_compute. discriminate.
  - vm_compute. repeat constructor.
  - vm_compute. reflexivity.
  - match goal with |- ?P => apply (bool_decide_unpack P) end.
    vm_compute. exact I.
  - match goal with |- ?P => apply (bool_decide_unpack P) end.
    vm_compute. exact I.
  - match goal with |- ?P => apply (bool_decide_unpack P) end.
    vm_compute. exact I.
  - match goal with |- ?P => apply (bool_decide_unpack P) end.
    vm_compute. exact I.
Defined.




Lemma completion_writes_summary_and_report_witness :
  let report :=
    Demo.report_of_response
      (fst (Recorded.process_user_response Demo.two_verdicts
              Demo.loads_verdicts (utf8 "ok") (Demo.recorded 20))) in
  d_current_dimension (director (self (on (Demo.recorded 20)))) = 7
  /\ (exists average,
        over_7 (total_score report) = Ret average
        /\ average_score report = round_1 average)
  /\ assessments (disk (Demo.recorded 21))
     = <[session_id (Demo.recorded 20) := report]>
         (assessments (disk (Demo.recorded 20))).
Proof.
  intros report.
  destruct (completion_writes_summary_and_report Demo.two_verdicts
              Demo.loads_verdicts (Some (utf8 "7")) (Some (utf8 "Li"))
              Demo.now0 Demo.w0 Demo.used_disk (Demo.answers 20)
              (Demo.recorded 20) (utf8 "ok") report (Demo.recorded 21))
    as (Hd & rows & m & name & sr & cleaned & average & last_row & _ & _ & _
        & _ & _ & _ & _ & _ & Hdiv & _ & Hav & Ha).
  - vm_compute. reflexivity.
  - vm_compute. reflexivity.
  - split; [exact Hd|]. split; [eauto|exact Ha].
Defined.

Lemma recording_changes_nothing_else_witness :
  feed Demo.two_verdicts Demo.loads_verdicts (Demo.answers 4)
    (started Demo.two_verdicts (Some (utf8 "7")) (Some (utf8 "Li")) Demo.w0)
  = Some (on (Demo.recorded 4)).
Proof.
  destruct (recording_changes_nothing_else Demo.two_verdicts
              Demo.loads_verdicts) as (Hs & _ & Hf).
  rewrite <- (Hs (Some (utf8 "7")) (Some (utf8 "Li")) Demo.now0 Demo.w0
                Demo.used_disk).
  apply Hf. vm_compute. reflexivity.
Defined.

Lemma unclean_reasoning_raises_witness :
  fst (Recorded.process_user_response Demo.two_verdicts Demo.loads_numbered
         (utf8 "ok") Demo.numbered_before_score)
  = Raise AttributeError.
Proof.
  apply (unclean_reasoning_raises Demo.two_verdicts Demo.loads_numbered
           (Some (utf8 "7")) (Some (utf8 "Li")) Demo.now0 Demo.w0
           Demo.used_disk (Demo.answers 2) Demo.numbered_before_score
           (utf8 "ok")
           (RDimensionCompleted
              (utf8 "寻找真理", JInt 45, JStr (utf8 "good")) (utf8 "开放思想")
              (Some (Demo.verdict_text "44")) (Some (Demo.verdict_text "44"))
              2)
           (snd (process_user_response Demo.two_verdicts Demo.loads_numbered
                   (utf8 "ok") (on Demo.numbered_before_score)))
           {| score := JInt 45; sr_level := JStr (utf8 "good");
              reasoning := JInt 7; sr_confidence := JFloat float_0_5;
              dimension := utf8 "寻找真理"; sr_dimension_id := 1;
              interactions_analyzed := 3; raw_result := None |}).
  - vm_compute. reflexivity.
  - vm_compute. reflexivity.
  - vm_compute. reflexivity.
  - vm_compute. reflexivity.
  - vm_compute. reflexivity.
Defined.

Lemma other_sessions_untouched_witness :
  conversations
    (disk (snd (Recorded.process_user_response Demo.two_verdicts
                  Demo.loads_verdicts (utf8 "ok") (Demo.recorded 20))))
  !! utf8 "8Wang"
  = conversations (disk (Demo.recorded 20)) !! utf8 "8Wang".
Proof.
  apply (other_sessions_untouched Demo.two_verdicts Demo.loads_verdicts
           (utf8 "ok") (Demo.recorded 20) (utf8 "8Wang")).
  vm_compute. discriminate.
Defined.

Lemma follow_up_mode_follows_answer_witness :
  Encourage
  = if (length (utf8 "ok") <? 20)
       || existsb (fun word => contains word (utf8 "ok")) hedges
    then Encourage
    else if 100 <? length (utf8 "ok") then Probe else Normal.
Proof.
  apply (follow_up_mode_follows_answer Demo.two_verdicts
           Demo.loads_verdicts (Some (utf8 "7")) (Some (utf8 "Li"))
           Demo.now0 Demo.w0 Demo.used_disk (Demo.answers 0)
           (Demo.recorded 0) (utf8 "ok") (Some (Demo.verdict_text "45"))
           Encourage 2 (utf8 "寻找真理") (Demo.recorded 1)).
  - vm_compute. reflexivity.
  - vm_compute. reflexivity.
Defined.


Lemma simulation_run_returns_witness :
  exists k',
    run_simulation Demo.two_verdicts Demo.loads_verdicts Demo.echo
      Demo.ascii_digit (utf8 "personas/7Li.txt") Demo.now0 Demo.w0
      Demo.used_disk 35
    = Some (Ret (RunSuccess (utf8 "7") (utf8 "Li") (PyInt 309)
                   (round_double (441 # 10)) Good), k')
    /\ session_id k' = utf8 "7Li".
Proof.
  destruct (simulation_run_returns Demo.two_verdicts Demo.loads_verdicts
              Demo.echo Demo.ascii_digit (utf8 "personas/7Li.txt")
              Demo.now0 Demo.w0 Demo.used_disk 35)
    as (o & k' & Hrun & Hid & _); [lia|].
  assert (E : fst <$> run_simulation Demo.two_verdicts Demo.loads_verdicts
                        Demo.echo Demo.ascii_digit (utf8 "personas/7Li.txt")
                        Demo.now0 Demo.w0 Demo.used_disk 35
              = Some (Ret (RunSuccess (utf8 "7") (utf8 "Li") (PyInt 309)
                             (round_double (441 # 10)) Good)))
    by (vm_compute; reflexivity).
  rewrite Hrun in E. cbn in E. injection E as ->.
  exists k'. split; [exact Hrun|]. rewrite Hid. vm_compute. reflexivity.
Defined.

(** The bound is reached: when the model service is down every dimension
    takes five rounds, and the loop has not ended after 34 answers. *)
Example run_takes_35_answers :
  run_simulation Demo.down Demo.not_json Demo.echo Demo.ascii_digit
    (utf8 "personas/7Li.txt") Demo.now0 Demo.w0 Demo.used_disk 34 = None
  /\ fst <$> run_simulation Demo.down Demo.not_json Demo.echo
               Demo.ascii_digit (utf8 "personas/7Li.txt") Demo.now0 Demo.w0
               Demo.used_disk 35
     = Some (Ret (RunSuccess (utf8 "7") (utf8 "Li") (PyInt 301)
                    (round_double 43) Good)).
Proof. split; vm_compute; reflexivity. Qed.

(** A score with a number for the reasoning ends the run in the first
    dimension: the exception of the score row is caught by the loop, the
    score is in the session, the session is still running and no ledger
    row is written. *)
Example run_stops_at_unclean_reasoning :
  match run_simulation Demo.two_verdicts Demo.loads_numbered Demo.echo
          Demo.ascii_digit (utf8 "personas/7Li.txt") Demo.now0 Demo.w0
          Demo.used_disk 35 with
  | Some (o, k) =>
    o = Ret (RunFailure (utf8 "7") (utf8 "Li") (Caught AttributeError))
    /\ st_status (state (self (on k))) = Running
    /\ map fst (dimension_scores (state (self (on k)))) = [1]
    /\ ledger (outside (on k)) = None
  | None => False
  end.
Proof. vm_compute. repeat split. Qed.

(** [force_score_current_dimension] has none of the checks of
    [process_user_response]: after one answer it scores the dimension on
    two questions, and on a completed session it completes the session
    once more, which adds a second row for the same user to the ledger. *)
Example force_score_skips_the_checks :
  (let k := snd (Recorded.force_score_current_dimension Demo.two_verdicts
                   Demo.loads_verdicts (Demo.recorded 1)) in
   map (fun kv => (kv.1, interactions_analyzed kv.2))
     (dimension_scores (state (self (on k)))) = [(1, 2)]
   /\ d_current_dimension (director (self (on k))) = 2)
  /\ (let k := snd (Recorded.force_score_current_dimension Demo.two_verdicts
                      Demo.loads_verdicts (Demo.recorded 21)) in
      length <$> ledger (outside (on (Demo.recorded 21))) = Some 2
      /\ length <$> ledger (outside (on k)) = Some 3).
Proof. vm_compute. repeat split. Qed.

(** The bounds are reached: these calls issue 6 and 14 requests. *)
Example call_costs_reached :
  requests (outside (on (Recorded.started Demo.down (Some (utf8 "7"))
                           (Some (utf8 "Li")) (utf8 "20250101_120000")
                           Demo.w0 {| conversations := ∅;
                                      assessments := ∅ |})))
  = requests Demo.w0 + 6
  /\ requests (outside (on (snd (Recorded.process_user_response Demo.costly
                                   Demo.loads_verdicts (utf8 "ok")
                                   Demo.costly_before_score))))
     = requests (outside (on Demo.costly_before_score)) + 14.
Proof. split; vm_compute; reflexivity. Qed.
